(** * objaverse-synthetic: the asset Selector and the multi-view Capturer

    A shallow embedding of [scripts/download_objaverse.py] (the Selector)
    and [scripts/blender_script.py] (the Capturer), and the properties of
    the two scripts stated over it.

    Python [int]s are [Z]; Python [str]s are [string]; a [dict] used as a
    map is a [gmap], a [set] a [gset]; a raised exception is a value of
    [exn] carried by the [Raise] outcome.  The file system is a list of
    files by location, the host's scene a list of objects. *)

From Stdlib Require Import ZArith QArith Lqa List String Ascii Sorted Permutation.
From stdpp Require Import gmap strings list fin_maps pretty.

Local Open Scope string_scope.
Local Open Scope Z_scope.

(** ** Python values shared by the two scripts *)

Module Py.

(** The exception classes the two scripts and the libraries under them
    raise.  All of them derive from [Exception]; [SystemExit] (raised by
    [argparse] on a usage error) derives from [BaseException] only. *)
Inductive exn_class :=
  | TypeError | ValueError | RuntimeError | KeyError | AssertionError
  | ZeroDivisionError | OSError | SystemExit.

Record exn := Exn { exn_cls : exn_class; exn_msg : string }.

(** [isinstance(e, Exception)] *)
Definition is_Exception (e : exn) : bool :=
  match exn_cls e with SystemExit => false | _ => true end.

(** The outcome of a computation that may raise. *)
Inductive outcome (A : Type) :=
  | Ok (a : A)
  | Raise (e : exn).
Arguments Ok {A} a.
Arguments Raise {A} e.

Definition obind {A B} (m : outcome A) (k : A -> outcome B) : outcome B :=
  match m with Ok a => k a | Raise e => Raise e end.

(** [s.split(sep)]: never empty, [""] splits into [[""]]. *)
Fixpoint split (sep : ascii) (s : string) : list string :=
  match s with
  | EmptyString => [EmptyString]
  | String c s' =>
      if Ascii.eqb c sep then EmptyString :: split sep s'
      else match split sep s' with
           | [] => [String c EmptyString]
           | h :: t => String c h :: t
           end
  end.

(** [s.split(sep)[0]] and [s.split(sep)[-1]] *)
Definition split_head (sep : ascii) (s : string) : string :=
  default "" (head (split sep s)).

Definition split_last (sep : ascii) (s : string) : string :=
  default "" (last (split sep s)).

(** [s.startswith(p)] and [s.endswith(p)] *)
Fixpoint startswith (p s : string) : bool :=
  match p, s with
  | EmptyString, _ => true
  | String a p', String b s' => Ascii.eqb a b && startswith p' s'
  | String _ _, EmptyString => false
  end.

Fixpoint endswith (p s : string) : bool :=
  String.eqb p s
  || match s with
     | EmptyString => false
     | String _ s' => endswith p s'
     end.

(** [c in s] *)
Fixpoint has_char (c : ascii) (s : string) : bool :=
  match s with
  | EmptyString => false
  | String d s' => Ascii.eqb d c || has_char c s'
  end.

(** [range(n)] *)
Definition range (n : Z) : list Z := map Z.of_nat (seq 0 (Z.to_nat n)).

(** [str(i)] for an [int] *)
Definition str (i : Z) : string := pretty i.

(** [s.zfill(width)]: zeros are inserted after a leading sign. *)
Definition zfill (width : nat) (s : string) : string :=
  let zeros := string_of_list_ascii (repeat "0"%char (width - String.length s)) in
  match s with
  | String c s' =>
      if Ascii.eqb c "-" || Ascii.eqb c "+" then String c (zeros ++ s')
      else zeros ++ s
  | EmptyString => zeros
  end%string.

(** [int(s)] for the ASCII literals of base 10: surrounding white space
    is stripped, a sign may lead, and single underscores may separate
    digits.  [None] stands for the [ValueError]. *)
Definition is_space (c : ascii) : bool :=
  let n := nat_of_ascii c in
  ((9 <=? n) && (n <=? 13) || (n =? 32))%nat.

Definition digit (c : ascii) : option Z :=
  let n := nat_of_ascii c in
  if ((48 <=? n) && (n <=? 57))%nat then Some (Z.of_nat n - 48) else None.

Fixpoint digits (s : list ascii) (after_digit : bool) (acc : Z) : option Z :=
  match s with
  | [] => if after_digit then Some acc else None
  | c :: s' =>
      match digit c with
      | Some d => digits s' true (10 * acc + d)
      | None =>
          if Ascii.eqb c "_" && after_digit then digits s' false acc else None
      end
  end.

Definition strip (s : list ascii) : list ascii :=
  let drop_space := fix go (l : list ascii) :=
    match l with
    | c :: l' => if is_space c then go l' else l
    | [] => []
    end in
  rev (drop_space (rev (drop_space s))).

Definition int (s : string) : option Z :=
  match strip (list_ascii_of_string s) with
  | c :: s' =>
      if Ascii.eqb c "-" then Z.opp <$> digits s' false 0
      else if Ascii.eqb c "+" then digits s' false 0
      else digits (c :: s') false 0
  | [] => None
  end.

(** [os.path.join(a, b)] on POSIX, and the join of a whole list. *)
Definition join2 (path b : string) : string :=
  if startswith "/" b then b
  else if String.eqb path "" || endswith "/" path then (path ++ b)%string
  else (path ++ "/" ++ b)%string.

Definition path_join (a : string) (p : list string) : string := foldl join2 a p.

(** [os.path.basename(p)] *)
Definition basename (p : string) : string := split_last "/" p.

(** [os.path.dirname(p)]: the part up to the last slash, without
    trailing slashes unless it is made of slashes only. *)
Definition rstrip_slashes (s : string) : string :=
  let drop_slash := fix go (l : list ascii) :=
    match l with
    | c :: l' => if Ascii.eqb c "/" then go l' else l
    | [] => []
    end in
  string_of_list_ascii (rev (drop_slash (rev (list_ascii_of_string s)))).

Definition dirname (p : string) : string :=
  match removelast (split "/" p) with
  | [] => ""
  | comps =>
      let head := (String.concat "/" comps ++ "/")%string in
      if forallb (fun comp => String.eqb comp "") comps then head
      else rstrip_slashes head
  end.

(** A place in the file system: the components of the absolute,
    normalised path ([os.path.abspath], with no symbolic links).  An
    absolute path starts afresh, empty and [.] components are skipped,
    and [..] steps up. *)
Definition step_into (at_ : list string) (comp : string) : list string :=
  if String.eqb comp "" || String.eqb comp "." then at_
  else if String.eqb comp ".." then removelast at_
  else (at_ ++ [comp])%list.

Definition locate (cwd : list string) (p : string) : list string :=
  foldl step_into (if startswith "/" p then [] else cwd) (split "/" p).

(** Index normalisation of a slice bound ([PySlice_AdjustIndices] with
    step 1): a negative bound counts from the end, and both are clamped
    to [0, len]. *)
Definition adjust_index (len i : Z) : Z :=
  if i <? 0 then Z.max 0 (i + len) else Z.min i len.

(** [l[start:stop]] *)
Definition slice {A} (l : list A) (start stop : Z) : list A :=
  let len := Z.of_nat (length l) in
  let s := adjust_index len start in
  let e := adjust_index len stop in
  take (Z.to_nat (e - s)) (drop (Z.to_nat s) l).

(** [sorted(l, key=key, reverse=True)].  Python's sort is stable also
    under [reverse=True]; it is modelled by the stable insertion sort
    that places an element in front of the first one whose key is not
    larger. *)
Section Sorted.
Context {A : Type} (key : A -> Z).

Fixpoint insert_desc (x : A) (l : list A) : list A :=
  match l with
  | [] => [x]
  | y :: l' =>
      if key x <? key y then y :: insert_desc x l' else x :: y :: l'
  end.

Definition sorted_reverse (l : list A) : list A :=
  foldr insert_desc [] l.

(** [x] is ranked no lower than [y]. *)
Definition desc (x y : A) : Prop := key y <= key x.

End Sorted.

(** A component of a normalised path: a name that is neither empty nor
    [.] nor [..] and holds no slash. *)
Definition plain (comp : string) : Prop :=
  comp <> "" /\ comp <> "." /\ comp <> ".." /\ has_char "/" comp = false.

(** The absolute path that names a place. *)
Definition path_of (k : list string) : string :=
  match k with
  | [] => "/"
  | _ => foldl (fun acc comp => acc ++ "/" ++ comp)%string "" k
  end.

(** The number a run of decimal digits reads as, after [acc]. *)
Definition number (ds : list ascii) (acc : Z) : Z :=
  foldl (fun a c => 10 * a + default 0 (digit c)) acc ds.

End Py.

(** ** The Selector: [scripts/download_objaverse.py] *)

Module Selector.
Import Py.

(** The command line, as [tyro.cli(Args)] returns it.  [uid_json_path]
    is declared [str = None]: [None] when the option is not given. *)
Record Args := {
  start_i : Z;
  end_i : Z;
  n_objects : Z;
  skip_completed : bool;
  uid_json_path : option string
}.

Section Selector.

(** The generator behind the [random] module: its state, the state
    [random.seed(a)] installs, and [_randbelow]. *)
Context {rng : Type} (seed : Z -> rng) (randbelow : nat -> rng -> nat * rng).

(** [x[i], x[j] = x[j], x[i]] *)
Definition swap {A} (x : list A) (i j : nat) : list A :=
  match x !! i, x !! j with
  | Some a, Some b => <[j:=a]> (<[i:=b]> x)
  | _, _ => x
  end.

(** The loop of [random.shuffle]:
    [for i in reversed(range(1, len(x))): j = randbelow(i + 1); swap],
    entered at index [i]. *)
Fixpoint shuffle_from {A} (i : nat) (x : list A) (g : rng) : list A * rng :=
  match i with
  | O => (x, g)
  | S i' =>
      let (j, g') := randbelow (S i) g in
      shuffle_from i' (swap x i j) g'
  end.

Definition shuffle {A} (x : list A) (g : rng) : list A * rng :=
  shuffle_from (length x - 1)%nat x g.

(** What the script reads from outside: the catalog ([load_uids],
    [load_annotations], [_load_object_paths]), the manifest files that
    exist and what [json.load] reads from them, the keys of the
    [objaverse-images] bucket, and the state of the generator when the
    script starts. *)
Record Env := {
  catalog : list string;
  likeCount : string -> Z;
  object_paths : gmap string string;
  manifests : gmap string (list string);
  bucket_files : list string;
  rng0 : rng
}.

(** The loop of [get_completed_uids] that counts the keys under each
    first path component. *)
Definition count_dir (dir_counts : gmap string Z) (file : string) : gmap string Z :=
  let d := split_head "/" file in
  <[d := default 0 (dir_counts !! d) + 1]> dir_counts.

Definition dir_counts_of (files : list string) : gmap string Z :=
  foldl count_dir ∅ files.

Definition get_completed_uids (files : list string) : gset string :=
  dom (filter (fun dc : string * Z => dc.2 = 12) (dir_counts_of files)).

(** The [else] branch of [__main__]: seed, shuffle, slice, rank. *)
Definition recompute (args : Args) (env : Env) : list string :=
  let g := seed 42 in
  let uids := catalog env in
  let (uids, _) := shuffle uids g in
  let uids := slice uids (start_i args) (end_i args) in
  slice (sorted_reverse (likeCount env) uids) 0 (n_objects args).

(** [os.path.exists(path)].  [os.stat(None)] raises [TypeError], which
    [exists] does not catch; a manifest exists when [manifests] has it. *)
Definition path_exists (env : Env) (path : option string) : outcome bool :=
  match path with
  | None =>
      Raise (Exn TypeError
        "stat: path should be string, bytes, os.PathLike or integer, not NoneType")
  | Some p => Ok (bool_decide (is_Some (manifests env !! p)))
  end.

(** [with open(path) as f: json.load(f)] *)
Definition json_load (env : Env) (path : option string) : outcome (list string) :=
  match path ≫= (manifests env !!.) with
  | Some uids => Ok uids
  | None => Raise (Exn OSError "No such file or directory")
  end.

(** [[f(uid) for uid in uids]] where [f] may raise. *)
Fixpoint resolve (env : Env) (uids : list string) : outcome (list string) :=
  match uids with
  | [] => Ok []
  | uid :: rest =>
      match object_paths env !! uid with
      | None => Raise (Exn KeyError uid)
      | Some p =>
          obind (resolve env rest) (fun urls =>
            Ok (("https://huggingface.co/datasets/allenai/objaverse/resolve/main/"
                   ++ p)%string :: urls))
      end
  end.

Inductive branch := Loaded | Recomputed.

(** The identifiers [__main__] holds after the [if]/[else] on the
    manifest path, and the branch it took. *)
Definition choose_uids (args : Args) (env : Env) : outcome (branch * list string) :=
  obind (path_exists env (uid_json_path args)) (fun found =>
    if (found : bool) then
      obind (json_load env (uid_json_path args)) (fun uids => Ok (Loaded, uids))
    else Ok (Recomputed, recompute args env)).

(** The number of bucket keys whose first path component is [d]. *)
Definition key_count (d : string) (files : list string) : Z :=
  Z.of_nat (length (filter (fun file => split_head "/" file = d) files)).

(** [[uid for uid in uids if uid not in completed_uids]] *)
Definition drop_completed (completed_uids : gset string) (uids : list string) : list string :=
  filter (fun uid => uid ∉ completed_uids) uids.

(** [__main__]: the list of URLs dumped to [input_models_path.json]. *)
Definition main (args : Args) (env : Env) : outcome (list string) :=
  obind (choose_uids args env) (fun bu =>
    let uids := bu.2 in
    let uids :=
      if skip_completed args
      then drop_completed (get_completed_uids (bucket_files env)) uids
      else uids in
    resolve env uids).

End Selector.

(** A small catalog to run the script on: four assets, two of them with
    seven likes, a manifest file, and a bucket in which [a] holds twelve
    renders and [c] one.  The generator always draws 0. *)
Definition demo_randbelow (n : nat) (g : unit) : nat * unit := (0%nat, g).

Definition demo_env : Env (rng := unit) := {|
  catalog := ["a"; "b"; "c"; "d"];
  likeCount := fun u => if String.eqb u "b" || String.eqb u "d" then 7 else 1;
  object_paths :=
    list_to_map [("a", "glbs/000/a.glb"); ("b", "glbs/000/b.glb");
                 ("c", "glbs/001/c.glb"); ("d", "glbs/001/d.glb")];
  manifests := {[ "uids.json" := ["a"; "c"] ]};
  bucket_files :=
    map (fun i => "a/" ++ pretty i ++ ".png")%string (seq 0 12) ++ ["c/000.png"];
  rng0 := tt
|}.

Definition demo_args (skip : bool) (path : option string) : Args :=
  {| start_i := 0; end_i := 100; n_objects := 3;
     skip_completed := skip; uid_json_path := path |}.

End Selector.

(** ** The Capturer: [scripts/blender_script.py] *)

Module Capturer.
Import Py.

(** *** The command line *)

Record Args := {
  object_path : string;
  output_dir : string;
  engine : string;
  num_images : Z;
  camera_dist : Z
}.

(** [parser.error]: usage on stderr, then [sys.exit(2)]. *)
Definition usage_error (msg : string) : exn := Exn SystemExit msg.

(** [sys.argv[sys.argv.index("--") + 1 :]] *)
Fixpoint after_dashes (sys_argv : list string) : outcome (list string) :=
  match sys_argv with
  | [] => Raise (Exn ValueError "'--' is not in list")
  | a :: rest => if String.eqb a "--" then Ok rest else after_dashes rest
  end.

(** The five [add_argument] declarations, applied to [--name value]
    pairs from left to right over the defaults; [object_path] has no
    default and is [None] until given.  [num_images] and [camera_dist]
    are declared [type=int]. *)
Definition defaults : option string * Args :=
  (None, {| object_path := ""; output_dir := "objaverse_synthetic";
            engine := "BLENDER_EEVEE"; num_images := 300; camera_dist := 4 |}).

Definition set_argument (name value : string) (acc : option string * Args)
  : outcome (option string * Args) :=
  let '(given, a) := acc in
  if String.eqb name "--object_path" then
    Ok (Some value, a)
  else if String.eqb name "--output_dir" then
    Ok (given, {| object_path := object_path a; output_dir := value;
                  engine := engine a; num_images := num_images a;
                  camera_dist := camera_dist a |})
  else if String.eqb name "--engine" then
    if String.eqb value "CYCLES" || String.eqb value "BLENDER_EEVEE" then
      Ok (given, {| object_path := object_path a; output_dir := output_dir a;
                    engine := value; num_images := num_images a;
                    camera_dist := camera_dist a |})
    else Raise (usage_error ("argument --engine: invalid choice: " ++ value))
  else if String.eqb name "--num_images" then
    match int value with
    | Some n =>
        Ok (given, {| object_path := object_path a; output_dir := output_dir a;
                      engine := engine a; num_images := n;
                      camera_dist := camera_dist a |})
    | None => Raise (usage_error ("argument --num_images: invalid int value: " ++ value))
    end
  else if String.eqb name "--camera_dist" then
    match int value with
    | Some n =>
        Ok (given, {| object_path := object_path a; output_dir := output_dir a;
                      engine := engine a; num_images := num_images a;
                      camera_dist := n |})
    | None => Raise (usage_error ("argument --camera_dist: invalid int value: " ++ value))
    end
  else Raise (usage_error ("unrecognized arguments: " ++ name)).

Fixpoint parse_pairs (argv : list string) (acc : option string * Args)
  : outcome (option string * Args) :=
  match argv with
  | [] => Ok acc
  | [name] => Raise (usage_error ("argument " ++ name ++ ": expected one argument"))
  | name :: value :: rest =>
      obind (set_argument name value acc) (parse_pairs rest)
  end.

Definition parse_args (argv : list string) : outcome Args :=
  obind (parse_pairs argv defaults) (fun acc =>
    match acc.1 with
    | Some path =>
        Ok {| object_path := path; output_dir := output_dir acc.2;
              engine := engine acc.2; num_images := num_images acc.2;
              camera_dist := camera_dist acc.2 |}
    | None =>
        Raise (usage_error "the following arguments are required: --object_path")
    end).

(** *** Numbers and geometry

    A Python [float] is idealised as an exact rational: every finite
    double is one, and arithmetic is taken without rounding.  The
    transcendental functions are part of the host below. *)

Definition vec3 : Type := Q * Q * Q.
Definition quat : Type := Q * Q * Q * Q.
Definition mat3 : Type := vec3 * vec3 * vec3.

(** [v[i]] for [i] in [range(3)], and [m[i]]. *)
Definition vget (v : vec3) (i : Z) : Q :=
  let '(x, y, z) := v in
  if i =? 0 then x else if i =? 1 then y else z.

Definition mrow (m : mat3) (i : Z) : vec3 :=
  let '(r0, r1, r2) := m in
  if i =? 0 then r0 else if i =? 1 then r1 else r2.

Definition vmap2 (f : Q -> Q -> Q) (a b : vec3) : vec3 :=
  let '(a0, a1, a2) := a in
  let '(b0, b1, b2) := b in
  (f a0 b0, f a1 b1, f a2 b2).

Definition vadd : vec3 -> vec3 -> vec3 := vmap2 Qplus.
Definition vsub : vec3 -> vec3 -> vec3 := vmap2 Qminus.
Definition vmul : vec3 -> vec3 -> vec3 := vmap2 Qmult.
Definition vscale (k : Q) (v : vec3) : vec3 := vmul (k, k, k) v.
Definition vneg (v : vec3) : vec3 := vsub (0, 0, 0)%Q v.

(** The builtins [min(x, y)] and [max(x, y)]: the first argument wins
    unless the second is strictly smaller (larger). *)
Definition py_min (x y : Q) : Q := if Qle_bool x y then x else y.
Definition py_max (x y : Q) : Q := if Qle_bool y x then x else y.

(** [max(v)] over the three components of a [Vector]. *)
Definition vmax (v : vec3) : Q :=
  let '(x, y, z) := v in py_max (py_max x y) z.


(** A world matrix of the scenes modelled here: a scale along each axis
    and a translation (objects are not rotated). *)
Record affine := Affine { a_scale : vec3; a_trans : vec3 }.

(** [m @ coord] *)
Definition apply (m : affine) (coord : vec3) : vec3 :=
  vadd (vmul (a_scale m) coord) (a_trans m).

(** [outer @ inner] *)
Definition compose (outer inner : affine) : affine :=
  Affine (vmul (a_scale outer) (a_scale inner))
         (apply outer (a_trans inner)).




(** *** The host application's data *)

(** [obj.type] *)
Inductive kind := MESH | CAMERA | LIGHT | EMPTY.

(** An object of [bpy.data.objects].  Objects are keyed by their name.
    [linked] says whether the object is in the scene
    ([bpy.context.scene.objects]); [bb_min] and [bb_max] span the local
    bounding box whose eight corners are [obj.bound_box];
    [matrix_world] is the matrix last evaluated by the host. *)
Record Object := {
  name : string;
  type : kind;
  parent : option string;
  location : vec3;
  scale : vec3;
  bb_min : vec3;
  bb_max : vec3;
  matrix_world : affine;
  selected : bool;
  linked : bool
}.

(** A Camera Pose Record, and the document dumped per split. *)
Record Frame := { file_path : string; transform_matrix : list (list Q) }.

Record Export := {
  camera_angle_x : Q;
  width : Z;
  height : Z;
  frames : list Frame
}.

Inductive file :=
  | Image (file_format color_mode : string)
  | Json (doc : Export)
  | Wavefront (mesh : string)
  | Download (url : string).

(** The render settings the script touches. *)
Record Render := {
  r_engine : string;
  r_file_format : string;
  r_color_mode : string;
  resolution_x : Z;
  resolution_y : Z;
  filepath : string
}.

(** The calls to operators of the host, in a log. *)
Inductive op :=
  | ImportGltf (path : string)
  | ImportFbx (path : string)
  | RenderStill (path : string)
  | ObjExport (path : string)
  | Join
  | SelectAll.

(** The file at a location in a list of files, the newest entry first. *)
Fixpoint assoc (k : list string) (l : list (list string * file)) : option file :=
  match l with
  | [] => None
  | (k', content) :: l' => if decide (k' = k) then Some content else assoc k l'
  end.

(** Everything the script reads and changes: the file system (files
    and directories by location, and the working directory), the host's
    objects, active object and render settings, the log of operator
    calls, what was printed, and the state of the [random] module. *)
Record World {rng : Type} := {
  files : list (list string * file);
  dirs : list (list string);
  cwd : list string;
  objects : list Object;
  active : option string;
  render : Render;
  ops : list op;
  stdout : list string;
  random : rng
}.
Arguments World : clear implicits.

Section Pipeline.
Context {rng : Type}.
Abbreviation W := (World rng).

Definition with_files (f : list (list string * file)) (w : W) : W :=
  {| files := f; dirs := dirs w; cwd := cwd w; objects := objects w;
     active := active w; render := render w; ops := ops w;
     stdout := stdout w; random := random w |}.

Definition with_dirs (d : list (list string)) (w : W) : W :=
  {| files := files w; dirs := d; cwd := cwd w; objects := objects w;
     active := active w; render := render w; ops := ops w;
     stdout := stdout w; random := random w |}.

Definition with_objects (o : list Object) (w : W) : W :=
  {| files := files w; dirs := dirs w; cwd := cwd w; objects := o;
     active := active w; render := render w; ops := ops w;
     stdout := stdout w; random := random w |}.

Definition with_active (a : option string) (w : W) : W :=
  {| files := files w; dirs := dirs w; cwd := cwd w; objects := objects w;
     active := a; render := render w; ops := ops w;
     stdout := stdout w; random := random w |}.

Definition with_render (r : Render) (w : W) : W :=
  {| files := files w; dirs := dirs w; cwd := cwd w; objects := objects w;
     active := active w; render := r; ops := ops w;
     stdout := stdout w; random := random w |}.

Definition with_random (g : rng) (w : W) : W :=
  {| files := files w; dirs := dirs w; cwd := cwd w; objects := objects w;
     active := active w; render := render w; ops := ops w;
     stdout := stdout w; random := g |}.

(** A call to an operator is logged. *)
Definition logged (o : op) (w : W) : W :=
  {| files := files w; dirs := dirs w; cwd := cwd w; objects := objects w;
     active := active w; render := render w; ops := (ops w ++ [o])%list;
     stdout := stdout w; random := random w |}.

(** [print(line)] *)
Definition printed (line : string) (w : W) : W :=
  {| files := files w; dirs := dirs w; cwd := cwd w; objects := objects w;
     active := active w; render := render w; ops := ops w;
     stdout := (stdout w ++ [line])%list; random := random w |}.

(** Statements: a state transformer that returns or raises.  The state
    an exception leaves behind is kept. *)
Definition M (A : Type) : Type := W -> outcome A * W.

Definition ret {A} (a : A) : M A := fun w => (Ok a, w).
Definition raise {A} (e : exn) : M A := fun w => (Raise e, w).

Definition bind {A B} (m : M A) (k : A -> M B) : M B :=
  fun w =>
    match m w with
    | (Ok a, w') => k a w'
    | (Raise e, w') => (Raise e, w')
    end.

Definition gets {A} (f : W -> A) : M A := fun w => (Ok (f w), w).
Definition modify (f : W -> W) : M unit := fun w => (Ok tt, f w).
Definition lift {A} (f : W -> outcome A) : M A := fun w => (f w, w).

End Pipeline.

Notation "'let!' x ':=' m 'in' k" := (bind m (fun x => k))
  (at level 10, x pattern, m at level 100, k at level 200).
Notation "m ';;' k" := (bind m (fun _ => k))
  (at level 100, k at level 200, right associativity).

Section Pipeline.
Context {rng : Type}.
Abbreviation W := (World rng).

(** [for x in l: s = body(x, s)] *)
Fixpoint for_each {A S} (l : list A) (body : A -> S -> M (rng := rng) S) (s : S) : M S :=
  match l with
  | [] => ret s
  | x :: l' => let! s' := body x s in for_each l' body s'
  end.

(** *** The file system *)

(** The directory of a location and the locations above it, itself
    included. *)
Definition parent_dir (k : list string) : list string := removelast k.

Definition ancestors (k : list string) : list (list string) :=
  map (fun n => take n k) (seq 0 (S (length k))).

Definition file_at (w : W) (k : list string) : option file := assoc k (files w).

Definition is_file (w : W) (k : list string) : bool :=
  bool_decide (is_Some (file_at w k)).

Definition is_dir (w : W) (k : list string) : bool :=
  bool_decide (k ∈ dirs w).



(** [os.path.exists(path)] *)
Definition path_exists (path : string) : M bool :=
  gets (fun w =>
    let k := locate (cwd w) path in is_file w k || is_dir w k).

(** The directories [ks] are made where they are missing. *)
Definition add_dirs (ks : list (list string)) (ds : list (list string))
  : list (list string) :=
  (ds ++ filter (fun k => k ∉ ds) ks)%list.

(** [os.makedirs(path, exist_ok=True)] *)
Definition makedirs (path : string) : M unit :=
  fun w =>
    let k := locate (cwd w) path in
    if existsb (is_file w) (ancestors k) then
      (Raise (Exn OSError ("File exists: " ++ path)), w)
    else (Ok tt, with_dirs (add_dirs (ancestors k) (dirs w)) w).

(** Writing [content] to [path], as [open(path, "w")] followed by a dump
    does: the directory must exist. *)
Definition write_file (path : string) (content : file) : M unit :=
  fun w =>
    let k := locate (cwd w) path in
    if is_dir w k then
      (Raise (Exn OSError ("Is a directory: " ++ path)), w)
    else if is_dir w (parent_dir k) then
      (Ok tt, with_files ((k, content) :: files w) w)
    else (Raise (Exn OSError ("No such file or directory: " ++ path)), w).

(** [os.remove(path)] *)
Definition remove (path : string) : M unit :=
  fun w =>
    let k := locate (cwd w) path in
    if is_file w k
    then (Ok tt, with_files (filter (fun kc => kc.1 <> k) (files w)) w)
    else (Raise (Exn OSError ("No such file or directory: " ++ path)), w).

(** [os.rename(src, dst)] of a file *)
Definition rename (src dst : string) : M unit :=
  fun w =>
    let ks := locate (cwd w) src in
    let kd := locate (cwd w) dst in
    match file_at w ks with
    | Some content =>
        if is_dir w kd then
          (Raise (Exn OSError ("Is a directory: " ++ dst)), w)
        else if is_dir w (parent_dir kd) then
          (Ok tt,
           with_files ((kd, content) :: filter (fun kc => kc.1 <> ks) (files w)) w)
        else (Raise (Exn OSError ("No such file or directory: " ++ dst)), w)
    | None => (Raise (Exn OSError ("No such file or directory: " ++ src)), w)
    end.

(** [os.path.abspath(path)] *)
Definition abspath (path : string) : M (rng := rng) string :=
  gets (fun w =>
    match locate (cwd w) path with
    | [] => "/"
    | k => foldl (fun acc comp => acc ++ "/" ++ comp)%string "" k
    end).

(** *** The host application

    What the script obtains from Blender, from [math], [random], [time]
    and [urllib], without the script deciding it: trigonometry, random
    draws, the objects an importer creates from a file, whether a render
    or an export succeeds, the camera's evaluated world matrix, and the
    lights [add_lighting] arranges through the host's naming of new
    objects. *)
Record Host := {
  randint : Z -> Z -> rng -> Z * rng;
  sin : Q -> Q;
  cos : Q -> Q;
  pi : Q;
  radians : Q -> Q;
  elapsed : W -> string;
  urlretrieve_fault : string -> W -> option exn;
  imported : op -> W -> outcome (list Object);
  render_fault : W -> option exn;
  export_result : W -> outcome string;
  cam_matrix_world : W -> vec3 * quat;
  to_matrix : quat -> mat3;
  angle_x : W -> outcome Q;
  fresh_name : string -> W -> string;
  joined_box : W -> vec3 * vec3;
  add_lighting : M (rng := rng) unit
}.

Context (host : Host) (args : Args).

(** [print(a, b, ...)] *)
Definition print (words : list string) : M (rng := rng) unit :=
  modify (printed (String.concat " " words)).

(** *** Scene queries *)

#[global] Instance kind_eq_dec : EqDecision kind.
Proof. solve_decision. Defined.

(** [bpy.context.scene.objects.values()] *)
Definition scene_objects (w : W) : list Object :=
  filter (fun o => linked o = true) (objects w).

Definition scene_root_objects (w : W) : list Object :=
  filter (fun o => parent o = None) (scene_objects w).

Definition scene_meshes (w : W) : list Object :=
  filter (fun o => type o = MESH) (scene_objects w).

(** [bpy.data.objects[name]] without the [KeyError] *)
Definition find_object (objs : list Object) (n : string) : option Object :=
  List.find (fun o => String.eqb (name o) n) objs.

(** Assignment to attributes of the object called [n]. *)
Definition update_object (n : string) (f : Object -> Object) (w : W) : W :=
  with_objects (map (fun o => if String.eqb (name o) n then f o else o) (objects w)) w.

Definition set_selected (b : bool) (o : Object) : Object :=
  {| name := name o; type := type o; parent := parent o;
     location := location o; scale := scale o;
     bb_min := bb_min o; bb_max := bb_max o;
     matrix_world := matrix_world o; selected := b; linked := linked o |}.

Definition set_linked (b : bool) (o : Object) : Object :=
  {| name := name o; type := type o; parent := parent o;
     location := location o; scale := scale o;
     bb_min := bb_min o; bb_max := bb_max o;
     matrix_world := matrix_world o; selected := selected o; linked := b |}.

Definition set_location (v : vec3) (o : Object) : Object :=
  {| name := name o; type := type o; parent := parent o;
     location := v; scale := scale o;
     bb_min := bb_min o; bb_max := bb_max o;
     matrix_world := matrix_world o; selected := selected o; linked := linked o |}.

Definition set_scale (v : vec3) (o : Object) : Object :=
  {| name := name o; type := type o; parent := parent o;
     location := location o; scale := v;
     bb_min := bb_min o; bb_max := bb_max o;
     matrix_world := matrix_world o; selected := selected o; linked := linked o |}.

Definition set_bounds (b : vec3 * vec3) (o : Object) : Object :=
  {| name := name o; type := type o; parent := parent o;
     location := location o; scale := scale o;
     bb_min := b.1; bb_max := b.2;
     matrix_world := matrix_world o; selected := selected o; linked := linked o |}.

(** Assignment to [obj.matrix_world]: the host stores the matrix and
    derives the object's own transform from it (for an object without a
    parent, the matrix itself). *)
Definition set_matrix_world (m : affine) (o : Object) : Object :=
  {| name := name o; type := type o; parent := parent o;
     location := match parent o with None => a_trans m | Some _ => location o end;
     scale := match parent o with None => a_scale m | Some _ => scale o end;
     bb_min := bb_min o; bb_max := bb_max o;
     matrix_world := m; selected := selected o; linked := linked o |}.

(** The matrix the host evaluates for an object: its own scale and
    location, under the matrix of its parent. *)
Definition own (o : Object) : affine := Affine (scale o) (location o).

Fixpoint evaluated (fuel : nat) (objs : list Object) (o : Object) : affine :=
  match fuel with
  | O => own o
  | S fuel' =>
      match parent o ≫= find_object objs with
      | Some p => compose (evaluated fuel' objs p) (own o)
      | None => own o
      end
  end.



(** [bpy.context.view_layer.update()]: the objects of the scene get
    their evaluated matrices. *)
Definition refreshed (objs : list Object) (o : Object) : Object :=
  if linked o then
    {| name := name o; type := type o; parent := parent o;
       location := location o; scale := scale o;
       bb_min := bb_min o; bb_max := bb_max o;
       matrix_world := evaluated (length objs) objs o;
       selected := selected o; linked := linked o |}
  else o.

Definition refresh (w : W) : W :=
  with_objects (map (refreshed (objects w)) (objects w)) w.

Definition view_layer_update : M (rng := rng) unit := modify refresh.

(** [bpy.ops.object.select_all(action="DESELECT")] *)
Definition deselected (o : Object) : Object :=
  if linked o then set_selected false o else o.

Definition deselect_all (w : W) : W :=
  logged SelectAll (with_objects (map deselected (objects w)) w).

Definition select_all_deselect : M (rng := rng) unit := modify deselect_all.

(** [obj.bound_box]: the eight corners of the local box. *)
Definition bound_box (o : Object) : list vec3 :=
  let '(x0, y0, z0) := bb_min o in
  let '(x1, y1, z1) := bb_max o in
  [(x0, y0, z0); (x0, y0, z1); (x0, y1, z1); (x0, y1, z0);
   (x1, y0, z0); (x1, y0, z1); (x1, y1, z1); (x1, y1, z0)].

(** One round of the inner loop of [scene_bbox].  The pair of running
    bounds starts as [((inf,)*3, (-inf,)*3)], written [None]:
    [min(inf, x)] and [max(-inf, x)] are [x]. *)
Definition grow (bounds : option (vec3 * vec3)) (coord : vec3) : option (vec3 * vec3) :=
  Some match bounds with
       | None => (coord, coord)
       | Some (bbox_min, bbox_max) =>
           (vmap2 py_min bbox_min coord, vmap2 py_max bbox_max coord)
       end.

Definition grow_object (ignore_matrix : bool) (bounds : option (vec3 * vec3)) (obj : Object)
  : option (vec3 * vec3) :=
  foldl (fun b coord =>
           grow b (if ignore_matrix then coord else apply (matrix_world obj) coord))
        bounds (bound_box obj).


(** [scene_bbox(single_obj, ignore_matrix)].  [found] is set exactly
    when a corner has been folded in, a [bound_box] having eight. *)
Definition scene_bbox (single_obj : option Object) (ignore_matrix : bool)
  : M (rng := rng) (vec3 * vec3) :=
  fun w =>
    let objs := match single_obj with None => scene_meshes w | Some o => [o] end in
    match foldl (grow_object ignore_matrix) None objs with
    | Some bounds => (Ok bounds, w)
    | None =>
        (Raise (Exn RuntimeError "no objects in scene to compute bounding box for"), w)
    end.

(** [for obj in scene_root_objects(): obj.scale = obj.scale * scale] *)
Definition scaled (scale_ : Q) (o : Object) : Object :=
  if bool_decide (linked o = true /\ parent o = None)
  then set_scale (vscale scale_ (scale o)) o else o.

Definition scale_roots (scale_ : Q) (w : W) : W :=
  with_objects (map (scaled scale_) (objects w)) w.

(** [for obj in scene_root_objects():
       obj.matrix_world.translation += offset] *)
Definition shifted (offset : vec3) (o : Object) : Object :=
  if bool_decide (linked o = true /\ parent o = None)
  then set_matrix_world
         (Affine (a_scale (matrix_world o))
                 (vadd (a_trans (matrix_world o)) offset)) o
  else o.

Definition shift_roots (offset : vec3) (w : W) : W :=
  with_objects (map (shifted offset) (objects w)) w.

(** [normalize_scene(scale)] *)
Definition normalize_scene (scale_ : Q) : M (rng := rng) unit :=
  let! (bbox_min, bbox_max) := scene_bbox None false in
  let extent := vmax (vsub bbox_max bbox_min) in
  if Qeq_bool extent 0 then raise (Exn ZeroDivisionError "float division by zero")
  else
    let scale_ := (scale_ / extent)%Q in
    modify (scale_roots scale_) ;;
    view_layer_update ;;
    let! (bbox_min, bbox_max) := scene_bbox None false in
    let offset := vscale (1 / 2)%Q (vneg (vadd bbox_min bbox_max)) in
    modify (shift_roots offset) ;;
    select_all_deselect.

(** *** Building the scene *)

(** [reset_scene()]: every object that is not a camera or a light is
    removed.  (Materials, textures and images are not part of [World].) *)
Definition reset_scene : M (rng := rng) unit :=
  modify (fun w =>
    with_objects (filter (fun o => type o = CAMERA \/ type o = LIGHT) (objects w)) w).

(** An importer: the host reads the file and links the objects it
    creates to the scene, or raises. *)
Definition import_scene (o : op) : M (rng := rng) unit :=
  fun w =>
    match imported host o w with
    | Ok objs =>
        (Ok tt, logged o (with_objects (objects w ++ map (set_linked true) objs)%list w))
    | Raise e => (Raise e, logged o w)
    end.

(** [load_object(object_path)] *)
Definition load_object (object_path : string) : M (rng := rng) unit :=
  if endswith ".glb" object_path then import_scene (ImportGltf object_path)
  else if endswith ".fbx" object_path then import_scene (ImportFbx object_path)
  else raise (Exn ValueError ("Unsupported file type: " ++ object_path)).

(** [scene.objects[n]] *)
Definition scene_object (n : string) : M (rng := rng) Object :=
  fun w =>
    match find_object (scene_objects w) n with
    | Some o => (Ok o, w)
    | None => (Raise (Exn KeyError n), w)
    end.

(** [setup_camera()]: returns the camera (by name); lens, sensor and the
    track-to constraint live in the host. *)
Definition setup_camera : M (rng := rng) string :=
  let! cam := scene_object "Camera" in
  modify (update_object (name cam) (set_location (0, 6 # 5, 0)%Q)) ;;
  ret (name cam).

(** [bpy.data.objects.new("Empty", None)] and the link to the scene. *)
Definition new_empty : M (rng := rng) string :=
  fun w =>
    let n := fresh_name host "Empty" w in
    let o := {| name := n; type := EMPTY; parent := None;
                location := (0, 0, 0)%Q; scale := (1, 1, 1)%Q;
                bb_min := (-1, -1, -1)%Q; bb_max := (1, 1, 1)%Q;
                matrix_world := Affine (1, 1, 1)%Q (0, 0, 0)%Q;
                selected := false; linked := true |} in
    (Ok n, with_objects (objects w ++ [o])%list w).

(** *** Rendering *)

(** [get_frame_poses(pos, rt, i, mode)] *)
Definition get_frame_poses (pos : vec3) (rt : quat) (i : Z) (mode : string) : Frame :=
  let rt := to_matrix host rt in
  let matrix :=
    map (fun ii =>
           (map (fun jj => vget (mrow rt ii) jj) (range 3) ++ [vget pos ii])%list)
        (range 3) in
  let matrix := (matrix ++ [[0; 0; 0; 1]%Q])%list in
  {| file_path := mode ++ "/" ++ zfill 3 (str i); transform_matrix := matrix |}.

(** A rigid transform laid out in rows: the rotation with the position
    as fourth column, over the homogeneous row. *)
Definition rigid_rows (r : mat3) (pos : vec3) : list (list Q) :=
  let '(r0, r1, r2) := r in
  let '(px, py, pz) := pos in
  [[r0.1.1; r0.1.2; r0.2; px];
   [r1.1.1; r1.1.2; r1.2; py];
   [r2.1.1; r2.1.2; r2.2; pz];
   [0; 0; 0; 1]]%Q.

(** [set_output_extension(type)] *)
Definition set_output_extension (type_ : string) : M (rng := rng) unit :=
  if String.eqb type_ "png" then
    modify (fun w =>
      with_render {| r_engine := r_engine (render w); r_file_format := "PNG";
                     r_color_mode := "RGBA";
                     resolution_x := resolution_x (render w);
                     resolution_y := resolution_y (render w);
                     filepath := filepath (render w) |} w)
  else if String.eqb type_ "exr" then
    modify (fun w =>
      with_render {| r_engine := r_engine (render w); r_file_format := "OPEN_EXR";
                     r_color_mode := "BW";
                     resolution_x := resolution_x (render w);
                     resolution_y := resolution_y (render w);
                     filepath := filepath (render w) |} w)
  else raise (Exn ValueError "Expect type to be png or exr").

(** [scene.render.filepath = path] *)
Definition set_filepath (path : string) : M (rng := rng) unit :=
  modify (fun w =>
    with_render {| r_engine := r_engine (render w);
                   r_file_format := r_file_format (render w);
                   r_color_mode := r_color_mode (render w);
                   resolution_x := resolution_x (render w);
                   resolution_y := resolution_y (render w);
                   filepath := path |} w).

(** [bpy.ops.render.render(write_still=True)]: the host evaluates the
    scene and, unless it raises, writes the image to [render.filepath],
    creating the directories above it. *)
Definition render_still : M (rng := rng) unit :=
  fun w =>
    let w := logged (RenderStill (filepath (render w))) w in
    match render_fault host w with
    | Some e => (Raise e, w)
    | None =>
        let k := locate (cwd w) (filepath (render w)) in
        (Ok tt,
         with_files
           ((k, Image (r_file_format (render w)) (r_color_mode (render w)))
              :: files w)
           (with_dirs (add_dirs (ancestors (parent_dir k)) (dirs w)) w))
    end.

(** The split of frame [i]. *)
Definition mode_of (i : Z) : string :=
  if i mod 3 =? 2 then "test"
  else if i mod 3 =? 1 then "val"
  else "train".

(** The body of the render loop of [save_images]. *)
Definition render_frame (object_uid cam : string) (i : Z)
    (frames_ : gmap string (list Frame)) : M (rng := rng) (gmap string (list Frame)) :=
  let mode := mode_of i in
  let theta := (inject_Z i / inject_Z (num_images args) * pi host * 2)%Q in
  let! deg := (fun w =>
                 let (d, g) := randint host 35 90 (random w) in
                 (Ok d, with_random g w)) in
  let phi := radians host (inject_Z deg) in
  let point :=
    (inject_Z (camera_dist args) * sin host phi * cos host theta,
     inject_Z (camera_dist args) * sin host phi * sin host theta,
     inject_Z (camera_dist args) * cos host phi)%Q in
  modify (update_object cam (set_location point)) ;;
  let render_path :=
    path_join (output_dir args) [object_uid; mode; zfill 3 (str i) ++ ".png"] in
  set_filepath render_path ;;
  set_output_extension "png" ;;
  render_still ;;
  let! (pos, rt) := gets (cam_matrix_world host) in
  view_layer_update ;;
  let to_add := get_frame_poses pos rt i mode in
  ret (alter (fun l => l ++ [to_add])%list mode frames_).

(** Where frame [i] is rendered to. *)
Definition render_path (object_uid : string) (i : Z) : string :=
  path_join (output_dir args) [object_uid; mode_of i; zfill 3 (str i) ++ ".png"].

(** The pose record of frame [i] taken with pose [p], were it filed
    under [mode]. *)
Definition pose_record (mode : string) (ip : Z * (vec3 * quat)) : Frame :=
  get_frame_poses ip.2.1 ip.2.2 ip.1 mode.

(** *** The mesh export *)

(** [obj.select_set(True)] *)
Definition select_set (n : string) : M (rng := rng) unit :=
  modify (update_object n (set_selected true)).

(** [bpy.ops.object.join()]: the operator needs an active mesh object;
    it merges every other selected mesh object of the scene into the
    active one and removes it.  With an active mesh that is not selected
    the operator warns and changes nothing. *)
Definition object_join : M (rng := rng) unit :=
  fun w =>
    match active w ≫= find_object (scene_objects w) with
    | Some act =>
        if bool_decide (type act = MESH) then
          let w := logged Join w in
          if selected act then
            (Ok tt,
             with_objects
               (map (fun o =>
                       if String.eqb (name o) (name act)
                       then set_bounds (joined_box host w) o else o)
                  (filter (fun o =>
                             name o = name act
                             \/ ~ (type o = MESH /\ selected o = true /\ linked o = true))
                          (objects w))) w)
          else (Ok tt, w)
        else
          (Raise (Exn RuntimeError
             "Operator bpy.ops.object.join.poll() failed, context is incorrect"), w)
    | None =>
        (Raise (Exn RuntimeError
           "Operator bpy.ops.object.join.poll() failed, context is incorrect"), w)
    end.

(** [join_meshes()] *)
Definition join_meshes : M (rng := rng) Object :=
  select_all_deselect ;;
  let! meshes := gets scene_meshes in
  for_each meshes
    (fun mesh _ =>
       select_set (name mesh) ;;
       modify (with_active (Some (name mesh))))
    tt ;;
  object_join ;;
  let! meshes := gets (fun w => filter (fun o => type o = MESH) (objects w)) in
  match meshes with
  | [mesh] => ret mesh
  | _ => raise (Exn AssertionError "")
  end.

(** [bpy.ops.wm.obj_export(filepath=path, ...)] *)
Definition obj_export (path : string) : M (rng := rng) unit :=
  fun w =>
    let w := logged (ObjExport path) w in
    match export_result host w with
    | Ok text => write_file path (Wavefront text) w
    | Raise e => (Raise e, w)
    end.

(** *** The pipeline *)

(** [os.path.basename(object_file).split(".")[0]] *)
Definition object_uid_of (object_file : string) : string :=
  split_head "." (basename object_file).

(** The manifest whose presence makes [save_images] return at once. *)
Definition train_manifest (object_file : string) : string :=
  path_join (output_dir args) [object_uid_of object_file; "transforms_train.json"].

(** [frames = {'train': [], 'val': [], 'test': []}] *)
Definition no_frames : gmap string (list Frame) :=
  {[ "train" := []; "val" := []; "test" := [] ]}.

(** The loop that dumps one document per split. *)
Definition save_poses (object_uid : string) (angle : Q) (width_ height_ : Z)
    (frames_ : gmap string (list Frame)) : M (rng := rng) unit :=
  for_each ["train"; "val"; "test"]
    (fun mode _ =>
       write_file
         (output_dir args ++ "/" ++ object_uid ++ "/transforms_" ++ mode ++ ".json")
         (Json {| camera_angle_x := angle; width := width_; height := height_;
                  frames := frames_ !!! mode |}))
    tt.

(** The [if save_mesh:] block. *)
Definition export_mesh (object_file object_uid : string) : M (rng := rng) unit :=
  modify (fun w => with_active None (with_objects [] w)) ;;
  load_object object_file ;;
  normalize_scene (5 # 2) ;;
  let! mesh := join_meshes in
  select_set (name mesh) ;;
  obj_export (path_join (output_dir args) [object_uid; "mesh.obj"]).

(** [save_images(object_file, save_mesh)] *)
Definition save_images (object_file : string) (save_mesh : bool) : M (rng := rng) unit :=
  makedirs (output_dir args) ;;
  let object_uid := object_uid_of object_file in
  let! rendered := path_exists (train_manifest object_file) in
  if (rendered : bool) then ret tt
  else
    reset_scene ;;
    load_object object_file ;;
    normalize_scene (5 # 2) ;;
    add_lighting host ;;
    let! cam := setup_camera in
    let! empty := new_empty in
    let! angle := lift (angle_x host) in
    let! width_ := gets (fun w => resolution_x (render w)) in
    let! height_ := gets (fun w => resolution_y (render w)) in
    let! frames_ :=
      for_each (range (num_images args)) (render_frame object_uid cam) no_frames in
    save_poses object_uid angle width_ height_ frames_ ;;
    if save_mesh then export_mesh object_file object_uid else ret tt.

(** [download_object(object_url)] *)
Definition download_object (object_url : string) : M (rng := rng) string :=
  let uid := split_head "." (split_last "/" object_url) in
  let tmp_local_path := path_join "tmp-objects" [uid ++ ".glb" ++ ".tmp"] in
  let local_path := path_join "tmp-objects" [uid ++ ".glb"] in
  makedirs (dirname tmp_local_path) ;;
  (fun w =>
     match urlretrieve_fault host object_url w with
     | Some e => (Raise e, w)
     | None => write_file tmp_local_path (Download object_url) w
     end) ;;
  rename tmp_local_path local_path ;;
  abspath local_path.

(** The body of the [try] of [__main__]. *)
Definition attempt : M (rng := rng) unit :=
  let! local_path :=
    if startswith "http" (object_path args)
    then download_object (object_path args)
    else ret (object_path args) in
  save_images local_path true ;;
  let! seconds := gets (elapsed host) in
  print ["Finished"; local_path; "in"; seconds; "seconds"] ;;
  if startswith "http" (object_path args) then remove local_path else ret tt.

(** [__main__]: [try: ... except Exception as e: print(...); print(e)] *)
Definition main : M (rng := rng) unit :=
  fun w =>
    match attempt w with
    | (Ok tt, w') => (Ok tt, w')
    | (Raise e, w') =>
        if is_Exception e then
          (print ["Failed to render"; object_path args] ;;
           print [exn_msg e]) w'
        else (Raise e, w')
    end.

End Pipeline.

(** The script from its first line: the arguments after [--] are
    parsed, the render settings are made, and [__main__] runs. *)
Definition script {rng} (host : Host (rng := rng)) (sys_argv : list string)
  : M (rng := rng) unit :=
  fun w =>
    match obind (after_dashes sys_argv) parse_args with
    | Raise e => (Raise e, w)
    | Ok args =>
        main host args
          (with_render {| r_engine := engine args; r_file_format := "PNG";
                          r_color_mode := "RGBA"; resolution_x := 800;
                          resolution_y := 800;
                          filepath := filepath (render w) |} w)
    end.

(** *** A host to run the script on

    A host whose importer makes one unit cube of every file but
    [pair.glb], of which it makes two unit cubes ten units apart; whose
    renders and exports succeed; whose camera matrix is the camera's
    location with the identity rotation; and whose random draws are all
    35.  Sines are 3/5 and cosines 4/5. *)
Definition cube (n : string) (at_ : vec3) : Object :=
  {| name := n; type := MESH; parent := None;
     location := at_; scale := (1, 1, 1)%Q;
     bb_min := (-(1 # 2), -(1 # 2), -(1 # 2))%Q;
     bb_max := (1 # 2, 1 # 2, 1 # 2)%Q;
     matrix_world := Affine (1, 1, 1)%Q at_;
     selected := false; linked := true |}.

Definition demo_camera : Object :=
  {| name := "Camera"; type := CAMERA; parent := None;
     location := (7, -7, 5)%Q; scale := (1, 1, 1)%Q;
     bb_min := (-1, -1, -1)%Q; bb_max := (1, 1, 1)%Q;
     matrix_world := Affine (1, 1, 1)%Q (7, -7, 5)%Q;
     selected := false; linked := true |}.

Definition demo_import (o : op) : list Object :=
  match o with
  | ImportGltf path | ImportFbx path =>
      if endswith "pair.glb" path
      then [cube "Left" (0, 0, 0)%Q; cube "Right" (10, 0, 0)%Q]
      else [cube "Cube" (0, 0, 0)%Q]
  | _ => []
  end.

Definition demo_host : Host (rng := unit) := {|
  randint := fun a b g => (a, g);
  sin := fun _ => (3 # 5)%Q;
  cos := fun _ => (4 # 5)%Q;
  pi := (355 # 113)%Q;
  radians := fun d => (d * (355 # 113) / 180)%Q;
  elapsed := fun _ => "1.0";
  urlretrieve_fault := fun _ _ => None;
  imported := fun o _ => Ok (demo_import o);
  render_fault := fun _ => None;
  export_result := fun _ => Ok "o mesh";
  cam_matrix_world := fun w =>
    (default (0, 0, 0)%Q (location <$> find_object (objects w) "Camera"),
     (1, 0, 0, 0)%Q);
  to_matrix := fun _ => ((1, 0, 0), (0, 1, 0), (0, 0, 1))%Q;
  angle_x := fun _ => Ok (6 # 7)%Q;
  fresh_name := fun base _ => base;
  joined_box := fun _ => ((-1, -1, -1), (1, 1, 1))%Q;
  add_lighting := ret tt
|}.

(** A fresh session started in [/work]: the default camera, nothing
    rendered yet. *)
Definition demo_world : World unit := {|
  files := [];
  dirs := [ []; ["work"] ];
  cwd := ["work"];
  objects := [demo_camera];
  active := None;
  render := {| r_engine := "BLENDER_EEVEE"; r_file_format := "PNG";
               r_color_mode := "RGBA"; resolution_x := 1920;
               resolution_y := 1080; filepath := "/tmp/" |};
  ops := [];
  stdout := [];
  random := tt
|}.

Definition demo_args : Args :=
  {| object_path := "chair.glb"; output_dir := "objaverse_synthetic";
     engine := "BLENDER_EEVEE"; num_images := 3; camera_dist := 1 |}.

(** The render loop alone, on the fresh session. *)
Definition demo_loop : outcome (gmap string (list Frame)) * World unit :=
  for_each (range 3) (render_frame demo_host demo_args "chair" "Camera")
    no_frames demo_world.

Definition demo_frames : gmap string (list Frame) :=
  match demo_loop.1 with Ok fr => fr | Raise _ => ∅ end.

(** The record the demo loop filed under "val". *)
Definition demo_val_frame : Frame :=
  default {| file_path := ""; transform_matrix := [] |}
          (head (demo_frames !!! "val")).

(** A host that is [demo_host] but for a renderer that fails on the
    second frame. *)
Definition faulty_host : Host (rng := unit) := {|
  randint := randint demo_host;
  sin := sin demo_host;
  cos := cos demo_host;
  pi := pi demo_host;
  radians := radians demo_host;
  elapsed := elapsed demo_host;
  urlretrieve_fault := urlretrieve_fault demo_host;
  imported := imported demo_host;
  render_fault := fun w =>
    if bool_decide (filepath (render w) = "objaverse_synthetic/chair/val/001.png")
    then Some (Exn RuntimeError "Error: Cannot render, no camera") else None;
  export_result := export_result demo_host;
  cam_matrix_world := cam_matrix_world demo_host;
  to_matrix := to_matrix demo_host;
  angle_x := angle_x demo_host;
  fresh_name := fresh_name demo_host;
  joined_box := joined_box demo_host;
  add_lighting := add_lighting demo_host
|}.

(** The fresh session with other objects in it. *)
Definition demo_scene (objs : list Object) : World unit :=
  with_objects objs demo_world.

(** What the importer makes of [pair.glb]: two root cubes ten apart. *)
Definition pair_scene : World unit :=
  demo_scene [cube "Left" (0, 0, 0)%Q; cube "Right" (10, 0, 0)%Q].

(** One cube; and a flat square, whose bounding box has no extent. *)
Definition cube_scene : World unit := demo_scene [cube "Cube" (3, 0, 0)%Q].

Definition flat_scene : World unit :=
  demo_scene
    [{| name := "Dot"; type := MESH; parent := None;
        location := (0, 0, 0)%Q; scale := (1, 1, 1)%Q;
        bb_min := (0, 0, 0)%Q; bb_max := (0, 0, 0)%Q;
        matrix_world := Affine (1, 1, 1)%Q (0, 0, 0)%Q;
        selected := false; linked := true |}].


(** A cube in the scene and a second mesh object that is in
    [bpy.data.objects] but linked to no scene. *)
Definition spare_scene : World unit :=
  demo_scene [cube "Cube" (0, 0, 0)%Q; set_linked false (cube "Spare" (0, 0, 0)%Q)].

(** The largest side of the box around the meshes of a scene. *)
Definition largest_side (w : World unit) : option Q :=
  match scene_bbox None false w with
  | (Ok (bbox_min, bbox_max), _) => Some (vmax (vsub bbox_max bbox_min))
  | _ => None
  end.

(** The state a complete run on [chair.glb] leaves behind. *)
Definition demo_done : World unit :=
  (script demo_host
     ["blender"; "-b"; "-P"; "blender_script.py"; "--";
      "--object_path"; "chair.glb"; "--num_images"; "3"; "--camera_dist"; "1"]
     demo_world).2.

Definition demo_argv (asset images dist : string) : list string :=
  ["blender"; "-b"; "-P"; "blender_script.py"; "--";
   "--object_path"; asset; "--num_images"; images; "--camera_dist"; dist].

(** *** Boxes and spheres *)

(** [a] is nowhere above [b]. *)
Definition vle (a b : vec3) : Prop :=
  (a.1.1 <= b.1.1 /\ a.1.2 <= b.1.2 /\ a.2 <= b.2)%Q.

(** The corner [coord] of [obj] as [scene_bbox] folds it in. *)
Definition corner (ignore_matrix : bool) (obj : Object) (coord : vec3) : vec3 :=
  if ignore_matrix then coord else apply (matrix_world obj) coord.

(** The objects [scene_bbox] loops over. *)
Definition bbox_objects {rng} (single_obj : option Object) (w : World rng)
  : list Object :=
  match single_obj with None => scene_meshes w | Some o => [o] end.

(** The square of the distance of a point from the origin. *)
Definition norm2 (p : vec3) : Q :=
  let '(x, y, z) := p in (x * x + y * y + z * z)%Q.
(** A point inside the running bounds. *)
Definition inbox (b : option (vec3 * vec3)) (p : vec3) : Prop :=
  match b with Some (lo, hi) => vle lo p /\ vle p hi | None => False end.

(** The running bounds are made of coordinates of the points of [S]. *)
Definition attained (b : option (vec3 * vec3)) (S : vec3 -> Prop) : Prop :=
  match b with
  | Some (lo, hi) =>
      forall i, 0 <= i < 3 ->
        (exists p, S p /\ vget lo i = vget p i)
        /\ (exists p, S p /\ vget hi i = vget p i)
  | None => True
  end.


(** [sample_point_on_sphere(radius)].  [random.random] and [math.acos]
    are the host's: [uniform] draws from the generator of the [random]
    module, [theta] first. *)
Definition sample_point_on_sphere {rng} (host : Host (rng := rng))
    (uniform : rng -> Q * rng) (acos : Q -> Q) (radius : Q)
  : M (rng := rng) vec3 :=
  fun w =>
    let (u, g) := uniform (random w) in
    let theta := (u * 2 * pi host)%Q in
    let (v, g') := uniform g in
    let phi := acos (2 * v - 1)%Q in
    (Ok (radius * sin host phi * cos host theta,
         radius * sin host phi * sin host theta,
         radius * cos host phi)%Q,
     with_random g' w).

(** The first round of the render loop on the fresh session. *)
Definition demo_first : outcome (gmap string (list Frame)) * World unit :=
  render_frame demo_host demo_args "chair" "Camera" 0 no_frames demo_world.

Definition demo_first_frames : gmap string (list Frame) :=
  match demo_first.1 with Ok fr => fr | Raise _ => ∅ end.

(** *** What a statement leaves in place *)

(** Everything that exists in [w] still exists in [w']: no file and no
    directory is gone, and the working directory is the same. *)
Definition keeps_files {rng} (w w' : World rng) : Prop :=
  cwd w' = cwd w
  /\ (forall k, is_Some (file_at w k) -> is_Some (file_at w' k))
  /\ (forall k, k ∈ dirs w -> k ∈ dirs w').

(** A statement that removes nothing, however it ends. *)
Definition steady {rng A} (m : M (rng := rng) A) : Prop :=
  forall w r w', m w = (r, w') -> keeps_files w w'.

(** A host that is [demo_host] but cannot reach the network. *)
Definition offline_host : Host (rng := unit) := {|
  randint := randint demo_host;
  sin := sin demo_host;
  cos := cos demo_host;
  pi := pi demo_host;
  radians := radians demo_host;
  elapsed := elapsed demo_host;
  urlretrieve_fault := fun _ _ =>
    Some (Exn OSError "<urlopen error [Errno -2] Name or service not known>");
  imported := imported demo_host;
  render_fault := render_fault demo_host;
  export_result := export_result demo_host;
  cam_matrix_world := cam_matrix_world demo_host;
  to_matrix := to_matrix demo_host;
  angle_x := angle_x demo_host;
  fresh_name := fresh_name demo_host;
  joined_box := joined_box demo_host;
  add_lighting := add_lighting demo_host
|}.

(** The arguments of a run on a remote asset, and the download alone. *)
Definition remote_args : Args :=
  {| object_path := "https://host/models/chair.glb";
     output_dir := "objaverse_synthetic";
     engine := "BLENDER_EEVEE"; num_images := 3; camera_dist := 1 |}.

Definition demo_fetched : outcome string * World unit :=
  download_object demo_host "https://host/models/chair.glb" demo_world.

(** The fresh session with the directory of the asset [pair] made. *)
Definition pair_ready : World unit :=
  (makedirs "objaverse_synthetic/pair" demo_world).2.

End Capturer.

(** * Properties of the Selector *)

Section SelectorFacts.
Import Py Selector.

Example py_strings :
  split "/" "a/b//c" = ["a"; "b"; ""; "c"]
  /\ split_head "." (basename "x/y/a.b.glb") = "a"
  /\ basename "x/y/" = ""
  /\ zfill 3 (str 7) = "007" /\ zfill 3 (str 1234) = "1234"
  /\ zfill 3 (str (-5)) = "-05"
  /\ int " 12 " = Some 12 /\ int "-1_000" = Some (-1000)
  /\ int "1.2" = None /\ int "" = None /\ int "1__0" = None /\ int "_1" = None
  /\ path_join "out" ["a"; "train"; "000.png"] = "out/a/train/000.png"
  /\ path_join "" ["a"] = "a" /\ path_join "out/" ["a"] = "out/a"
  /\ path_join "out" ["/a"] = "/a"
  /\ locate ["home"; "u"] "out//a/./b/../c" = ["home"; "u"; "out"; "a"; "c"]
  /\ locate ["home"; "u"] "/tmp/x" = ["tmp"; "x"]
  /\ dirname "tmp-objects/a.glb.tmp" = "tmp-objects" /\ dirname "/x" = "/"
  /\ dirname "x" = "" /\ dirname "a//b" = "a" /\ dirname "a/b/" = "a/b"
  /\ endswith ".glb" "chair.glb" = true /\ endswith ".glb" "chair.fbx" = false
  /\ startswith "http" "https://host/chair.glb" = true
  /\ range 3 = [0; 1; 2] /\ range (-1) = [].
Proof. vm_compute. repeat split. Qed.

Lemma key_count_nonneg d files : 0 <= key_count d files.
Proof. unfold key_count. lia. Qed.

Lemma key_count_cons d file files :
  key_count d (file :: files) =
  (if decide (split_head "/" file = d) then 1 else 0) + key_count d files.
Proof.
  unfold key_count. rewrite filter_cons.
  destruct (decide (split_head "/" file = d)); simpl; lia.
Qed.

(** The counting loop, started from any dictionary. *)
Lemma count_dir_foldl files : forall (m : gmap string Z) d,
  foldl count_dir m files !! d =
  if decide (key_count d files = 0) then m !! d
  else Some (default 0 (m !! d) + key_count d files).
Proof.
  induction files as [|file files IH]; intros m d.
  - reflexivity.
  - cbn [foldl]. rewrite IH, key_count_cons. unfold count_dir.
    pose proof (key_count_nonneg d files).
    destruct (decide (split_head "/" file = d)) as [->|Hne].
    + rewrite lookup_insert_eq. cbn [default].
      destruct (m !! d) as [c|]; cbn [default];
        repeat case_decide; try lia; f_equal; unfold id; lia.
    + rewrite lookup_insert_ne by done.
      repeat case_decide; try lia; done.
Qed.

Lemma dir_counts_lookup files d :
  dir_counts_of files !! d =
  if decide (key_count d files = 0) then None else Some (key_count d files).
Proof.
  unfold dir_counts_of. rewrite count_dir_foldl, lookup_empty.
  case_decide; [done | f_equal; cbn; lia].
Qed.

Lemma elem_of_get_completed_uids files d :
  d ∈ get_completed_uids files <-> key_count d files = 12.
Proof.
  unfold get_completed_uids. rewrite elem_of_dom. split.
  - intros [c Hc]. apply map_lookup_filter_Some in Hc as [Hc Hp].
    rewrite dir_counts_lookup in Hc. cbn in Hp. case_decide; congruence.
  - intros H. exists 12. apply map_lookup_filter_Some. split; [|done].
    rewrite dir_counts_lookup, H. done.
Qed.


(** ** [sorted(..., reverse=True)] *)

Section SortedFacts.
Context {A : Type} (key : A -> Z).

Lemma insert_desc_perm x l : insert_desc key x l ≡ₚ x :: l.
Proof.
  induction l as [|y l IH]; cbn; [done|].
  destruct (key x <? key y); [|done].
  rewrite IH. apply Permutation_swap.
Qed.

Lemma sorted_reverse_perm l : sorted_reverse key l ≡ₚ l.
Proof.
  induction l as [|x l IH]; cbn; [done|].
  rewrite insert_desc_perm. by f_equiv.
Qed.

Lemma insert_desc_sorted x l :
  StronglySorted (desc key) l -> StronglySorted (desc key) (insert_desc key x l).
Proof.
  induction 1 as [|y l Hs IH Hy]; cbn.
  - repeat constructor.
  - destruct (Z.ltb_spec (key x) (key y)) as [Hlt|Hge].
    + constructor; [done|].
      rewrite Forall_forall in *. intros z Hz.
      rewrite insert_desc_perm in Hz.
      apply elem_of_cons in Hz as [->|Hz]; unfold desc in *; [lia|].
      by apply Hy.
    + constructor; [by constructor|].
      constructor; [done|].
      rewrite Forall_forall in *. intros z Hz.
      specialize (Hy z Hz). unfold desc in *. lia.
Qed.

Lemma sorted_reverse_sorted l : StronglySorted (desc key) (sorted_reverse key l).
Proof.
  induction l as [|x l IH]; cbn; [constructor|].
  by apply insert_desc_sorted.
Qed.

(** Stability: the elements of one key keep their order. *)
Lemma insert_desc_stable k x l :
  filter (fun a => key a = k) (insert_desc key x l) =
  filter (fun a => key a = k) (x :: l).
Proof.
  induction l as [|y l IH]; cbn [insert_desc]; [done|].
  destruct (Z.ltb_spec (key x) (key y)) as [Hlt|Hge]; [|done].
  rewrite filter_cons, IH, !filter_cons.
  repeat case_decide; try done; lia.
Qed.

Lemma sorted_reverse_stable k l :
  filter (fun a => key a = k) (sorted_reverse key l) =
  filter (fun a => key a = k) l.
Proof.
  induction l as [|x l IH]; cbn [sorted_reverse foldr]; [done|].
  rewrite insert_desc_stable, !filter_cons.
  fold (sorted_reverse key l). by rewrite IH.
Qed.

(** A list is determined by its order of keys and the order inside each
    key: the three properties above leave [sorted] no freedom. *)
Lemma sorted_stable_unique l1 : forall l2,
  StronglySorted (desc key) l1 -> StronglySorted (desc key) l2 ->
  (forall k, filter (fun a => key a = k) l1 = filter (fun a => key a = k) l2) ->
  l1 = l2.
Proof.
  induction l1 as [|x l1 IH]; intros l2 H1 H2 Hf.
  - destruct l2 as [|y l2]; [done|].
    specialize (Hf (key y)). rewrite filter_cons in Hf.
    case_decide; [discriminate|done].
  - destruct l2 as [|y l2].
    { specialize (Hf (key x)). rewrite filter_cons in Hf.
      case_decide; [discriminate|done]. }
    apply StronglySorted_inv in H1 as [H1 Hx].
    apply StronglySorted_inv in H2 as [H2 Hy].
    rewrite Forall_forall in Hx, Hy.
    assert (Hxy : key x = key y).
    { pose proof (Hf (key x)) as Hfx. pose proof (Hf (key y)) as Hfy.
      rewrite !filter_cons in Hfx, Hfy.
      destruct (decide (key x = key y)) as [|Hne]; [done|exfalso].
      rewrite (decide_True (P:=key x = key x)) in Hfx by done.
      rewrite (decide_False (P:=key y = key x)) in Hfx by done.
      rewrite (decide_True (P:=key y = key y)) in Hfy by done.
      assert (x ∈ l2) as Hin2.
      { eapply (list_elem_of_filter (fun a => key a = key x)).
        rewrite <- Hfx. left. }
      assert (y ∈ l1) as Hin1.
      { eapply (list_elem_of_filter (fun a => key a = key y)).
        rewrite Hfy. left. }
      specialize (Hx _ Hin1). specialize (Hy _ Hin2).
      unfold desc in *. lia. }
    pose proof (Hf (key x)) as Hfx. rewrite !filter_cons in Hfx.
    rewrite (decide_True (P:=key x = key x)) in Hfx by done.
    rewrite (decide_True (P:=key y = key x)) in Hfx by done.
    injection Hfx as -> Hfx. f_equal.
    apply IH; [done..|]. intros k. specialize (Hf k).
    rewrite !filter_cons in Hf. case_decide; [by injection Hf|done].
Qed.

Lemma insert_desc_ext (key' : A -> Z) x l :
  (forall a, key' a = key a) -> insert_desc key' x l = insert_desc key x l.
Proof.
  intros He. induction l as [|y l IH]; cbn; [done|].
  by rewrite !He, IH.
Qed.

Lemma sorted_reverse_ext (key' : A -> Z) l :
  (forall a, key' a = key a) -> sorted_reverse key' l = sorted_reverse key l.
Proof.
  intros He. induction l as [|x l IH]; cbn; [done|].
  fold (sorted_reverse key' l) (sorted_reverse key l).
  by rewrite IH, (insert_desc_ext key').
Qed.

End SortedFacts.

Lemma adjust_index_nonneg len i :
  0 <= i -> adjust_index len i = Z.min i len.
Proof. intros Hi. unfold adjust_index. destruct (Z.ltb_spec i 0); [lia|done]. Qed.

Lemma slice_head {A} (l : list A) n :
  0 <= n -> slice l 0 n = take (Z.to_nat n) l.
Proof.
  intros Hn. unfold slice. rewrite !adjust_index_nonneg by lia.
  rewrite (Z.min_l 0) by lia. cbn [Z.to_nat]. rewrite drop_0, Z.sub_0_r.
  destruct (Z.le_gt_cases n (Z.of_nat (length l))).
  - by rewrite Z.min_l by lia.
  - rewrite Z.min_r by lia. rewrite Nat2Z.id.
    rewrite !take_ge; [done| lia | lia].
Qed.

Section Claims.
Context {rng : Type} (seed : Z -> rng) (randbelow : nat -> rng -> nat * rng).

(** C7.  With [skip_completed] set, the Selector drops exactly the
    identifiers whose first-path-component prefix holds exactly 12 keys
    of the bucket, and keeps every other identifier, in order: the
    filter of [__main__] is the filter on "the prefix does not hold 12
    keys", an identifier survives iff it was listed and its count is not
    12, and the URLs written are those of the survivors. *)
Theorem skip_completed_drops_twelve (args : Args) (env : Env) :
  skip_completed args = true ->
  let files := bucket_files env in
  (forall uids,
     drop_completed (get_completed_uids files) uids =
     filter (fun uid => key_count uid files <> 12) uids)
  /\ (forall uids uid,
        uid ∈ drop_completed (get_completed_uids files) uids <->
        uid ∈ uids /\ key_count uid files <> 12)
  /\ main seed randbelow args env =
     obind (choose_uids seed randbelow args env) (fun bu =>
       resolve env (filter (fun uid => key_count uid files <> 12) bu.2)).
Proof.
  intros Hskip files.
  assert (Hf : forall uids,
    drop_completed (get_completed_uids files) uids =
    filter (fun uid => key_count uid files <> 12) uids).
  { intros uids. unfold drop_completed.
    apply list_filter_iff. intros uid.
    by rewrite elem_of_get_completed_uids. }
  split; [done|]. split.
  - intros uids uid. rewrite Hf, list_elem_of_filter. tauto.
  - unfold main. rewrite Hskip. fold files.
    destruct (choose_uids seed randbelow args env) as [bu|e]; cbn; [|done].
    by rewrite Hf.
Qed.

(** C3.  When no manifest is loaded, the identifiers are computed by
    seeding the generator with 42, shuffling the whole catalog, slicing
    [start_i:end_i] and keeping the first [n_objects] of the slice
    ranked by [likeCount]: the kept identifiers open a rearrangement of
    the slice that is in descending [likeCount] order and keeps the
    slice's order among equal counts, as many as [n_objects] (or the
    whole slice when it is shorter); and the result is a function of
    the arguments, the catalog and the annotations only, whatever the
    state of the generator, the manifests and the bucket. *)
Theorem recompute_ranked (args : Args) (env : Env) :
  0 <= n_objects args ->
  let pool :=
    slice (shuffle randbelow (catalog env) (seed 42)).1
          (start_i args) (end_i args) in
  let ids := recompute seed randbelow args env in
  (forall ids',
     choose_uids seed randbelow args env = Ok (Recomputed, ids') -> ids' = ids)
  /\ (exists rest,
        (ids ++ rest)%list ≡ₚ pool
        /\ StronglySorted (desc (likeCount env)) (ids ++ rest)%list
        /\ forall k,
             filter (fun u => likeCount env u = k) (ids ++ rest)%list =
             filter (fun u => likeCount env u = k) pool)
  /\ length ids = Nat.min (Z.to_nat (n_objects args)) (length pool)
  /\ (forall env' : Env,
        catalog env' = catalog env ->
        (forall u, likeCount env' u = likeCount env u) ->
        recompute seed randbelow args env' = ids).
Proof.
  intros Hn pool ids.
  assert (Hids : ids = take (Z.to_nat (n_objects args))
                         (sorted_reverse (likeCount env) pool)).
  { unfold ids, recompute. fold pool.
    destruct (shuffle randbelow (catalog env) (seed 42)) as [sh g] eqn:E.
    cbn [fst] in pool. by rewrite slice_head. }
  split; [|split; [|split]].
  - intros ids' H. unfold choose_uids in H.
    destruct (path_exists env (uid_json_path args)) as [[]|]; cbn in H.
    + destruct (json_load env (uid_json_path args)); cbn in H; congruence.
    + by injection H as <-.
    + discriminate.
  - exists (drop (Z.to_nat (n_objects args)) (sorted_reverse (likeCount env) pool)).
    rewrite Hids, take_drop.
    split; [apply sorted_reverse_perm|].
    split; [apply sorted_reverse_sorted|].
    intros k. apply sorted_reverse_stable.
  - rewrite Hids, length_take.
    by rewrite (Permutation_length (sorted_reverse_perm (likeCount env) pool)).
  - intros env' Hc Hl. unfold ids, recompute. rewrite Hc.
    destruct (shuffle randbelow (catalog env) (seed 42)) as [sh g].
    f_equal. by apply sorted_reverse_ext.
Qed.

(** C5.  The three cases of the manifest path.  A path that names an
    existing manifest loads it; a path that names no file takes the
    recompute branch; but with the option not given ([None], the
    declared default) [os.path.exists] raises [TypeError] and the script
    stops before either branch. *)
Theorem uid_json_path_cases (s e n : Z) (skip : bool) (env : Env) :
  let args path :=
    {| start_i := s; end_i := e; n_objects := n;
       skip_completed := skip; uid_json_path := path |} in
  (forall p uids, manifests env !! p = Some uids ->
     choose_uids seed randbelow (args (Some p)) env = Ok (Loaded, uids))
  /\ (forall p, manifests env !! p = None ->
        choose_uids seed randbelow (args (Some p)) env =
        Ok (Recomputed, recompute seed randbelow (args (Some p)) env))
  /\ (exists exc,
        exn_cls exc = TypeError
        /\ choose_uids seed randbelow (args None) env = Raise exc
        /\ main seed randbelow (args None) env = Raise exc).
Proof.
  intros args. split; [|split].
  - intros p uids H. unfold choose_uids, path_exists, json_load. cbn.
    rewrite H. rewrite bool_decide_true by eauto. done.
  - intros p H. unfold choose_uids, path_exists. cbn.
    rewrite H. rewrite bool_decide_false; [done|].
    by intros [? ?].
  - eexists. split; [|split]; [|reflexivity..]. reflexivity.
Qed.

End Claims.

Lemma skip_completed_drops_twelve_witness :
  main (fun _ => tt) demo_randbelow (demo_args true (Some "uids.json")) demo_env
  = Ok ["https://huggingface.co/datasets/allenai/objaverse/resolve/main/glbs/001/c.glb"].
Proof.
  destruct (skip_completed_drops_twelve (fun _ => tt) demo_randbelow
              (demo_args true (Some "uids.json")) demo_env eq_refl)
    as (_ & _ & ->).
  vm_compute. reflexivity.
Defined.

Lemma recompute_ranked_witness :
  length (recompute (fun _ => tt) demo_randbelow
            (demo_args false (Some "none.json")) demo_env) = 3%nat.
Proof.
  destruct (recompute_ranked (fun _ => tt) demo_randbelow
              (demo_args false (Some "none.json")) demo_env
              ltac:(vm_compute; discriminate))
    as (_ & _ & -> & _).
  vm_compute. reflexivity.
Defined.

(** The demo run: shuffled with a generator that always draws 0, the
    catalog [a b c d] becomes [b c d a]; ranked, [b] and [d] (7 likes)
    come first in that order, then [c]. *)
Example recompute_demo :
  recompute (fun _ => tt) demo_randbelow
    (demo_args false (Some "none.json")) demo_env = ["b"; "d"; "c"].
Proof. vm_compute. reflexivity. Qed.

End SelectorFacts.

(** * Paths *)

Section PathFacts.
Import Py.

Lemma string_app_nil_l (s : string) : ("" ++ s)%string = s.
Proof. reflexivity. Qed.

Lemma string_app_cons c (a b : string) :
  (String c a ++ b)%string = String c (a ++ b)%string.
Proof. reflexivity. Qed.

Lemma string_app_assoc (a b c : string) : ((a ++ b) ++ c = a ++ (b ++ c))%string.
Proof.
  induction a as [|x a IH]; [done|].
  by rewrite !string_app_cons, IH.
Qed.

Lemma split_nonempty sep s : split sep s <> [].
Proof.
  destruct s as [|c s]; cbn; [done|].
  destruct (Ascii.eqb c sep); [done|]. by destruct (split sep s).
Qed.

(** Splitting at a separator splits the list of parts. *)
Lemma split_app_sep sep a b :
  split sep (a ++ String sep b) = (split sep a ++ split sep b)%list.
Proof.
  induction a as [|c a IH].
  - rewrite string_app_nil_l. cbn. by rewrite Ascii.eqb_refl.
  - rewrite string_app_cons. cbn.
    destruct (Ascii.eqb c sep); [by rewrite IH|].
    rewrite IH. pose proof (split_nonempty sep a).
    by destruct (split sep a).
Qed.

Lemma split_no_sep sep b : has_char sep b = false -> split sep b = [b].
Proof.
  induction b as [|c b IH]; cbn; [done|].
  intros [Hc Hb]%orb_false_iff. rewrite Hc. by rewrite IH.
Qed.

(** No part holds the separator, and a part holds no character that the
    whole does not. *)
Lemma split_parts sep s x : x ∈ split sep s -> has_char sep x = false.
Proof.
  revert x. induction s as [|c s IH]; cbn; intros x Hx.
  - by apply list_elem_of_singleton in Hx as ->.
  - destruct (Ascii.eqb c sep) eqn:E.
    + apply elem_of_cons in Hx as [->|Hx]; [done|by apply IH].
    + pose proof (split_nonempty sep s).
      destruct (split sep s) as [|h t]; [done|].
      apply elem_of_cons in Hx as [->|Hx].
      * cbn. rewrite E. apply IH. left.
      * apply IH. by right.
Qed.

Lemma split_parts_sub sep c s x :
  x ∈ split sep s -> has_char c x = true -> has_char c s = true.
Proof.
  revert x. induction s as [|d s IH]; cbn; intros x Hx Hc.
  - by apply list_elem_of_singleton in Hx as ->.
  - apply orb_true_iff. destruct (Ascii.eqb d sep) eqn:E.
    + apply elem_of_cons in Hx as [->|Hx]; [done|]. right. by eapply IH.
    + pose proof (split_nonempty sep s).
      destruct (split sep s) as [|h t]; [done|].
      apply elem_of_cons in Hx as [->|Hx].
      * cbn in Hc. apply orb_true_iff in Hc as [Hc|Hc]; [by left|].
        right. eapply IH; [left|done].
      * right. eapply IH; [by right|done].
Qed.

Lemma split_head_in sep s : split_head sep s ∈ split sep s.
Proof.
  unfold split_head. pose proof (split_nonempty sep s).
  destruct (split sep s); [done|]. left.
Qed.

Lemma split_last_in sep s : split_last sep s ∈ split sep s.
Proof.
  unfold split_last. pose proof (split_nonempty sep s).
  destruct (last (split sep s)) as [x|] eqn:E.
  - cbn. apply last_Some in E as [l' ->]. apply elem_of_app. right. left.
  - by apply last_None in E.
Qed.

Lemma endswith_slash s : endswith "/" s = true -> exists s', s = (s' ++ "/")%string.
Proof.
  induction s as [|c s IH]; cbn [endswith]; [done|].
  intros [H|H]%orb_true_iff.
  - apply String.eqb_eq in H as <-. by exists "".
  - destruct (IH H) as [s' ->]. by exists (String c s').
Qed.

Lemma startswith_slash_app a x :
  a <> "" -> startswith "/" (a ++ x) = startswith "/" a.
Proof.
  destruct a as [|c a]; [done|]. intros _. by rewrite string_app_cons.
Qed.

Lemma startswith_slash_no b : has_char "/" b = false -> startswith "/" b = false.
Proof.
  destruct b as [|c b]; [done|]. intros H. cbn [has_char] in H.
  apply orb_false_iff in H as [Hc _].
  change (startswith "/" (String c b)) with (Ascii.eqb "/" c && true).
  by rewrite Ascii.eqb_sym, Hc.
Qed.

(** Joining one plain component to a path steps into it. *)
Lemma locate_join2 cwd a b :
  has_char "/" b = false ->
  locate cwd (join2 a b) = step_into (locate cwd a) b.
Proof.
  intros Hb. unfold join2. rewrite (startswith_slash_no b Hb).
  destruct (String.eqb a "") eqn:Ea.
  - apply String.eqb_eq in Ea as ->. cbn [orb]. rewrite string_app_nil_l.
    unfold locate. rewrite (startswith_slash_no b Hb), (split_no_sep _ b Hb).
    reflexivity.
  - assert (a <> "") as Hne by (by apply String.eqb_neq).
    cbn [orb]. destruct (endswith "/" a) eqn:Ee.
    + destruct (endswith_slash a Ee) as [a' ->].
      unfold locate. rewrite !startswith_slash_app by done.
      rewrite string_app_assoc, string_app_cons, string_app_nil_l.
      change (a' ++ "/")%string with (a' ++ String "/" "")%string.
      rewrite !split_app_sep, (split_no_sep _ b Hb), !foldl_app.
      reflexivity.
    + unfold locate. rewrite startswith_slash_app by done.
      rewrite string_app_cons, string_app_nil_l.
      rewrite split_app_sep, (split_no_sep _ b Hb), foldl_app.
      reflexivity.
Qed.



End PathFacts.

(** * Properties of the Capturer *)

Section CapturerFacts.
Import Py Capturer.
Context {rng : Type} (host : Host (rng := rng)) (args : Args).

(** One round of the render loop that returns: the camera is read once,
    the frame is filed under its own split, the image lands at the
    frame's path, and one render is logged. *)
Lemma render_frame_ok uid cam i fr (w : World rng) fr' w' :
  render_frame host args uid cam i fr w = (Ok fr', w') ->
  (exists p : vec3 * quat,
     fr' = alter (fun l => l ++ [pose_record host (mode_of i) (i, p)])%list (mode_of i) fr)
  /\ files w' =
     (locate (cwd w) (render_path args uid i), Image "PNG" "RGBA") :: files w
  /\ cwd w' = cwd w
  /\ ops w' = (ops w ++ [RenderStill (render_path args uid i)])%list.
Proof.
  unfold render_frame, bind, modify, gets, ret, set_filepath,
    set_output_extension, render_still, view_layer_update.
  cbn. destruct (randint host 35 90 (random w)) as [deg g]. cbn.
  match goal with
  | |- context [render_fault host ?w1] => destruct (render_fault host w1) as [e|]
  end; [discriminate|].
  cbn.
  match goal with
  | |- context [cam_matrix_world host ?w1] =>
      destruct (cam_matrix_world host w1) as [pos rt] eqn:E
  end.
  cbn. intros H. injection H as <- <-. cbn.
  split; [|done].
  exists (pos, rt). reflexivity.
Qed.

Lemma elem_of_range n i : i ∈ range n <-> 0 <= i < n.
Proof.
  unfold range. rewrite list_elem_of_fmap. split.
  - intros (k & -> & Hk). apply elem_of_seq in Hk. lia.
  - intros Hi. exists (Z.to_nat i). split; [lia|].
    apply elem_of_seq. lia.
Qed.

(** The render loop over any list of indices, from any dictionary. *)
Lemma render_loop_ok uid cam l : forall fr (w : World rng) fr' w',
  for_each l (render_frame host args uid cam) fr w = (Ok fr', w') ->
  exists poses : list (vec3 * quat),
    length poses = length l
    /\ (forall mode,
          fr' !! mode =
          (fun l0 => l0 ++ map (pose_record host mode)
                            (filter (fun ip => mode_of ip.1 = mode) (zip l poses)))%list
            <$> fr !! mode)
    /\ cwd w' = cwd w
    /\ ops w' = (ops w ++ map (fun i => RenderStill (render_path args uid i)) l)%list
    /\ (forall k, file_at w k = Some (Image "PNG" "RGBA") ->
                  file_at w' k = Some (Image "PNG" "RGBA"))
    /\ (forall i, i ∈ l ->
          file_at w' (locate (cwd w) (render_path args uid i))
          = Some (Image "PNG" "RGBA")).
Proof.
  induction l as [|i l IH]; intros fr w fr' w' H.
  - injection H as <- <-. exists []. repeat split; try done.
    + intros mode. destruct (fr !! mode); cbn; [|done].
      by rewrite app_nil_r.
    + by rewrite app_nil_r.
    + intros i Hi. by apply elem_of_nil in Hi.
  - cbn [for_each] in H. unfold bind at 1 in H.
    destruct (render_frame host args uid cam i fr w) as [[fr1|e] w1] eqn:E1;
      [|discriminate].
    apply render_frame_ok in E1 as ([p ->] & Hf1 & Hc1 & Ho1).
    apply IH in H as (poses & Hlen & Hfr & Hc & Ho & Hkeep & Hnew).
    exists (p :: poses). split; [cbn; lia|]. split; [|split; [|split; [|split]]].
    + intros mode. rewrite Hfr, lookup_alter. cbn [zip zip_with].
      rewrite filter_cons. cbn [fst].
      destruct (decide (mode_of i = mode)) as [->|Hne].
      * destruct (fr !! mode); cbn; [|done].
        by rewrite <- app_assoc.
      * done.
    + congruence.
    + rewrite Ho, Ho1. cbn [map]. by rewrite <- app_assoc.
    + intros k Hk. apply Hkeep. unfold file_at in *. rewrite Hf1. cbn.
      by case_decide.
    + intros j Hj. apply elem_of_cons in Hj as [->|Hj].
      * apply Hkeep. unfold file_at. rewrite Hf1. cbn.
        by rewrite decide_True.
      * rewrite <- Hc1. by apply Hnew.
Qed.

Lemma mode_of_cases i :
  mode_of i = "test" \/ mode_of i = "val" \/ mode_of i = "train".
Proof. unfold mode_of. repeat case_match; auto. Qed.

Lemma no_frames_lookup mode :
  mode ∈ ["train"; "val"; "test"] -> no_frames !! mode = Some [].
Proof.
  intros H. repeat (apply elem_of_cons in H as [->|H]); try done.
  by apply elem_of_nil in H.
Qed.

Lemma no_frames_values mode l0 : no_frames !! mode = Some l0 -> l0 = [].
Proof.
  unfold no_frames. intros E.
  apply lookup_insert_Some in E as [[_ <-]|[_ E]]; [done|].
  apply lookup_insert_Some in E as [[_ <-]|[_ E]]; [done|].
  by apply lookup_singleton_Some in E as [_ <-].
Qed.

(** A split's name can be read off the label of a record. *)
Lemma label_split m1 m2 x y :
  m1 ∈ ["train"; "val"; "test"] -> m2 ∈ ["train"; "val"; "test"] ->
  (m1 ++ "/" ++ x = m2 ++ "/" ++ y)%string -> m1 = m2.
Proof.
  intros H1 H2 E.
  repeat (apply elem_of_cons in H1 as [->|H1]);
    repeat (apply elem_of_cons in H2 as [->|H2]);
    try (by apply elem_of_nil in H1); try (by apply elem_of_nil in H2);
    done.
Qed.

(** C1.  In the render loop, frame [i] of [range(num_images)] goes to
    the split "test" when [i mod 3 = 2], "val" when [i mod 3 = 1] and
    "train" otherwise.  When the loop returns, the image of every frame
    is in the file system at [output_dir/uid/<its split>/NNN.png], the
    list of each split holds the pose records of exactly the frames of
    that split, in order, and the label [<split>/NNN] of a frame occurs
    in the list of a split only if that split is the frame's. *)
Theorem frames_assigned_round_robin uid cam (w : World rng) fr' w' :
  for_each (range (num_images args)) (render_frame host args uid cam) no_frames w
    = (Ok fr', w') ->
  (forall i, 0 <= i < num_images args ->
     mode_of i = (if i mod 3 =? 2 then "test" else if i mod 3 =? 1 then "val" else "train")
     /\ file_at w'
          (locate (cwd w')
             (path_join (output_dir args) [uid; mode_of i; zfill 3 (str i) ++ ".png"]))
        = Some (Image "PNG" "RGBA"))
  /\ exists poses : list (vec3 * quat),
       length poses = length (range (num_images args))
       /\ forall mode, mode ∈ ["train"; "val"; "test"] ->
            fr' !! mode =
            Some (map (pose_record host mode)
                    (filter (fun ip => mode_of ip.1 = mode)
                            (zip (range (num_images args)) poses)))
            /\ forall ip, ip ∈ zip (range (num_images args)) poses ->
                 (exists fr, fr ∈ fr' !!! mode
                    /\ file_path fr = mode_of ip.1 ++ "/" ++ zfill 3 (str ip.1))
                 <-> mode = mode_of ip.1.
Proof.
  intros H. apply render_loop_ok in H as (poses & Hlen & Hfr & Hc & _ & _ & Hnew).
  split.
  - intros i Hi. split; [done|]. rewrite Hc. apply Hnew. by apply elem_of_range.
  - exists poses. split; [done|]. intros mode Hmode.
    assert (Hl : fr' !! mode =
      Some (map (pose_record host mode)
              (filter (fun ip => mode_of ip.1 = mode)
                      (zip (range (num_images args)) poses)))).
    { by rewrite Hfr, no_frames_lookup. }
    split; [done|]. intros ip Hip.
    rewrite lookup_total_alt, Hl. cbn [default from_option id]. split.
    + intros (fr & Hin & Hlab).
      apply list_elem_of_fmap in Hin as (jp & -> & Hjp).
      apply list_elem_of_filter in Hjp as [Hj _].
      eapply label_split; [done| |exact Hlab].
      destruct (mode_of_cases ip.1) as [-> | [-> | ->]]; repeat constructor.
    + intros ->. exists (pose_record host (mode_of ip.1) ip). split; [|done].
      apply list_elem_of_fmap. exists ip. split; [done|].
      by apply list_elem_of_filter.
Qed.

(** The identifier derived from a file name is one plain path
    component: it holds neither a slash nor a dot. *)
Lemma object_uid_plain object_file :
  has_char "/" (object_uid_of object_file) = false
  /\ has_char "." (object_uid_of object_file) = false.
Proof.
  unfold object_uid_of, basename. split.
  - destruct (has_char "/" (split_head "." (split_last "/" object_file))) eqn:E;
      [|done].
    apply (split_parts_sub "." "/" _ _ (split_head_in _ _)) in E.
    by rewrite (split_parts "/" _ _ (split_last_in _ _)) in E.
  - apply (split_parts "." _ _ (split_head_in _ _)).
Qed.




Lemma filter_none {A} (P : A -> Prop) `{forall x, Decision (P x)} (l : list A) :
  (forall x, x ∈ l -> ~ P x) -> filter P l = [].
Proof.
  induction l as [|x l IH]; intros Hl; [done|].
  rewrite filter_cons_False by (apply Hl; left).
  apply IH. intros y Hy. apply Hl. by right.
Qed.




(** Without a mesh in the scene [scene_bbox], and with it
    [normalize_scene], raise the [RuntimeError]. *)
Lemma normalize_scene_no_mesh scale_ (w : World rng) :
  scene_meshes w = [] ->
  scene_bbox None false w
  = (Raise (Exn RuntimeError "no objects in scene to compute bounding box for"), w)
  /\ normalize_scene scale_ w
     = (Raise (Exn RuntimeError "no objects in scene to compute bounding box for"), w).
Proof.
  intros H.
  assert (scene_bbox None false w
    = (Raise (Exn RuntimeError "no objects in scene to compute bounding box for"), w))
    as Hb by (unfold scene_bbox; by rewrite H).
  split; [done|]. unfold normalize_scene, bind. by rewrite Hb.
Qed.

(** ** [join_meshes] *)

Lemma filter_by_name (l : list Object) a :
  NoDup (map name l) -> a ∈ l -> filter (fun o => name o = name a) l = [a].
Proof.
  induction l as [|x l IH]; cbn [map]; intros Hnd Ha;
    [by apply elem_of_nil in Ha|].
  apply NoDup_cons in Hnd as [Hx Hnd]. rewrite filter_cons.
  apply elem_of_cons in Ha as [->|Ha].
  - rewrite decide_True by done. f_equal.
    apply filter_none. intros y Hy E. apply Hx. rewrite <- E.
    apply list_elem_of_fmap. eauto.
  - rewrite decide_False; [by apply IH|].
    intros E. apply Hx. rewrite E. apply list_elem_of_fmap. eauto.
Qed.

(** The loop of [join_meshes] selects every object that bears the name
    of one of the meshes and leaves the last mesh active. *)
Lemma select_loop_ok (l : list Object) : forall (w : World rng),
  for_each l
    (fun mesh (_ : unit) =>
       select_set (name mesh) ;; modify (with_active (Some (name mesh))))
    tt w
  = (Ok tt,
     with_active (from_option (fun m => Some (name m)) (active w) (last l))
       (with_objects
          (map (fun o => if bool_decide (name o ∈ map name l)
                         then set_selected true o else o)
               (objects w)) w)).
Proof.
  induction l as [|m l IH]; intros w.
  - cbn [for_each last from_option map]. unfold ret. f_equal.
    assert (map (fun o => if bool_decide (name o ∈ @nil string)
                          then set_selected true o else o) (objects w)
            = objects w) as ->.
    { rewrite <- (map_id (objects w)) at 2. apply map_ext. intros o.
      rewrite bool_decide_false; [done|apply not_elem_of_nil]. }
    by destruct w.
  - cbn [for_each]. unfold bind at 1.
    unfold select_set, bind, modify. rewrite IH. f_equal.
    destruct w. unfold with_active, with_objects, update_object. cbn. f_equal.
    + rewrite map_map. apply map_ext. intros o.
      destruct (String.eqb_spec (name o) (name m)) as [E|E];
        cbn [name set_selected];
        repeat case_bool_decide; try (by destruct o);
        exfalso;
        repeat match goal with
               | H : _ ∈ _ :: _ |- _ => apply elem_of_cons in H as [H|H]
               | H : ~ _ ∈ _ :: _ |- _ => apply not_elem_of_cons in H as [? ?]
               end; congruence.
    + destruct l as [|m' l]; [done|]. rewrite last_cons_cons.
      destruct (last (m' :: l)) eqn:E; [done|by apply last_None in E].
Qed.

Lemma filter_map_commute {A B} (f : A -> B) (P : B -> Prop)
    `{forall y, Decision (P y)} (l : list A) :
  filter P (map f l) = map f (filter (fun x => P (f x)) l).
Proof.
  induction l as [|x l IH]; cbn [map]; [done|].
  rewrite !filter_cons, IH. by case_decide.
Qed.

Lemma filter_ext_in {A} (P Q : A -> Prop)
    `{forall x, Decision (P x)} `{forall x, Decision (Q x)} (l : list A) :
  (forall x, x ∈ l -> P x <-> Q x) -> filter P l = filter Q l.
Proof.
  induction l as [|x l IH]; intros Hl; [done|].
  rewrite !filter_cons, IH by (intros y Hy; apply Hl; by right).
  pose proof (Hl x ltac:(left)). repeat case_decide; tauto.
Qed.

(** Objects are keyed by their names. *)
Lemma name_is_key (l : list Object) a b :
  NoDup (map name l) -> a ∈ l -> b ∈ l -> name a = name b -> a = b.
Proof.
  induction l as [|x l IH]; cbn [map]; intros Hnd Ha Hb E;
    [by apply elem_of_nil in Ha|].
  apply NoDup_cons in Hnd as [Hx Hnd].
  apply elem_of_cons in Ha as [->|Ha]; apply elem_of_cons in Hb as [->|Hb].
  - done.
  - exfalso. apply Hx. rewrite E. apply list_elem_of_fmap. eauto.
  - exfalso. apply Hx. rewrite <- E. apply list_elem_of_fmap. eauto.
  - by apply IH.
Qed.

Lemma deselected_facts (o : Object) :
  name (deselected o) = name o /\ type (deselected o) = type o
  /\ linked (deselected o) = linked o.
Proof. by destruct o as [? ? ? ? ? ? ? ? ? []]. Qed.

Lemma scene_meshes_deselected (w : World rng) :
  scene_meshes (deselect_all w)
  = map deselected (scene_meshes w).
Proof.
  unfold scene_meshes, scene_objects, deselect_all.
  cbn [objects logged with_objects].
  rewrite !filter_map_commute. f_equal.
  rewrite !list_filter_filter. apply filter_ext_in. intros o _.
  destruct (deselected_facts o) as (_ & -> & ->). done.
Qed.

(** [object_join] with an active, selected mesh. *)
Lemma object_join_ok (w : World rng) n act :
  active w = Some n ->
  find_object (scene_objects w) n = Some act ->
  type act = MESH -> selected act = true ->
  object_join host w
  = (Ok tt,
     with_objects
       (map (fun o => if String.eqb (name o) (name act)
                      then set_bounds (joined_box host (logged Join w)) o else o)
          (filter (fun o => name o = name act
                            \/ ~ (type o = MESH /\ selected o = true /\ linked o = true))
                  (objects w)))
       (logged Join w)).
Proof.
  intros Ha Hf Ht Hs. unfold object_join. rewrite Ha. cbn [mbind option_bind].
  rewrite Hf, bool_decide_true by done. by rewrite Hs.
Qed.


Lemma keeps_map (f : Object -> Object) (l l0 : list Object) :
  (forall o, name (f o) = name o /\ type (f o) = type o
             /\ linked (f o) = linked o) ->
  (exists g, l = map g l0
             /\ forall o, name (g o) = name o /\ type (g o) = type o
                          /\ linked (g o) = linked o) ->
  exists g, map f l = map g l0
            /\ forall o, name (g o) = name o /\ type (g o) = type o
                         /\ linked (g o) = linked o.
Proof.
  intros Hf (g & -> & Hg). exists (fun o => f (g o)).
  split; [by rewrite map_map|].
  intros o. destruct (Hf (g o)) as (-> & -> & ->). apply Hg.
Qed.

(** [normalize_scene] rewrites transforms and selection only: objects
    keep their names, types and links. *)
Lemma normalize_scene_keeps scale_ (w w' : World rng) :
  normalize_scene scale_ w = (Ok tt, w') ->
  exists f : Object -> Object,
    objects w' = map f (objects w)
    /\ forall o, name (f o) = name o /\ type (f o) = type o
                 /\ linked (f o) = linked o.
Proof.
  unfold normalize_scene, bind, scene_bbox, view_layer_update,
    select_all_deselect, raise, modify, deselect_all, shift_roots, refresh,
    scale_roots.
  destruct (foldl (grow_object false) None (scene_meshes w))
    as [[bbox_min bbox_max]|]; [|discriminate].
  destruct (Qeq_bool _ _); [discriminate|]. cbv beta iota.
  match goal with
  | |- context [foldl (grow_object false) None (scene_meshes ?w1)] =>
      destruct (foldl (grow_object false) None (scene_meshes w1))
        as [[bbox_min' bbox_max']|]; [|discriminate]
  end.
  intros H. injection H as <-. cbn [objects logged with_objects].
  do 4 (apply keeps_map;
        [intros [n t p l s b0 b1 m sel lk];
         unfold deselected, shifted, refreshed, scaled; cbn [linked parent];
         repeat case_match; done|]).
  exists (fun o => o). by rewrite map_id.
Qed.

(** Where [export_mesh] calls [join_meshes], every object was just
    imported, so all of them are linked to the scene, and the scene has
    a mesh, [normalize_scene] having found one. *)
Lemma export_mesh_reaches_join object_file (w w1 : World rng) :
  (modify (fun w => with_active None (with_objects [] w)) ;;
   load_object host object_file ;;
   normalize_scene (5 # 2)) w = (Ok tt, w1) ->
  (forall o, o ∈ objects w1 -> linked o = true)
  /\ scene_meshes w1 <> [].
Proof.
  unfold bind at 1. unfold modify at 1. unfold bind at 1.
  destruct (load_object host object_file _) as [[[]|e] w0] eqn:Hload;
    [|discriminate].
  intros Hnorm.
  assert (Hall : forall o, o ∈ objects w0 -> linked o = true).
  { unfold load_object, import_scene, raise in Hload.
    repeat case_match; try discriminate;
      injection Hload as <-; cbn [objects logged with_objects with_active];
      intros o Ho; apply list_elem_of_fmap in Ho as (o0 & -> & _);
      reflexivity. }
  assert (Hmesh : scene_meshes w0 <> []).
  { intros E. destruct (normalize_scene_no_mesh (5 # 2) w0 E) as [_ Hr].
    congruence. }
  destruct (normalize_scene_keeps _ _ _ Hnorm) as (f & Hobjs & Hf).
  split.
  - intros o Ho. rewrite Hobjs in Ho.
    apply list_elem_of_fmap in Ho as (o0 & -> & Ho0).
    destruct (Hf o0) as (_ & _ & ->). by apply Hall.
  - unfold scene_meshes, scene_objects in *. rewrite Hobjs.
    rewrite !filter_map_commute. intros E. apply fmap_nil_inv in E.
    apply Hmesh. rewrite list_filter_filter in *.
    erewrite filter_ext_in; [exact E|].
    intros o _. destruct (Hf o) as (_ & -> & ->). done.
Qed.

(** C8.  Every pose record has a 4x4 matrix in rows: the camera's
    rotation with the camera position as fourth column in the first
    three rows, and [0, 0, 0, 1] as the last row.  This holds of
    [get_frame_poses] for every position, rotation, frame index and
    split, and so of every record the render loop files under any
    split. *)
Theorem pose_matrix_is_homogeneous :
  (forall pos rt i mode,
     let m := transform_matrix (get_frame_poses host pos rt i mode) in
     m = rigid_rows (to_matrix host rt) pos
     /\ length m = 4%nat
     /\ Forall (fun row => length row = 4%nat) m
     /\ last m = Some [0; 0; 0; 1]%Q)
  /\ (forall uid cam (w : World rng) fr' w',
        for_each (range (num_images args)) (render_frame host args uid cam)
          no_frames w = (Ok fr', w') ->
        forall mode fr, fr ∈ fr' !!! mode ->
          (exists pos rt, transform_matrix fr = rigid_rows (to_matrix host rt) pos)
          /\ last (transform_matrix fr) = Some [0; 0; 0; 1]%Q).
Proof.
  assert (Hone : forall pos rt i mode,
    transform_matrix (get_frame_poses host pos rt i mode)
    = rigid_rows (to_matrix host rt) pos).
  { intros [[px py] pz] rt i mode. unfold get_frame_poses, rigid_rows.
    destruct (to_matrix host rt) as [[[[a b] c] [[d e] f]] [[g h] k]].
    reflexivity. }
  assert (Hlast : forall r pos, last (rigid_rows r pos) = Some [0; 0; 0; 1]%Q).
  { intros [[[[a b] c] [[d e] f]] [[g h] k]] [[px py] pz]. reflexivity. }
  split.
  - intros pos rt i mode m. unfold m. rewrite Hone. split; [done|].
    destruct (to_matrix host rt) as [[[[a b] c] [[d e] f]] [[g h] k]].
    destruct pos as [[px py] pz]. cbn. repeat split; repeat constructor.
  - intros uid cam w fr' w' H mode fr Hin.
    apply render_loop_ok in H as (poses & _ & Hfr & _).
    rewrite lookup_total_alt, Hfr in Hin.
    destruct (no_frames !! mode) as [l0|] eqn:E; cbn in Hin;
      [|by apply elem_of_nil in Hin].
    apply no_frames_values in E as ->.
    cbn in Hin. apply list_elem_of_fmap in Hin as ([j [pos rt]] & -> & _).
    unfold pose_record. cbn [fst snd]. rewrite Hone. split; [eauto|apply Hlast].
Qed.

(** C9.  Whatever exception of class [Exception] the body of the [try]
    raises, at whichever stage, [__main__] returns normally; it prints
    "Failed to render" with the asset reference and then the message of
    the exception; and it does nothing else: the files, the directories,
    the scene and the log of operator calls are as the failure left
    them (nothing is run again, nothing is cleaned up). *)
Theorem failures_are_caught_and_logged (w : World rng) (e : exn) (w1 : World rng) :
  attempt host args w = (Raise e, w1) ->
  is_Exception e = true ->
  exists w',
    main host args w = (Ok tt, w')
    /\ stdout w' =
       (stdout w1 ++ [("Failed to render " ++ object_path args)%string; exn_msg e])%list
    /\ files w' = files w1 /\ dirs w' = dirs w1 /\ cwd w' = cwd w1
    /\ objects w' = objects w1 /\ active w' = active w1
    /\ render w' = render w1 /\ ops w' = ops w1.
Proof.
  intros H He. unfold main. rewrite H, He.
  eexists. split; [reflexivity|]. cbn.
  rewrite <- app_assoc. by repeat split.
Qed.

End CapturerFacts.

(** ** [normalize_scene] on a hierarchy

    Scaling the roots scales the whole scene about a point only when the
    roots share their origin; the lemmas below follow a change of the
    roots' matrices down the hierarchy and into the box of
    [scene_bbox]. *)

Section NormalizeFacts.
Import Py Capturer.
Context {rng : Type}.
















Lemma scaled_facts k (o : Object) :
  name (scaled k o) = name o /\ parent (scaled k o) = parent o
  /\ type (scaled k o) = type o /\ linked (scaled k o) = linked o
  /\ bb_min (scaled k o) = bb_min o /\ bb_max (scaled k o) = bb_max o.
Proof. unfold scaled. by case_bool_decide. Qed.

Lemma shifted_facts c (o : Object) :
  name (shifted c o) = name o /\ parent (shifted c o) = parent o
  /\ type (shifted c o) = type o /\ linked (shifted c o) = linked o
  /\ bb_min (shifted c o) = bb_min o /\ bb_max (shifted c o) = bb_max o.
Proof. unfold shifted. by case_bool_decide. Qed.

Lemma refreshed_facts objs (o : Object) :
  name (refreshed objs o) = name o /\ parent (refreshed objs o) = parent o
  /\ type (refreshed objs o) = type o /\ linked (refreshed objs o) = linked o
  /\ bb_min (refreshed objs o) = bb_min o /\ bb_max (refreshed objs o) = bb_max o
  /\ own (refreshed objs o) = own o.
Proof. unfold refreshed. by destruct (linked o) eqn:E. Qed.

Lemma deselected_more (o : Object) :
  parent (deselected o) = parent o
  /\ bb_min (deselected o) = bb_min o /\ bb_max (deselected o) = bb_max o
  /\ own (deselected o) = own o /\ matrix_world (deselected o) = matrix_world o.
Proof. unfold deselected. by destruct (linked o). Qed.










End NormalizeFacts.

Section CapturerRuns.
Import Py Capturer.

Lemma demo_loop_returns :
  for_each (range (num_images demo_args))
    (render_frame demo_host demo_args "chair" "Camera") no_frames demo_world
  = (Ok demo_frames, demo_loop.2).
Proof. vm_compute. reflexivity. Qed.

Lemma frames_assigned_round_robin_witness :
  file_at demo_loop.2
    (locate (cwd demo_loop.2)
       (path_join (output_dir demo_args)
          ["chair"; mode_of 1; zfill 3 (str 1) ++ ".png"]))
  = Some (Image "PNG" "RGBA").
Proof.
  exact (proj2 (proj1 (frames_assigned_round_robin demo_host demo_args
                         "chair" "Camera" demo_world demo_frames demo_loop.2
                         demo_loop_returns)
                  1 (conj (Z.le_0_1) eq_refl))).
Defined.

(** The three frames of the demo loop, where they landed. *)
Example demo_loop_files :
  file_at demo_loop.2 ["work"; "objaverse_synthetic"; "chair"; "train"; "000.png"]
    = Some (Image "PNG" "RGBA")
  /\ file_at demo_loop.2 ["work"; "objaverse_synthetic"; "chair"; "val"; "001.png"]
    = Some (Image "PNG" "RGBA")
  /\ file_at demo_loop.2 ["work"; "objaverse_synthetic"; "chair"; "test"; "002.png"]
    = Some (Image "PNG" "RGBA")
  /\ map file_path (demo_frames !!! "train") = ["train/000"]
  /\ map file_path (demo_frames !!! "val") = ["val/001"]
  /\ map file_path (demo_frames !!! "test") = ["test/002"].
Proof. vm_compute. repeat split. Qed.

Lemma demo_val_frame_filed : demo_val_frame ∈ demo_frames !!! "val".
Proof.
  assert (demo_frames !!! "val" = [demo_val_frame]) as ->
    by (vm_compute; reflexivity).
  left.
Qed.

Lemma pose_matrix_is_homogeneous_witness :
  last (transform_matrix demo_val_frame) = Some [0; 0; 0; 1]%Q.
Proof.
  exact (proj2 (proj2 (pose_matrix_is_homogeneous demo_host demo_args)
                  "chair" "Camera" demo_world demo_frames demo_loop.2
                  demo_loop_returns "val" demo_val_frame demo_val_frame_filed)).
Defined.

Lemma faulty_attempt_raises :
  attempt faulty_host demo_args demo_world
  = (Raise (Exn RuntimeError "Error: Cannot render, no camera"),
     (attempt faulty_host demo_args demo_world).2).
Proof. vm_compute. reflexivity. Qed.

Lemma failures_are_caught_and_logged_witness :
  exists w',
    main faulty_host demo_args demo_world = (Ok tt, w')
    /\ stdout w' =
       (stdout (attempt faulty_host demo_args demo_world).2
        ++ [("Failed to render " ++ object_path demo_args)%string;
            exn_msg (Exn RuntimeError "Error: Cannot render, no camera")])%list.
Proof.
  destruct (failures_are_caught_and_logged faulty_host demo_args demo_world
              (Exn RuntimeError "Error: Cannot render, no camera")
              (attempt faulty_host demo_args demo_world).2
              faulty_attempt_raises eq_refl)
    as (w' & Hmain & Hout & _).
  exists w'. split; [exact Hmain | exact Hout].
Defined.

(** The failed run returns, logs the failure, and leaves what it had
    made: the first frame is on disk, no manifest is, and the renderer
    was called twice and not again. *)
Example failed_run_keeps_partial_output :
  let r := main faulty_host demo_args demo_world in
  r.1 = Ok tt
  /\ stdout r.2 = ["Failed to render chair.glb"; "Error: Cannot render, no camera"]
  /\ file_at r.2 ["work"; "objaverse_synthetic"; "chair"; "train"; "000.png"]
     = Some (Image "PNG" "RGBA")
  /\ file_at r.2 ["work"; "objaverse_synthetic"; "chair"; "transforms_train.json"]
     = None
  /\ ops r.2 = [ImportGltf "chair.glb"; SelectAll;
                RenderStill "objaverse_synthetic/chair/train/000.png";
                RenderStill "objaverse_synthetic/chair/val/001.png"].
Proof. vm_compute. repeat split. Qed.

(** C6.  [--camera_dist] is declared [type=int]: the value [1.2] is
    no integer literal, so the parser rejects the command line of the
    scenario with a usage error and the script stops, on any host and in
    any state, before anything is rendered. *)
Theorem camera_dist_rejects_fraction :
  int "1.2" = None
  /\ parse_args ["--object_path"; "chair.glb"; "--num_images"; "3";
                 "--camera_dist"; "1.2"]
     = Raise (usage_error "argument --camera_dist: invalid int value: 1.2")
  /\ forall (rng : Type) (host : Host (rng := rng)) (w : World rng),
       script host (demo_argv "chair.glb" "3" "1.2") w
       = (Raise (usage_error "argument --camera_dist: invalid int value: 1.2"), w).
Proof. repeat split. Qed.

(** With an integer distance the scenario runs as the specification
    tells it: three images, one per split, three manifests of one frame
    each, and the mesh. *)
Example chair_scenario_integer_distance :
  let r := script demo_host (demo_argv "chair.glb" "3" "1") demo_world in
  let at_ name := file_at r.2 (["work"; "objaverse_synthetic"; "chair"] ++ name)%list in
  let labels f := match f with
                  | Some (Json doc) => Some (map file_path (frames doc))
                  | _ => None
                  end in
  r.1 = Ok tt
  /\ at_ ["train"; "000.png"] = Some (Image "PNG" "RGBA")
  /\ at_ ["val"; "001.png"] = Some (Image "PNG" "RGBA")
  /\ at_ ["test"; "002.png"] = Some (Image "PNG" "RGBA")
  /\ labels (at_ ["transforms_train.json"]) = Some ["train/000"]
  /\ labels (at_ ["transforms_val.json"]) = Some ["val/001"]
  /\ labels (at_ ["transforms_test.json"]) = Some ["test/002"]
  /\ at_ ["mesh.obj"] = Some (Wavefront "o mesh")
  /\ stdout r.2 = ["Finished chair.glb in 1.0 seconds"].
Proof. vm_compute. repeat split. Qed.

(** A remote asset is fetched to [tmp-objects], rendered under the
    identifier of its file name, and removed. *)
Example remote_asset_run :
  let r := script demo_host (demo_argv "https://host/models/chair.glb" "3" "1")
             demo_world in
  r.1 = Ok tt
  /\ file_at r.2 ["work"; "tmp-objects"; "chair.glb"] = None
  /\ is_dir r.2 ["work"; "tmp-objects"] = true
  /\ file_at r.2 ["work"; "objaverse_synthetic"; "chair"; "val"; "001.png"]
     = Some (Image "PNG" "RGBA")
  /\ stdout r.2 = ["Finished /work/tmp-objects/chair.glb in 1.0 seconds"].
Proof. vm_compute. repeat split. Qed.

(** An asset of another format is refused by [load_object]; the failure
    is caught and logged. *)
Example unsupported_format_is_logged :
  let r := script demo_host (demo_argv "chair.obj" "3" "1") demo_world in
  r.1 = Ok tt
  /\ stdout r.2 = ["Failed to render chair.obj"; "Unsupported file type: chair.obj"]
  /\ ops r.2 = [].
Proof. vm_compute. repeat split. Qed.

(** With no image to render no directory is made for the asset, and the
    first manifest cannot be written. *)
Example no_images_no_manifest :
  let r := script demo_host (demo_argv "chair.glb" "0" "1") demo_world in
  r.1 = Ok tt
  /\ stdout r.2 =
     ["Failed to render chair.glb";
      "No such file or directory: objaverse_synthetic/chair/transforms_train.json"].
Proof. vm_compute. repeat split. Qed.




(** The script run a second time: it returns, calls no operator, and
    leaves the files as they are. *)
Example second_run_changes_nothing :
  let r := script demo_host (demo_argv "chair.glb" "3" "1") demo_done in
  r.1 = Ok tt
  /\ files r.2 = files demo_done /\ dirs r.2 = dirs demo_done
  /\ objects r.2 = objects demo_done /\ ops r.2 = ops demo_done
  /\ stdout r.2 = (stdout demo_done ++ ["Finished chair.glb in 1.0 seconds"])%list.
Proof. vm_compute. repeat split. Qed.

(** The identifier is the base name up to its first dot. *)
Example derived_identifiers :
  object_uid_of "assets/chair.glb" = "chair"
  /\ object_uid_of "assets/my.chair.glb" = "my"
  /\ train_manifest demo_args "assets/chair.glb"
     = "objaverse_synthetic/chair/transforms_train.json".
Proof. vm_compute. repeat split. Qed.

(** C2.  [normalize_scene(2.5)] on the scene of two root cubes ten units
    apart returns, and the box around the meshes is then centred at the
    origin but its largest side is 225/22, not 5/2: each root is scaled
    about its own origin, and the origins stay ten apart. *)
Theorem normalize_scene_two_roots :
  exists w' bbox_min bbox_max,
    normalize_scene (5 # 2) pair_scene = (Ok tt, w')
    /\ scene_bbox None false w' = (Ok (bbox_min, bbox_max), w')
    /\ vmax (vsub bbox_max bbox_min) == 225 # 22
    /\ ~ vmax (vsub bbox_max bbox_min) == 5 # 2
    /\ vget (vadd bbox_min bbox_max) 0 == 0
    /\ vget (vadd bbox_min bbox_max) 1 == 0
    /\ vget (vadd bbox_min bbox_max) 2 == 0.
Proof.
  eexists _, _, _. split; [vm_compute; reflexivity|].
  split; [vm_compute; reflexivity|].
  vm_compute. repeat split; congruence.
Qed.

(** On one root the same call does what it says. *)
Example normalize_scene_one_root :
  exists w' bbox_min bbox_max,
    normalize_scene (5 # 2) cube_scene = (Ok tt, w')
    /\ scene_bbox None false w' = (Ok (bbox_min, bbox_max), w')
    /\ vmax (vsub bbox_max bbox_min) == 5 # 2
    /\ vget (vadd bbox_min bbox_max) 0 == 0
    /\ vget (vadd bbox_min bbox_max) 1 == 0
    /\ vget (vadd bbox_min bbox_max) 2 == 0.
Proof.
  eexists _, _, _. split; [vm_compute; reflexivity|].
  split; [vm_compute; reflexivity|].
  vm_compute. repeat split; congruence.
Qed.





(** A box with no extent makes the division fail. *)
Example normalize_scene_flat :
  normalize_scene (5 # 2) flat_scene
  = (Raise (Exn ZeroDivisionError "float division by zero"), flat_scene).
Proof. vm_compute. reflexivity. Qed.





(** The two cubes of [pair_scene] are joined into the one selected
    last. *)
Example join_meshes_pair :
  obind (join_meshes demo_host pair_scene).1 (fun mesh => Ok (name mesh))
    = Ok "Right"
  /\ map name (objects (join_meshes demo_host pair_scene).2) = ["Right"].
Proof. vm_compute. split; reflexivity. Qed.


Example join_meshes_spare :
  (join_meshes demo_host spare_scene).1 = Raise (Exn AssertionError "")
  /\ map name (scene_meshes (join_meshes demo_host spare_scene).2) = ["Cube"]
  /\ map name (filter (fun o => type o = MESH)
                 (objects (join_meshes demo_host spare_scene).2))
     = ["Cube"; "Spare"].
Proof. vm_compute. repeat split. Qed.

End CapturerRuns.

(** * More of the Selector *)

Section SelectorMore.
Import Py Selector.
Context {rng : Type} (seed : Z -> rng) (randbelow : nat -> rng -> nat * rng).

Lemma swap_perm {A} (x : list A) i j : swap x i j ≡ₚ x.
Proof.
  unfold swap.
  destruct (x !! i) as [a|] eqn:Hi; [|done].
  destruct (x !! j) as [b|] eqn:Hj; [|done].
  apply Permutation_inj. split; [by rewrite !length_insert|].
  exists (fun n => if decide (n = i) then j else if decide (n = j) then i else n).
  split.
  - intros n m. repeat case_decide; congruence.
  - intros n. pose proof (lookup_lt_Some _ _ _ Hi). pose proof (lookup_lt_Some _ _ _ Hj).
    destruct (decide (n = j)) as [->|Hnj].
    + rewrite list_lookup_insert_eq by (by rewrite length_insert).
      case_decide; subst; congruence.
    + rewrite list_lookup_insert_ne by done.
      destruct (decide (n = i)) as [->|Hni].
      * rewrite list_lookup_insert_eq by done. congruence.
      * by rewrite list_lookup_insert_ne.
Qed.

Lemma shuffle_from_perm {A} i : forall (x : list A) g,
  (shuffle_from randbelow i x g).1 ≡ₚ x.
Proof.
  induction i as [|i IH]; intros x g; cbn [shuffle_from]; [done|].
  destruct (randbelow (S (S i)) g) as [j g'].
  rewrite IH. apply swap_perm.
Qed.

Lemma shuffle_perm {A} (x : list A) g : (shuffle randbelow x g).1 ≡ₚ x.
Proof. apply shuffle_from_perm. Qed.

Lemma slice_sublist {A} (l : list A) s e : slice l s e `sublist_of` l.
Proof.
  unfold slice. etrans; [apply sublist_take|apply sublist_drop].
Qed.

(** X1.  The identifiers the recompute branch selects are identifiers
    of the catalog, each as often at most as the catalog lists it:
    shuffling, slicing and ranking invent nothing and repeat nothing. *)
Theorem recompute_within_catalog (args : Args) (env : Env) :
  let ids := recompute seed randbelow args env in
  ids ⊆+ catalog env
  /\ (forall uid, uid ∈ ids -> uid ∈ catalog env)
  /\ (NoDup (catalog env) -> NoDup ids).
Proof.
  intros ids.
  assert (H : ids ⊆+ catalog env).
  { unfold ids, recompute.
    destruct (shuffle randbelow (catalog env) (seed 42)) as [uids g] eqn:E.
    etrans; [apply sublist_submseteq, slice_sublist|].
    rewrite sorted_reverse_perm.
    etrans; [apply sublist_submseteq, slice_sublist|].
    assert (uids ≡ₚ catalog env) as ->; [|done].
    change uids with (uids, g).1. rewrite <- E. apply shuffle_perm. }
  split; [done|]. split.
  - intros uid Hin. by eapply elem_of_submseteq.
  - intros Hnd. apply submseteq_Permutation in H as [k Hk].
    rewrite Hk in Hnd. by apply NoDup_app in Hnd as [? _].
Qed.

(** X2.  The URLs written are one per identifier, in order, each the
    address of the dataset followed by the object's path; and the
    comprehension fails exactly when an identifier has no path, with
    the [KeyError] of the first such identifier. *)
Theorem resolve_urls (env : Env (rng := rng)) (uids : list string) :
  (forall urls,
     resolve env uids = Ok urls <->
     Forall2 (fun uid url =>
                exists p, object_paths env !! uid = Some p
                  /\ url = ("https://huggingface.co/datasets/allenai/objaverse/resolve/main/"
                            ++ p)%string)
             uids urls)
  /\ (forall e,
        resolve env uids = Raise e <->
        exists known uid rest,
          uids = (known ++ uid :: rest)%list
          /\ Forall (fun u => is_Some (object_paths env !! u)) known
          /\ object_paths env !! uid = None
          /\ e = Exn KeyError uid).
Proof.
  induction uids as [|uid uids [IHok IHraise]]; split.
  - intros urls. cbn. split.
    + intros [= <-]. constructor.
    + intros H. by apply Forall2_nil_inv_l in H as ->.
  - intros e. cbn. split; [done|].
    intros (known & u & rest & H & _). by destruct known.
  - intros urls. cbn [resolve].
    destruct (object_paths env !! uid) as [p|] eqn:Hp.
    + destruct (resolve env uids) as [urls0|e0] eqn:Hr; cbn [obind].
      * split.
        -- intros [= <-]. constructor; [by exists p|]. by apply IHok.
        -- intros H. apply Forall2_cons_inv_l in H as (url & urls1 & (p' & Hp' & ->) & H & ->).
           apply IHok in H. simplify_eq. done.
      * split; [done|].
        intros H. apply Forall2_cons_inv_l in H as (url & urls1 & _ & H & ->).
        apply IHok in H. done.
    + split; [done|].
      intros H. apply Forall2_cons_inv_l in H as (url & urls1 & (p' & Hp' & _) & _).
      congruence.
  - intros e. cbn [resolve].
    destruct (object_paths env !! uid) as [p|] eqn:Hp.
    + assert (Hrest : forall known u rest,
                uid :: uids = (known ++ u :: rest)%list ->
                Forall (fun u => is_Some (object_paths env !! u)) known ->
                object_paths env !! u = None ->
                resolve env uids = Raise (Exn KeyError u)).
      { intros [|k known] u rest Heq Hknown Hu; simplify_eq/=; try congruence.
        apply Forall_cons in Hknown as [_ Hknown].
        apply IHraise. by exists known, u, rest. }
      destruct (resolve env uids) as [urls0|e0] eqn:Hr; cbn [obind].
      * split; [done|].
        intros (known & u & rest & Heq & Hknown & Hu & ->).
        by specialize (Hrest _ _ _ Heq Hknown Hu).
      * split.
        -- intros [= <-].
           destruct (proj1 (IHraise e0) eq_refl) as (known & u & rest & -> & ? & ? & ->).
           exists (uid :: known), u, rest. repeat split; try done.
           constructor; [by eexists|done].
        -- intros (known & u & rest & Heq & Hknown & Hu & ->).
           by specialize (Hrest _ _ _ Heq Hknown Hu).
    + split.
      * intros [= <-]. exists [], uid, uids. repeat split; [constructor|done].
      * intros (known & u & rest & H & Hknown & Hu & ->).
        destruct known as [|k known]; simplify_eq/=; try done.
        apply Forall_cons in Hknown as [[? Hk] _]. congruence.
Qed.

Lemma key_count_perm d files files' :
  files ≡ₚ files' -> key_count d files = key_count d files'.
Proof. unfold key_count. by intros ->. Qed.

(** X3.  The set of completed identifiers depends on which keys the
    bucket holds, not on the order in which the listing yields them. *)
Theorem completed_uids_any_order (files files' : list string) :
  files ≡ₚ files' -> get_completed_uids files = get_completed_uids files'.
Proof.
  intros Hp. apply set_eq. intros d.
  by rewrite !elem_of_get_completed_uids, (key_count_perm d _ _ Hp).
Qed.

Lemma slice_nil {A} s e : slice (@nil A) s e = [].
Proof. unfold slice. by rewrite drop_nil, take_nil. Qed.

Lemma slice_empty_window {A} (l : list A) s e :
  0 <= e <= s -> slice l s e = [].
Proof.
  intros H. unfold slice, adjust_index.
  destruct (s <? 0) eqn:Hs; [lia|]. destruct (e <? 0) eqn:He; [lia|].
  replace (Z.to_nat _) with 0%nat by lia. done.
Qed.

(** X4.  An empty catalog, a window that ends where it starts or before
    it, or a count of zero select nothing: the script then writes an
    empty list and raises nothing. *)
Theorem recompute_empty_selection (args : Args) (env : Env) :
  catalog env = [] \/ 0 <= end_i args <= start_i args \/ n_objects args = 0 ->
  recompute seed randbelow args env = []
  /\ (forall p, uid_json_path args = Some p -> manifests env !! p = None ->
        main seed randbelow args env = Ok []).
Proof.
  intros H.
  assert (Hr : recompute seed randbelow args env = []).
  { unfold recompute.
    destruct (shuffle randbelow (catalog env) (seed 42)) as [uids g] eqn:E.
    destruct H as [H | [H | H]].
    - assert (uids = []) as ->.
      { change uids with (uids, g).1. rewrite <- E, H. done. }
      rewrite slice_nil. apply slice_nil.
    - rewrite (slice_empty_window _ _ _ H). apply slice_nil.
    - rewrite H. by apply slice_empty_window. }
  split; [done|].
  intros p Hp Hnone. unfold main, choose_uids, path_exists. rewrite Hp.
  cbn [obind]. rewrite bool_decide_eq_false_2 by (rewrite Hnone; by intros [? ?]).
  cbn [obind snd]. rewrite Hr. by destruct (skip_completed args).
Qed.

(** X5.  A negative count does not fail: as in any Python slice it
    counts from the end, so the ranking loses its last [-n_objects]
    identifiers and the rest is selected. *)
Theorem recompute_negative_count (args : Args) (env : Env) :
  n_objects args < 0 ->
  let pool :=
    slice (shuffle randbelow (catalog env) (seed 42)).1
          (start_i args) (end_i args) in
  recompute seed randbelow args env
  = take (length pool - Z.to_nat (- n_objects args))
         (sorted_reverse (likeCount env) pool).
Proof.
  intros Hn pool. unfold recompute. subst pool.
  destruct (shuffle randbelow (catalog env) (seed 42)) as [uids g]. cbn [fst].
  set (pool := slice uids (start_i args) (end_i args)).
  unfold slice at 1. unfold adjust_index.
  destruct (n_objects args <? 0) eqn:E; [|lia].
  change (0 <? 0) with false. cbv iota.
  rewrite (Permutation_length (sorted_reverse_perm (likeCount env) pool)).
  replace (Z.to_nat (Z.min 0 _)) with 0%nat by lia.
  rewrite drop_0. f_equal. lia.
Qed.
End SelectorMore.

Section SelectorRuns.
Import Py Selector.

Lemma completed_uids_any_order_witness :
  get_completed_uids (bucket_files demo_env)
  = get_completed_uids (rev (bucket_files demo_env)).
Proof.
  apply (completed_uids_any_order (bucket_files demo_env) (rev (bucket_files demo_env))).
  apply Permutation_rev.
Defined.

Lemma recompute_empty_selection_witness :
  recompute (fun _ => tt) demo_randbelow
    {| start_i := 2; end_i := 2; n_objects := 3;
       skip_completed := false; uid_json_path := None |} demo_env = [].
Proof.
  apply (recompute_empty_selection (fun _ => tt) demo_randbelow
           {| start_i := 2; end_i := 2; n_objects := 3;
              skip_completed := false; uid_json_path := None |} demo_env).
  right. left. cbn. lia.
Defined.

Lemma recompute_negative_count_witness :
  recompute (fun _ => tt) demo_randbelow
    {| start_i := 0; end_i := 100; n_objects := -1;
       skip_completed := false; uid_json_path := None |} demo_env
  = take (length (slice (shuffle demo_randbelow (catalog demo_env) tt).1 0 100)
          - Z.to_nat (- -1))
      (sorted_reverse (likeCount demo_env)
         (slice (shuffle demo_randbelow (catalog demo_env) tt).1 0 100)).
Proof.
  apply (recompute_negative_count (fun _ => tt) demo_randbelow
           {| start_i := 0; end_i := 100; n_objects := -1;
              skip_completed := false; uid_json_path := None |} demo_env).
  cbn. lia.
Defined.
End SelectorRuns.

(** * More of the Capturer

    ** The box of [scene_bbox] *)

Section BoxFacts.
Import Py Capturer.
Context {rng : Type}.

Lemma py_min_le x y : (py_min x y <= x)%Q /\ (py_min x y <= y)%Q.
Proof.
  unfold py_min. destruct (Qle_bool x y) eqn:E.
  - apply Qle_bool_iff in E. split; lra.
  - assert (~ x <= y)%Q by (rewrite <- Qle_bool_iff; congruence). split; lra.
Qed.

Lemma py_max_ge x y : (x <= py_max x y)%Q /\ (y <= py_max x y)%Q.
Proof.
  unfold py_max. destruct (Qle_bool y x) eqn:E.
  - apply Qle_bool_iff in E. split; lra.
  - assert (~ y <= x)%Q by (rewrite <- Qle_bool_iff; congruence). split; lra.
Qed.

Lemma py_min_cases x y : py_min x y = x \/ py_min x y = y.
Proof. unfold py_min. destruct (Qle_bool x y); auto. Qed.

Lemma py_max_cases x y : py_max x y = x \/ py_max x y = y.
Proof. unfold py_max. destruct (Qle_bool y x); auto. Qed.

Lemma grow_includes b p : inbox (grow b p) p.
Proof.
  unfold grow, inbox, vle. destruct b as [[lo hi]|].
  - destruct lo as [[? ?] ?], hi as [[? ?] ?], p as [[? ?] ?]. cbn.
    repeat split; first [apply py_min_le | apply py_max_ge].
  - destruct p as [[? ?] ?]. cbn. repeat split; lra.
Qed.

Lemma grow_keeps b p q : inbox b q -> inbox (grow b p) q.
Proof.
  unfold grow, inbox, vle. destruct b as [[lo hi]|]; [|done].
  destruct lo as [[l0 l1] l2], hi as [[h0 h1] h2], p as [[p0 p1] p2],
    q as [[q0 q1] q2]. cbn.
  intros [(? & ? & ?) (? & ? & ?)].
  pose proof (py_min_le l0 p0). pose proof (py_min_le l1 p1).
  pose proof (py_min_le l2 p2). pose proof (py_max_ge h0 p0).
  pose proof (py_max_ge h1 p1). pose proof (py_max_ge h2 p2).
  repeat split; lra.
Qed.

Lemma grow_attained b p (S : vec3 -> Prop) :
  attained b S -> S p -> attained (grow b p) S.
Proof.
  unfold grow, attained. destruct b as [[lo hi]|].
  - destruct lo as [[l0 l1] l2], hi as [[h0 h1] h2], p as [[p0 p1] p2].
    intros Hb Hp i Hi. destruct (Hb i Hi) as [Hlo Hhi].
    assert (i = 0 \/ i = 1 \/ i = 2) as [-> | [-> | ->]] by lia; cbn in *.
    + split; [destruct (py_min_cases l0 p0) as [-> | ->]
             |destruct (py_max_cases h0 p0) as [-> | ->]];
        first [done | by eexists (_, _, _)].
    + split; [destruct (py_min_cases l1 p1) as [-> | ->]
             |destruct (py_max_cases h1 p1) as [-> | ->]];
        first [done | by eexists (_, _, _)].
    + split; [destruct (py_min_cases l2 p2) as [-> | ->]
             |destruct (py_max_cases h2 p2) as [-> | ->]];
        first [done | by eexists (_, _, _)].
  - intros _ Hp i Hi. split; by exists p.
Qed.

Lemma foldl_grow_keeps pts : forall b q,
  inbox b q -> inbox (foldl grow b pts) q.
Proof.
  induction pts as [|p pts IH]; intros b q H; [done|].
  cbn [foldl]. by apply IH, grow_keeps.
Qed.

Lemma foldl_grow_includes pts : forall b p,
  p ∈ pts -> inbox (foldl grow b pts) p.
Proof.
  induction pts as [|p0 pts IH]; intros b p Hin; [by apply elem_of_nil in Hin|].
  cbn [foldl]. apply elem_of_cons in Hin as [-> | Hin].
  - apply foldl_grow_keeps, grow_includes.
  - by apply IH.
Qed.

Lemma foldl_grow_attained pts (S : vec3 -> Prop) : forall b,
  attained b S -> (forall p, p ∈ pts -> S p) -> attained (foldl grow b pts) S.
Proof.
  induction pts as [|p0 pts IH]; intros b Hb HS; [done|].
  cbn [foldl]. apply IH.
  - apply grow_attained; [done|]. apply HS. by left.
  - intros p Hp. apply HS. by right.
Qed.

Lemma foldl_grow_found pts : forall b,
  (is_Some b \/ pts <> []) -> is_Some (foldl grow b pts).
Proof.
  induction pts as [|p0 pts IH]; intros b H.
  - by destruct H.
  - cbn [foldl]. apply IH. left. by eexists.
Qed.

Lemma foldl_grow_corners ignore_matrix objs : forall bounds,
  foldl (grow_object ignore_matrix) bounds objs
  = foldl grow bounds
      (concat (map (fun o => map (corner ignore_matrix o) (bound_box o)) objs)).
Proof.
  induction objs as [|o objs IH]; intros bounds; [done|].
  cbn [foldl map concat]. rewrite foldl_app, IH. f_equal.
  unfold grow_object, corner.
  generalize (bound_box o). intros l. revert bounds.
  induction l as [|x l IHl]; intros bounds; [done|].
  cbn [foldl map]. by rewrite IHl.
Qed.

Lemma bound_box_eight (o : Object) : length (bound_box o) = 8%nat.
Proof.
  unfold bound_box. by destruct (bb_min o) as [[? ?] ?], (bb_max o) as [[? ?] ?].
Qed.

Lemma elem_of_corners ignore_matrix objs p :
  p ∈ concat (map (fun o => map (corner ignore_matrix o) (bound_box o)) objs)
  <-> exists o c, o ∈ objs /\ c ∈ bound_box o /\ p = corner ignore_matrix o c.
Proof.
  induction objs as [|o0 objs IH]; cbn [map concat].
  - split; [by intros ?%elem_of_nil|]. by intros (o & c & ?%elem_of_nil & _).
  - rewrite elem_of_app, IH, list_elem_of_fmap. split.
    + intros [(c & -> & Hc) | (o & c & Ho & Hc & ->)].
      * exists o0, c. repeat split; [by left|done].
      * exists o, c. repeat split; [by right|done].
    + intros (o & c & [-> | Ho]%elem_of_cons & Hc & ->).
      * left. by exists c.
      * right. by exists o, c.
Qed.

(** X6.  [scene_bbox] returns the bounding box of what it loops over:
    every corner of every object lies between the two bounds, each
    coordinate of a bound is the coordinate of some corner, and the
    [RuntimeError] is raised exactly when there is no object to loop
    over.  The state is never changed. *)
Theorem scene_bbox_is_bounding_box single_obj ignore_matrix (w : World rng) :
  (scene_bbox single_obj ignore_matrix w).2 = w
  /\ match (scene_bbox single_obj ignore_matrix w).1 with
     | Ok (bbox_min, bbox_max) =>
         bbox_objects single_obj w <> []
         /\ (forall o c, o ∈ bbox_objects single_obj w -> c ∈ bound_box o ->
               vle bbox_min (corner ignore_matrix o c)
               /\ vle (corner ignore_matrix o c) bbox_max)
         /\ (forall i, 0 <= i < 3 ->
               (exists o c, o ∈ bbox_objects single_obj w /\ c ∈ bound_box o
                  /\ vget bbox_min i = vget (corner ignore_matrix o c) i)
               /\ (exists o c, o ∈ bbox_objects single_obj w /\ c ∈ bound_box o
                     /\ vget bbox_max i = vget (corner ignore_matrix o c) i))
     | Raise e =>
         bbox_objects single_obj w = []
         /\ e = Exn RuntimeError "no objects in scene to compute bounding box for"
     end.
Proof.
  unfold scene_bbox. fold (bbox_objects single_obj w).
  set (objs := bbox_objects single_obj w).
  rewrite foldl_grow_corners.
  set (pts := concat (map (fun o => map (corner ignore_matrix o) (bound_box o)) objs)).
  pose proof (foldl_grow_includes pts None) as Hin.
  pose proof (foldl_grow_attained pts (fun p => p ∈ pts) None I (fun p H => H)) as Hat.
  pose proof (foldl_grow_found pts None) as Hfound.
  destruct (foldl grow None pts) as [[lo hi]|]; cbn [fst snd].
  - split; [done|]. split; [|split].
    + intros Hnil. destruct (Hat 0 ltac:(lia)) as [(p & Hp & _) _].
      unfold pts in Hp. rewrite Hnil in Hp. by apply elem_of_nil in Hp.
    + intros o c Ho Hc. apply (Hin (corner ignore_matrix o c)).
      apply elem_of_corners. by exists o, c.
    + intros i Hi. destruct (Hat i Hi) as [(p & Hp & Hlo) (q & Hq & Hhi)].
      apply elem_of_corners in Hp as (o & c & ? & ? & ->).
      apply elem_of_corners in Hq as (o' & c' & ? & ? & ->).
      split; [by exists o, c|by exists o', c'].
  - split; [done|]. split; [|done].
    destruct objs as [|o rest] eqn:E; [done|]. exfalso.
    destruct Hfound as [? [=]]. right. unfold pts. cbn [map concat].
    pose proof (bound_box_eight o).
    destruct (bound_box o); [done|]. done.
Qed.

End BoxFacts.

(** ** How [normalize_scene] ends *)

Section NormalizeMore.
Import Py Capturer.
Context {rng : Type}.

Lemma scene_meshes_map (f : Object -> Object) (wA wB : World rng) :
  objects wB = map f (objects wA) ->
  (forall o, type (f o) = type o /\ linked (f o) = linked o) ->
  scene_meshes wB = map f (scene_meshes wA).
Proof.
  intros Hobjs Hf. unfold scene_meshes, scene_objects.
  rewrite Hobjs, !filter_map_commute. f_equal.
  rewrite !list_filter_filter. apply filter_ext_in.
  intros o _. destruct (Hf o) as [-> ->]. done.
Qed.

Lemma bbox_fold_found ignore_matrix (objs : list Object) :
  objs <> [] -> is_Some (foldl (grow_object ignore_matrix) None objs).
Proof.
  intros H. rewrite foldl_grow_corners. apply foldl_grow_found. right.
  destruct objs as [|o objs]; [done|]. cbn [map concat].
  pose proof (bound_box_eight o). by destruct (bound_box o).
Qed.

Lemma bbox_fold_none ignore_matrix :
  foldl (grow_object ignore_matrix) None [] = None.
Proof. done. Qed.

(** The object a call of [normalize_scene] that returns makes of an
    object [o] of the scene [objs], with the factor and the offset it
    computed. *)
Lemma normalize_scene_shape scale_ (w w' : World rng) :
  normalize_scene scale_ w = (Ok tt, w') ->
  exists k c,
    w' = deselect_all (shift_roots c (refresh (scale_roots k w))).
Proof.
  unfold normalize_scene, bind, scene_bbox, view_layer_update,
    select_all_deselect, raise, modify.
  destruct (foldl (grow_object false) None (scene_meshes w))
    as [[bbox_min bbox_max]|]; [|discriminate].
  destruct (Qeq_bool _ _); [discriminate|]. cbv beta iota.
  match goal with
  | |- context [foldl (grow_object false) None (scene_meshes ?w1)] =>
      destruct (foldl (grow_object false) None (scene_meshes w1))
        as [[bbox_min' bbox_max']|]; [|discriminate]
  end.
  intros [= <-]. by eexists _, _.
Qed.

(** X7.  [normalize_scene] fails in two cases only, and then it has
    changed nothing: without a mesh in the scene ([RuntimeError]), and
    with meshes whose box has no extent ([ZeroDivisionError]).  In every
    other case it returns. *)
Theorem normalize_scene_failures scale_ (w : World rng) :
  match normalize_scene scale_ w with
  | (Ok _, _) =>
      exists bbox_min bbox_max,
        scene_bbox None false w = (Ok (bbox_min, bbox_max), w)
        /\ ~ vmax (vsub bbox_max bbox_min) == 0
  | (Raise e, w') =>
      w' = w
      /\ (scene_meshes w = []
          /\ e = Exn RuntimeError "no objects in scene to compute bounding box for"
          \/ exists bbox_min bbox_max,
               scene_bbox None false w = (Ok (bbox_min, bbox_max), w)
               /\ vmax (vsub bbox_max bbox_min) == 0
               /\ e = Exn ZeroDivisionError "float division by zero")
  end.
Proof.
  unfold normalize_scene, bind at 1.
  pose proof (bbox_fold_found false (scene_meshes w)) as Hfound.
  unfold scene_bbox at 1 3 4.
  destruct (foldl (grow_object false) None (scene_meshes w))
    as [[bbox_min bbox_max]|] eqn:Hfold.
  - destruct (Qeq_bool (vmax (vsub bbox_max bbox_min)) 0) eqn:Hq.
    + unfold raise. split; [done|]. right. exists bbox_min, bbox_max.
      split; [done|]. split; [by apply Qeq_bool_iff|done].
    + unfold bind at 1. unfold modify at 1.
      unfold bind at 1. unfold view_layer_update, modify at 1.
      set (w2 := refresh (scale_roots _ w)).
      assert (Hmeshes : scene_meshes w2 <> []).
      { unfold w2.
        rewrite (scene_meshes_map
                   (fun o => refreshed (objects (scale_roots (scale_ / vmax (vsub bbox_max bbox_min)) w))
                               (scaled (scale_ / vmax (vsub bbox_max bbox_min)) o)) w).
        - destruct (scene_meshes w); [|done]. by rewrite bbox_fold_none in Hfold.
        - unfold refresh, scale_roots. cbn [objects with_objects]. by rewrite map_map.
        - intros o.
          destruct (refreshed_facts
                      (objects (scale_roots (scale_ / vmax (vsub bbox_max bbox_min)) w))
                      (scaled (scale_ / vmax (vsub bbox_max bbox_min)) o))
            as (_ & _ & -> & -> & _).
          by destruct (scaled_facts (scale_ / vmax (vsub bbox_max bbox_min)) o)
            as (_ & _ & -> & -> & _). }
      unfold bind at 1. unfold scene_bbox.
      destruct (bbox_fold_found false _ Hmeshes) as [[lo2 hi2] ->].
      unfold bind, modify, select_all_deselect.
      exists bbox_min, bbox_max. split; [done|].
      intros E%Qeq_bool_iff. congruence.
  - split; [done|]. left. split; [|done].
    destruct (scene_meshes w); [done|].
    destruct Hfound as [? ?]; done.
Qed.

(** X8.  A call of [normalize_scene] that returns has touched the
    transforms and the selection of the objects and nothing else: no
    object is added or removed; names, types, parents, links and local
    boxes are kept; the objects of the scene end deselected; objects
    linked to no scene are as they were, and so are the own location
    and scale of every object that has a parent.  Files, directories
    and render settings are as before, and one [select_all] is
    logged. *)
Theorem normalize_scene_frame scale_ (w w' : World rng) :
  normalize_scene scale_ w = (Ok tt, w') ->
  files w' = files w /\ dirs w' = dirs w /\ cwd w' = cwd w
  /\ active w' = active w /\ render w' = render w
  /\ stdout w' = stdout w /\ random w' = random w
  /\ ops w' = (ops w ++ [SelectAll])%list
  /\ exists f : Object -> Object,
       objects w' = map f (objects w)
       /\ forall o,
            name (f o) = name o /\ type (f o) = type o
            /\ parent (f o) = parent o /\ linked (f o) = linked o
            /\ bb_min (f o) = bb_min o /\ bb_max (f o) = bb_max o
            /\ (linked o = true -> selected (f o) = false)
            /\ (linked o = false -> f o = o)
            /\ (parent o <> None ->
                location (f o) = location o /\ scale (f o) = scale o).
Proof.
  intros (k & c & ->)%normalize_scene_shape.
  repeat (split; [done|]).
  set (objs1 := objects (scale_roots k w)).
  set (objs2 := objects (shift_roots c (refresh (scale_roots k w)))).
  exists (fun o => deselected (shifted c (refreshed objs1 (scaled k o)))).
  split.
  { unfold deselect_all, shift_roots, refresh, scale_roots, logged.
    cbn [objects with_objects]. by rewrite !map_map. }
  intros o.
  destruct (deselected_facts (shifted c (refreshed objs1 (scaled k o))))
    as (-> & -> & ->).
  destruct (deselected_more (shifted c (refreshed objs1 (scaled k o))))
    as (-> & -> & -> & Hown & _).
  destruct (shifted_facts c (refreshed objs1 (scaled k o)))
    as (-> & -> & -> & -> & -> & ->).
  destruct (refreshed_facts objs1 (scaled k o))
    as (-> & -> & -> & -> & -> & -> & Hown1).
  destruct (scaled_facts k o) as (-> & -> & -> & -> & -> & ->).
  repeat (split; [done|]).
  split; [|split].
  - intros Hl. unfold deselected.
    assert (linked (shifted c (refreshed objs1 (scaled k o))) = true) as ->; [|done].
    destruct (shifted_facts c (refreshed objs1 (scaled k o)))
      as (_ & _ & _ & -> & _).
    destruct (refreshed_facts objs1 (scaled k o)) as (_ & _ & _ & -> & _).
    by destruct (scaled_facts k o) as (_ & _ & _ & -> & _).
  - intros Hl.
    assert (Hno : ~ (linked o = true /\ parent o = None))
      by (rewrite Hl; by intros [? _]).
    unfold scaled. rewrite (bool_decide_eq_false_2 _ Hno).
    unfold refreshed. rewrite Hl.
    unfold shifted. rewrite (bool_decide_eq_false_2 _ Hno).
    unfold deselected. by rewrite Hl.
  - intros Hp.
    assert (own (deselected (shifted c (refreshed objs1 (scaled k o)))) = own o)
      as [= -> ->]; [|done].
    rewrite Hown. unfold shifted.
    rewrite bool_decide_eq_false_2.
    2:{ destruct (refreshed_facts objs1 (scaled k o)) as (_ & -> & _).
        destruct (scaled_facts k o) as (_ & -> & _). by intros [_ ?]. }
    rewrite Hown1. unfold scaled.
    rewrite bool_decide_eq_false_2 by (by intros [_ ?]). done.
Qed.

End NormalizeMore.

(** ** The camera *)

Section CameraFacts.
Import Py Capturer.
Context {rng : Type} (host : Host (rng := rng)) (args : Args).

Lemma sphere_point (d s c s' c' : Q) :
  s * s + c * c == 1 -> s' * s' + c' * c' == 1 ->
  norm2 (d * s * c', d * s * s', d * c)%Q == d * d.
Proof.
  intros H H'. unfold norm2.
  transitivity (d * d * (s * s * (s' * s' + c' * c') + c * c))%Q; [ring|].
  rewrite H', Qmult_1_r, H. ring.
Qed.

Lemma set_output_extension_png (w : World rng) :
  set_output_extension "png" w
  = (Ok tt,
     with_render {| r_engine := r_engine (render w); r_file_format := "PNG";
                    r_color_mode := "RGBA";
                    resolution_x := resolution_x (render w);
                    resolution_y := resolution_y (render w);
                    filepath := filepath (render w) |} w).
Proof. reflexivity. Qed.

(** X9.  With a sine and a cosine whose squares add up to one, every
    frame is taken from the sphere of radius [camera_dist] around the
    origin: after a round of the render loop the location of the camera
    is at that distance, and no other object was moved. *)
Theorem camera_stays_on_sphere uid cam i fr (w : World rng) fr' w' :
  (forall x, sin host x * sin host x + cos host x * cos host x == 1) ->
  render_frame host args uid cam i fr w = (Ok fr', w') ->
  exists f : Object -> Object,
    objects w' = map f (objects w)
    /\ forall o,
         name (f o) = name o
         /\ (name o = cam ->
             norm2 (location (f o))
             == inject_Z (camera_dist args) * inject_Z (camera_dist args))
         /\ (name o <> cam -> location (f o) = location o).
Proof.
  intros Htrig. unfold render_frame.
  unfold bind at 1. destruct (randint host 35 90 (random w)) as [deg g].
  unfold bind at 1. unfold modify at 1.
  unfold bind at 1. unfold set_filepath at 1. unfold modify at 1.
  unfold bind at 1. rewrite set_output_extension_png.
  unfold bind at 1. unfold render_still.
  match goal with
  | |- context [render_fault host ?w1] => destruct (render_fault host w1) as [e|]
  end; [discriminate|].
  unfold bind at 1. unfold gets at 1.
  match goal with
  | |- context [cam_matrix_world host ?w1] =>
      destruct (cam_matrix_world host w1) as [pos rt]
  end.
  unfold bind, view_layer_update, modify, ret.
  intros [= <- <-].
  unfold refresh, update_object, logged.
  cbn [objects with_objects with_files with_dirs with_render with_random].
  rewrite map_map. eexists. split; [reflexivity|].
  intros o. cbv beta.
  match goal with
  | |- context [refreshed ?objs ?x] =>
      destruct (refreshed_facts objs x) as (-> & _ & _ & _ & _ & _ & Hown)
  end.
  injection Hown as _ ->.
  destruct (String.eqb (name o) cam) eqn:Hname.
  - apply String.eqb_eq in Hname. split; [done|]. split; [|done].
    intros _. cbn [location set_location]. apply sphere_point; apply Htrig.
  - apply String.eqb_neq in Hname. done.
Qed.

(** X10.  With such a sine and cosine [sample_point_on_sphere] returns
    a point at distance [radius] from the origin; it draws twice from
    the generator and changes nothing else. *)
Theorem sampled_point_on_sphere (uniform : rng -> Q * rng) (acos : Q -> Q)
    (radius : Q) (w : World rng) :
  (forall x, sin host x * sin host x + cos host x * cos host x == 1) ->
  exists p,
    sample_point_on_sphere host uniform acos radius w
    = (Ok p, with_random (uniform (uniform (random w)).2).2 w)
    /\ norm2 p == radius * radius.
Proof.
  intros Htrig. unfold sample_point_on_sphere.
  destruct (uniform (random w)) as [u g]. cbn [snd].
  destruct (uniform g) as [v g']. cbn [snd].
  eexists. split; [reflexivity|]. apply sphere_point; apply Htrig.
Qed.

End CameraFacts.

Section CameraRuns.
Import Py Capturer.

Lemma demo_host_trig x :
  sin demo_host x * sin demo_host x + cos demo_host x * cos demo_host x == 1.
Proof. reflexivity. Qed.

Lemma demo_first_returns :
  render_frame demo_host demo_args "chair" "Camera" 0 no_frames demo_world
  = (Ok demo_first_frames, demo_first.2).
Proof. vm_compute. reflexivity. Qed.

Lemma camera_stays_on_sphere_witness :
  exists f : Object -> Object,
    objects demo_first.2 = map f (objects demo_world)
    /\ forall o,
         name (f o) = name o
         /\ (name o = "Camera" ->
             norm2 (location (f o))
             == inject_Z (camera_dist demo_args) * inject_Z (camera_dist demo_args))
         /\ (name o <> "Camera" -> location (f o) = location o).
Proof.
  exact (camera_stays_on_sphere demo_host demo_args "chair" "Camera" 0 no_frames
           demo_world demo_first_frames demo_first.2
           demo_host_trig demo_first_returns).
Defined.

Lemma sampled_point_on_sphere_witness :
  exists p,
    sample_point_on_sphere demo_host (fun g : unit => (1 # 4, g)%Q)
      (fun x => x) (5 # 2) demo_world
    = (Ok p, with_random
               ((fun g : unit => (1 # 4, g)%Q)
                  ((fun g : unit => (1 # 4, g)%Q) (random demo_world)).2).2
               demo_world)
    /\ norm2 p == (5 # 2) * (5 # 2).
Proof.
  exact (sampled_point_on_sphere demo_host (fun g : unit => (1 # 4, g)%Q)
           (fun x => x) (5 # 2) demo_world demo_host_trig).
Defined.

End CameraRuns.

(** ** What the pipeline leaves in place *)

Section SteadyFacts.
Import Py Capturer.
Context {rng : Type} (host : Host (rng := rng)) (args : Args).

Lemma keeps_files_refl (w : World rng) : keeps_files w w.
Proof. by repeat split. Qed.

Lemma keeps_files_trans (w1 w2 w3 : World rng) :
  keeps_files w1 w2 -> keeps_files w2 w3 -> keeps_files w1 w3.
Proof.
  intros (Hc & Hf & Hd) (Hc' & Hf' & Hd'). repeat split.
  - congruence.
  - intros k Hk. by apply Hf', Hf.
  - intros k Hk. by apply Hd', Hd.
Qed.

(** A change that touches neither the files, nor the directories, nor
    the working directory. *)
Lemma keeps_files_same (w w' : World rng) :
  files w' = files w -> dirs w' = dirs w -> cwd w' = cwd w -> keeps_files w w'.
Proof.
  intros Hf Hd Hc. unfold keeps_files, file_at. rewrite Hf, Hd, Hc. done.
Qed.

Lemma steady_ret {A} (a : A) : steady (rng := rng) (ret a).
Proof. intros w r w' [= <- <-]. apply keeps_files_refl. Qed.

Lemma steady_raise {A} e : steady (rng := rng) (A := A) (raise e).
Proof. intros w r w' [= <- <-]. apply keeps_files_refl. Qed.

Lemma steady_gets {A} (f : World rng -> A) : steady (gets f).
Proof. intros w r w' [= <- <-]. apply keeps_files_refl. Qed.

Lemma steady_lift {A} (f : World rng -> outcome A) : steady (lift f).
Proof. intros w r w' [= <- <-]. apply keeps_files_refl. Qed.

Lemma steady_modify (f : World rng -> World rng) :
  (forall w, files (f w) = files w /\ dirs (f w) = dirs w /\ cwd (f w) = cwd w) ->
  steady (modify f).
Proof.
  intros Hf w r w' [= <- <-]. destruct (Hf w) as (? & ? & ?).
  by apply keeps_files_same.
Qed.

Lemma steady_bind {A B} (m : M (rng := rng) A) (k : A -> M (rng := rng) B) :
  steady m -> (forall a, steady (k a)) -> steady (bind m k).
Proof.
  intros Hm Hk w r w'. unfold bind.
  destruct (m w) as [[a|e] w1] eqn:E.
  - intros H. eapply keeps_files_trans; [by eapply Hm|by eapply Hk].
  - intros [= <- <-]. by eapply Hm.
Qed.

Lemma steady_for_each {A S} (l : list A) (body : A -> S -> M (rng := rng) S) :
  (forall x s, steady (body x s)) -> forall s, steady (for_each l body s).
Proof.
  intros Hbody. induction l as [|x l IH]; intros s; cbn [for_each].
  - apply steady_ret.
  - apply steady_bind; [apply Hbody|apply IH].
Qed.

Lemma assoc_cons_Some k k' c (l : list (list string * file)) :
  is_Some (assoc k l) -> is_Some (assoc k ((k', c) :: l)).
Proof. cbn. by case_decide. Qed.

Lemma elem_of_add_dirs k ks ds : k ∈ ds -> k ∈ add_dirs ks ds.
Proof. unfold add_dirs. intros. apply elem_of_app. by left. Qed.

Lemma steady_makedirs path : steady (rng := rng) (makedirs path).
Proof.
  intros w r w'. unfold makedirs.
  destruct (existsb _ _); intros [= <- <-]; [apply keeps_files_refl|].
  repeat split; [done|]. intros k Hk. by apply elem_of_add_dirs.
Qed.

Lemma steady_write_file path content : steady (rng := rng) (write_file path content).
Proof.
  intros w r w'. unfold write_file.
  repeat case_match; intros [= <- <-]; try apply keeps_files_refl.
  repeat split; [|done]. intros k Hk. by apply assoc_cons_Some.
Qed.

Lemma steady_scene_bbox single_obj ignore_matrix :
  steady (rng := rng) (scene_bbox single_obj ignore_matrix).
Proof.
  intros w r w'. unfold scene_bbox.
  case_match; intros [= <- <-]; apply keeps_files_refl.
Qed.

Lemma steady_normalize_scene scale_ : steady (rng := rng) (normalize_scene scale_).
Proof.
  unfold normalize_scene.
  apply steady_bind; [apply steady_scene_bbox|]. intros [lo hi].
  case_match; [apply steady_raise|].
  repeat first
    [ apply steady_bind; [|intros ?]
    | apply steady_scene_bbox
    | by apply steady_modify
    | match goal with |- steady (let (_, _) := ?x in _) => destruct x end ].
Qed.

Lemma steady_import_scene o : steady (import_scene host o).
Proof.
  intros w r w'. unfold import_scene.
  case_match; intros [= <- <-]; by apply keeps_files_same.
Qed.

Lemma steady_load_object object_path : steady (load_object host object_path).
Proof.
  unfold load_object.
  repeat case_match; first [apply steady_import_scene | apply steady_raise].
Qed.

Lemma steady_scene_object n : steady (rng := rng) (scene_object n).
Proof.
  intros w r w'. unfold scene_object.
  case_match; intros [= <- <-]; apply keeps_files_refl.
Qed.

Lemma steady_setup_camera : steady (rng := rng) setup_camera.
Proof.
  unfold setup_camera.
  apply steady_bind; [apply steady_scene_object|]. intros cam.
  apply steady_bind; [by apply steady_modify|]. intros _. apply steady_ret.
Qed.

Lemma steady_new_empty : steady (new_empty host).
Proof. intros w r w' [= <- <-]. by apply keeps_files_same. Qed.

Lemma steady_set_output_extension type_ :
  steady (rng := rng) (set_output_extension type_).
Proof.
  unfold set_output_extension.
  repeat case_match; first [by apply steady_modify | apply steady_raise].
Qed.

Lemma steady_render_still : steady (render_still host).
Proof.
  intros w r w'. unfold render_still.
  case_match; intros [= <- <-]; [by apply keeps_files_same|].
  repeat split.
  - intros k Hk. by apply assoc_cons_Some.
  - intros k Hk. by apply elem_of_add_dirs.
Qed.

Lemma steady_render_frame uid cam i fr : steady (render_frame host args uid cam i fr).
Proof.
  unfold render_frame.
  apply steady_bind.
  { intros w r w'. destruct (randint host 35 90 (random w)).
    intros [= <- <-]. by apply keeps_files_same. }
  intros deg.
  apply steady_bind; [by apply steady_modify|]. intros _.
  apply steady_bind; [by apply steady_modify|]. intros _.
  apply steady_bind; [apply steady_set_output_extension|]. intros _.
  apply steady_bind; [apply steady_render_still|]. intros _.
  apply steady_bind; [apply steady_gets|]. intros [pos rt].
  apply steady_bind; [by apply steady_modify|]. intros _.
  apply steady_ret.
Qed.

Lemma steady_save_poses uid angle width_ height_ fr :
  steady (rng := rng) (save_poses args uid angle width_ height_ fr).
Proof.
  unfold save_poses. apply steady_for_each. intros mode []. apply steady_write_file.
Qed.

Lemma steady_select_set n : steady (rng := rng) (select_set n).
Proof. by apply steady_modify. Qed.

Lemma steady_object_join : steady (object_join host).
Proof.
  intros w r w'. unfold object_join.
  repeat case_match; intros [= <- <-];
    first [apply keeps_files_refl | by apply keeps_files_same].
Qed.

Lemma steady_join_meshes : steady (join_meshes host).
Proof.
  unfold join_meshes.
  apply steady_bind; [by apply steady_modify|]. intros _.
  apply steady_bind; [apply steady_gets|]. intros meshes.
  apply steady_bind.
  { apply steady_for_each. intros mesh [].
    apply steady_bind; [apply steady_select_set|]. intros _.
    by apply steady_modify. }
  intros _.
  apply steady_bind; [apply steady_object_join|]. intros _.
  apply steady_bind; [apply steady_gets|]. intros meshes'.
  repeat case_match; first [apply steady_ret | apply steady_raise].
Qed.

Lemma steady_obj_export path : steady (obj_export host path).
Proof.
  intros w r w'. unfold obj_export.
  destruct (export_result host (logged (ObjExport path) w)) as [text|e].
  - intros Hw. apply steady_write_file in Hw.
    eapply keeps_files_trans; [|exact Hw]. by apply keeps_files_same.
  - intros [= <- <-]. by apply keeps_files_same.
Qed.

Lemma steady_export_mesh object_file uid :
  steady (export_mesh host args object_file uid).
Proof.
  unfold export_mesh.
  apply steady_bind; [by apply steady_modify|]. intros _.
  apply steady_bind; [apply steady_load_object|]. intros _.
  apply steady_bind; [apply steady_normalize_scene|]. intros _.
  apply steady_bind; [apply steady_join_meshes|]. intros mesh.
  apply steady_bind; [apply steady_select_set|]. intros _.
  apply steady_obj_export.
Qed.

Lemma steady_reset_scene : steady (rng := rng) reset_scene.
Proof. by apply steady_modify. Qed.

Lemma steady_path_exists path : steady (rng := rng) (path_exists path).
Proof. apply steady_gets. Qed.

Lemma steady_save_images object_file save_mesh :
  steady (add_lighting host) ->
  steady (save_images host args object_file save_mesh).
Proof.
  intros Hlight. unfold save_images.
  apply steady_bind; [apply steady_makedirs|]. intros _.
  apply steady_bind; [apply steady_path_exists|]. intros rendered.
  destruct rendered; [apply steady_ret|].
  apply steady_bind; [apply steady_reset_scene|]. intros _.
  apply steady_bind; [apply steady_load_object|]. intros _.
  apply steady_bind; [apply steady_normalize_scene|]. intros _.
  apply steady_bind; [apply Hlight|]. intros _.
  apply steady_bind; [apply steady_setup_camera|]. intros cam.
  apply steady_bind; [apply steady_new_empty|]. intros empty.
  apply steady_bind; [apply steady_lift|]. intros angle.
  apply steady_bind; [apply steady_gets|]. intros width_.
  apply steady_bind; [apply steady_gets|]. intros height_.
  apply steady_bind; [apply steady_for_each; intros; apply steady_render_frame|].
  intros frames_.
  apply steady_bind; [apply steady_save_poses|]. intros _.
  destruct save_mesh; [apply steady_export_mesh|apply steady_ret].
Qed.

Lemma steady_print words : steady (rng := rng) (print words).
Proof. by apply steady_modify. Qed.

(** X11.  With a host whose lighting removes nothing, a run on a local
    asset removes nothing either, however it ends: every file and every
    directory that was there when [__main__] started is still there,
    and the working directory is the same. *)
Theorem local_run_removes_nothing (w : World rng) r w' :
  steady (add_lighting host) ->
  startswith "http" (object_path args) = false ->
  main host args w = (r, w') ->
  keeps_files w w'.
Proof.
  intros Hlight Hlocal. unfold main.
  assert (Hattempt : steady (attempt host args)).
  { unfold attempt. rewrite Hlocal.
    apply steady_bind; [apply steady_ret|]. intros local_path.
    apply steady_bind; [by apply steady_save_images|]. intros _.
    apply steady_bind; [apply steady_gets|]. intros seconds.
    apply steady_bind; [apply steady_print|]. intros _. apply steady_ret. }
  destruct (attempt host args w) as [[[]|e] w1] eqn:E.
  - intros [= <- <-]. by eapply Hattempt.
  - destruct (is_Exception e).
    + intros H. eapply keeps_files_trans; [by eapply Hattempt|].
      revert H. apply steady_bind; [apply steady_print|].
      intros _. apply steady_print.
    + intros [= <- <-]. by eapply Hattempt.
Qed.

End SteadyFacts.

(** ** Paths and downloads *)

Section PathMore.
Import Py.

Lemma string_length_app (a b : string) :
  String.length (a ++ b) = (String.length a + String.length b)%nat.
Proof.
  induction a as [|c a IH]; [by rewrite string_app_nil_l|].
  rewrite string_app_cons. cbn [String.length]. by rewrite IH.
Qed.

Lemma has_char_app c (a b : string) :
  has_char c (a ++ b) = has_char c a || has_char c b.
Proof.
  induction a as [|d a IH]; [by rewrite string_app_nil_l|].
  rewrite string_app_cons. cbn [has_char]. by rewrite IH, orb_assoc.
Qed.

Lemma endswith_app (a s : string) : endswith s (a ++ s) = true.
Proof.
  induction a as [|c a IH].
  - rewrite string_app_nil_l. destruct s; cbn [endswith]; by rewrite String.eqb_refl.
  - rewrite string_app_cons. cbn [endswith]. rewrite IH. apply orb_true_r.
Qed.

(** A name of three characters or more is stepped into. *)
Lemma step_into_long at_ b :
  (2 < String.length b)%nat -> step_into at_ b = (at_ ++ [b])%list.
Proof.
  intros H. unfold step_into.
  destruct (String.eqb b "") eqn:E1;
    [apply String.eqb_eq in E1; subst; cbn in H; lia|].
  destruct (String.eqb b ".") eqn:E2;
    [apply String.eqb_eq in E2; subst; cbn in H; lia|].
  destruct (String.eqb b "..") eqn:E3;
    [apply String.eqb_eq in E3; subst; cbn in H; lia|].
  done.
Qed.

Lemma step_into_is_plain at_ b : plain b -> step_into at_ b = (at_ ++ [b])%list.
Proof.
  intros (H1 & H2 & H3 & _). unfold step_into.
  apply String.eqb_neq in H1, H2, H3. by rewrite H1, H2, H3.
Qed.

Lemma foldl_step_into_plain k : forall at_,
  Forall plain k -> foldl step_into at_ k = (at_ ++ k)%list.
Proof.
  induction k as [|b k IH]; intros at_ Hk; cbn [foldl].
  - by rewrite app_nil_r.
  - apply Forall_cons in Hk as [Hb Hk].
    rewrite step_into_is_plain, IH by done. by rewrite <- app_assoc.
Qed.

(** One more component at the end of a path. *)
Lemma split_snoc (a b : string) :
  has_char "/" b = false ->
  split "/" (a ++ "/" ++ b) = (split "/" a ++ [b])%list.
Proof.
  intros Hb. change ("/" ++ b)%string with (String "/" b).
  by rewrite split_app_sep, (split_no_sep _ b).
Qed.

Lemma locate_snoc cwd_ (a b : string) :
  a <> "" -> has_char "/" b = false ->
  locate cwd_ (a ++ "/" ++ b) = step_into (locate cwd_ a) b.
Proof.
  intros Ha Hb. unfold locate.
  rewrite split_snoc, foldl_app by done. cbn [foldl].
  by rewrite startswith_slash_app.
Qed.

Lemma split_last_snoc (a b : string) :
  has_char "/" b = false -> split_last "/" (a ++ "/" ++ b) = b.
Proof.
  intros Hb. unfold split_last. rewrite split_snoc by done.
  by rewrite last_snoc.
Qed.

Lemma path_of_snoc k b :
  path_of (k ++ [b]) = (match k with [] => "" | _ => path_of k end ++ "/" ++ b)%string.
Proof.
  unfold path_of. destruct k as [|x k]; [done|].
  cbn [app]. change (x :: (k ++ [b])%list) with ((x :: k) ++ [b])%list.
  by rewrite foldl_app.
Qed.

(** The path of a place has the place's components between slashes. *)
Lemma split_path_of k :
  k <> [] -> Forall (fun b => has_char "/" b = false) k ->
  split "/" (path_of k) = "" :: k.
Proof.
  induction k as [|b k IH] using rev_ind; [done|]. intros _ Hk.
  apply Forall_app in Hk as [Hk Hb]. rewrite Forall_singleton in Hb.
  rewrite path_of_snoc. rewrite split_snoc by done.
  destruct k as [|x k]; [done|]. by rewrite IH.
Qed.

Lemma startswith_path_of k : startswith "/" (path_of k) = true.
Proof.
  induction k as [|b k IH] using rev_ind; [done|].
  rewrite path_of_snoc. destruct k as [|x k]; [done|].
  rewrite startswith_slash_app; [done|].
  intros E. by rewrite E in IH.
Qed.

(** The path of a place leads back to the place, from any working
    directory. *)
Lemma locate_path_of cwd_ k : Forall plain k -> locate cwd_ (path_of k) = k.
Proof.
  intros Hk. destruct (decide (k = [])) as [->|Hne]; [done|].
  unfold locate. rewrite startswith_path_of, split_path_of; [|done|].
  - cbn [foldl]. change (step_into [] "") with (@nil string).
    by rewrite foldl_step_into_plain.
  - eapply Forall_impl; [done|]. by intros b (_ & _ & _ & ?).
Qed.

Lemma basename_path_of k b :
  has_char "/" b = false -> basename (path_of (k ++ [b])) = b.
Proof. intros Hb. unfold basename. by rewrite path_of_snoc, split_last_snoc. Qed.

End PathMore.

Section DownloadFacts.
Import Py Capturer.
Context {rng : Type} (host : Host (rng := rng)) (args : Args).

Lemma assoc_filter_gone k (l : list (list string * file)) :
  assoc k (filter (fun kc => kc.1 <> k) l) = None.
Proof.
  induction l as [|[k' c] l IH]; [done|].
  rewrite filter_cons. cbn [fst]. case_decide; [|done].
  cbn [assoc]. by rewrite decide_False.
Qed.

Lemma assoc_filter_other k k' (l : list (list string * file)) :
  k' <> k -> assoc k' (filter (fun kc => kc.1 <> k) l) = assoc k' l.
Proof.
  intros Hne. induction l as [|[k0 c] l IH]; [done|].
  rewrite filter_cons. cbn [fst assoc]. case_decide.
  - cbn [assoc]. by rewrite IH.
  - subst. by rewrite decide_False.
Qed.

Lemma elem_of_ancestors_self k : k ∈ ancestors k.
Proof.
  unfold ancestors. apply list_elem_of_fmap. exists (length k). split.
  - by rewrite firstn_all.
  - apply elem_of_seq. lia.
Qed.

Lemma makedirs_makes path (w w1 : World rng) :
  makedirs path w = (Ok tt, w1) ->
  is_dir w1 (locate (cwd w) path) = true
  /\ files w1 = files w /\ cwd w1 = cwd w
  /\ objects w1 = objects w /\ ops w1 = ops w.
Proof.
  unfold makedirs. destruct (existsb _ _); [done|]. intros [= <-].
  repeat split. unfold is_dir, with_dirs, add_dirs. cbn [dirs].
  apply bool_decide_eq_true. apply elem_of_app.
  destruct (decide (locate (cwd w) path ∈ dirs w)); [by left|right].
  apply list_elem_of_filter. split; [done|apply elem_of_ancestors_self].
Qed.

Lemma makedirs_raises path (w w1 : World rng) e :
  makedirs path w = (Raise e, w1) -> w1 = w /\ exn_cls e = OSError.
Proof. unfold makedirs. destruct (existsb _ _); [|done]. by intros [= <- <-]. Qed.

Lemma write_file_raises path content (w w1 : World rng) e :
  write_file path content w = (Raise e, w1) -> w1 = w /\ exn_cls e = OSError.
Proof. unfold write_file. repeat case_match; try done; by intros [= <- <-]. Qed.

Lemma write_file_returns path content (w w1 : World rng) :
  write_file path content w = (Ok tt, w1) ->
  w1 = with_files ((locate (cwd w) path, content) :: files w) w
  /\ is_dir w (locate (cwd w) path) = false
  /\ is_dir w (parent_dir (locate (cwd w) path)) = true.
Proof.
  unfold write_file. repeat case_match; try done. by intros [= <-].
Qed.

Lemma abspath_returns path (w : World rng) :
  abspath path w = (Ok (path_of (locate (cwd w) path)), w).
Proof. unfold abspath, gets, path_of. by destruct (locate (cwd w) path). Qed.

(** The two names [download_object] uses for an asset. *)
Lemma download_names (url : string) cwd_ :
  let uid := object_uid_of url in
  path_join "tmp-objects" [uid ++ ".glb" ++ ".tmp"]
  = "tmp-objects" ++ "/" ++ uid ++ ".glb" ++ ".tmp"
  /\ path_join "tmp-objects" [uid ++ ".glb"] = "tmp-objects" ++ "/" ++ uid ++ ".glb"
  /\ dirname (path_join "tmp-objects" [uid ++ ".glb" ++ ".tmp"]) = "tmp-objects"
  /\ locate cwd_ (path_join "tmp-objects" [uid ++ ".glb" ++ ".tmp"])
     = (cwd_ ++ ["tmp-objects"; (uid ++ ".glb" ++ ".tmp")%string])%list
  /\ locate cwd_ (path_join "tmp-objects" [uid ++ ".glb"])
     = (cwd_ ++ ["tmp-objects"; (uid ++ ".glb")%string])%list
  /\ has_char "/" (uid ++ ".glb") = false
  /\ (3 < String.length (uid ++ ".glb"))%nat.
Proof.
  intros uid. destruct (object_uid_plain url) as [Hslash _]. fold uid in Hslash.
  assert (Hb : forall ext, has_char "/" ext = false ->
            has_char "/" (uid ++ ext) = false).
  { intros ext Hext. by rewrite has_char_app, Hslash, Hext. }
  assert (Hjoin : forall ext, has_char "/" ext = false ->
            path_join "tmp-objects" [uid ++ ext] = "tmp-objects" ++ "/" ++ uid ++ ext).
  { intros ext Hext. unfold path_join. cbn [foldl]. unfold join2.
    by rewrite (startswith_slash_no _ (Hb ext Hext)). }
  assert (Hloc : forall ext, has_char "/" ext = false ->
            (2 < String.length ext)%nat ->
            locate cwd_ (path_join "tmp-objects" [uid ++ ext])
            = (cwd_ ++ ["tmp-objects"; (uid ++ ext)%string])%list).
  { intros ext Hext Hlen. rewrite (Hjoin ext Hext).
    rewrite locate_snoc by (done || by apply Hb).
    rewrite step_into_long by (rewrite string_length_app; lia).
    change (locate cwd_ "tmp-objects") with (cwd_ ++ ["tmp-objects"])%list.
    by rewrite <- app_assoc. }
  split; [by apply Hjoin|]. split; [by apply Hjoin|]. split.
  { rewrite (Hjoin (".glb" ++ ".tmp")) by done. unfold dirname.
    rewrite split_snoc by (by apply Hb).
    change (split "/" "tmp-objects") with ["tmp-objects"].
    by rewrite removelast_last. }
  split; [apply Hloc; [done|rewrite string_length_app; cbn; lia]|].
  split; [apply Hloc; [done|cbn; lia]|].
  split; [by apply Hb|]. rewrite string_length_app. cbn. lia.
Qed.

(** X12.  A download that returns has published the asset under
    [tmp-objects/<uid>.glb] in the working directory, [<uid>] being the
    last segment of the URL up to its first dot, whatever the extension
    in the URL: the file holds what was fetched, the [.tmp] file it was
    fetched to is gone, no other file is touched, and the path returned
    is the absolute path of that file, from which [save_images] derives
    the same [<uid>]. *)
Theorem download_object_publishes url (w : World rng) p w' :
  download_object host url w = (Ok p, w') ->
  let uid := object_uid_of url in
  let place := (cwd w ++ ["tmp-objects"; (uid ++ ".glb")%string])%list in
  let fetched := (cwd w ++ ["tmp-objects"; (uid ++ ".glb" ++ ".tmp")%string])%list in
  p = path_of place
  /\ file_at w' place = Some (Download url)
  /\ file_at w' fetched = None
  /\ (forall k, k <> place -> k <> fetched -> file_at w' k = file_at w k)
  /\ is_dir w' (cwd w ++ ["tmp-objects"]) = true
  /\ cwd w' = cwd w /\ objects w' = objects w /\ ops w' = ops w
  /\ object_uid_of p = uid
  /\ endswith ".glb" p = true
  /\ (Forall plain (cwd w) -> locate (cwd w') p = place).
Proof.
  intros Hrun uid place fetched.
  destruct (download_names url (cwd w))
    as (Htmp & Hlocal & Hdir & Hks & Hkd & Hslash & Hlen).
  fold uid in Htmp, Hlocal, Hdir, Hks, Hkd, Hslash, Hlen.
  fold fetched in Hks. fold place in Hkd.
  revert Hrun. unfold download_object.
  change (split_head "." (split_last "/" url)) with uid.
  rewrite Hdir. clear Htmp Hlocal Hdir.
  remember (path_join "tmp-objects" [uid ++ ".glb" ++ ".tmp"]) as tmp_local_path.
  remember (path_join "tmp-objects" [uid ++ ".glb"]) as local_path.
  unfold bind at 1.
  destruct (makedirs "tmp-objects" w) as [[[]|e] w1] eqn:E1; [|done].
  apply makedirs_makes in E1 as (Hd1 & Hf1 & Hc1 & Ho1 & Hops1).
  change (locate (cwd w) "tmp-objects") with (cwd w ++ ["tmp-objects"])%list in Hd1.
  unfold bind at 1. destruct (urlretrieve_fault host url w1); [done|].
  destruct (write_file _ _ w1) as [[[]|e] w2] eqn:E2; [|done].
  apply write_file_returns in E2 as (-> & _ & _).
  rewrite Hc1, Hks in *.
  unfold bind at 1, rename.
  cbn [cwd with_files]. rewrite Hc1, Hks, Hkd.
  unfold file_at at 1. cbn [files with_files assoc]. rewrite decide_True by done.
  assert (Hne : place <> fetched).
  { unfold place, fetched. intros E%app_inv_head. injection E as E.
    apply (f_equal String.length) in E.
    rewrite !string_length_app in E. cbn in E. lia. }
  destruct (is_dir _ place); [done|].
  destruct (is_dir _ (parent_dir place)); [|done].
  rewrite abspath_returns. intros [= <- <-].
  cbn [cwd with_files files objects ops dirs].
  rewrite ?Hc1, ?Hkd.
  assert (Hplace : place = ((cwd w ++ ["tmp-objects"]) ++ [(uid ++ ".glb")%string])%list)
    by (unfold place; by rewrite <- app_assoc).
  split; [done|]. unfold file_at. cbn [files with_files assoc].
  split; [by rewrite decide_True|].
  split.
  { rewrite decide_False by done. rewrite filter_cons. cbn [fst].
    rewrite decide_False by (by intros ?). apply assoc_filter_gone. }
  split.
  { intros k Hk1 Hk2. rewrite decide_False by done. rewrite filter_cons. cbn [fst].
    rewrite decide_False by (by intros ?).
    rewrite assoc_filter_other by done. by rewrite Hf1. }
  split.
  { revert Hd1. unfold is_dir. by cbn [dirs with_files]. }
  repeat (split; [done|]).
  split.
  { unfold object_uid_of. rewrite Hplace, basename_path_of by done.
    unfold split_head.
    change (uid ++ ".glb") with (uid ++ String "." "glb").
    rewrite split_app_sep.
    destruct (object_uid_plain url) as [_ Hdot]. fold uid in Hdot.
    by rewrite (split_no_sep _ uid). }
  split.
  { rewrite Hplace, path_of_snoc.
    rewrite <- !string_app_assoc. apply endswith_app. }
  intros Hcwd. apply locate_path_of. unfold place.
  apply Forall_app. split; [done|].
  repeat constructor; try done.
  - intros E. apply (f_equal String.length) in E. cbn in E. lia.
  - intros E. apply (f_equal String.length) in E. cbn in E. lia.
  - intros E. apply (f_equal String.length) in E. cbn in E. lia.
Qed.


(** X13.  A download that fails has published nothing: the place
    [tmp-objects/<uid>.glb] holds what it held before, and so does
    every other place but that of the [.tmp] file; the scene and the
    log of operators are untouched. *)
Theorem failed_download_publishes_nothing url (w : World rng) e w' :
  download_object host url w = (Raise e, w') ->
  let uid := object_uid_of url in
  let place := (cwd w ++ ["tmp-objects"; (uid ++ ".glb")%string])%list in
  let fetched := (cwd w ++ ["tmp-objects"; (uid ++ ".glb" ++ ".tmp")%string])%list in
  file_at w' place = file_at w place
  /\ (forall k, k <> fetched -> file_at w' k = file_at w k)
  /\ cwd w' = cwd w /\ objects w' = objects w /\ ops w' = ops w.
Proof.
  intros Hrun uid place fetched.
  destruct (download_names url (cwd w))
    as (Htmp & Hlocal & Hdir & Hks & Hkd & Hslash & Hlen).
  fold uid in Htmp, Hlocal, Hdir, Hks, Hkd, Hslash, Hlen.
  fold fetched in Hks. fold place in Hkd.
  assert (Hne : place <> fetched).
  { unfold place, fetched. intros E%app_inv_head. injection E as E.
    apply (f_equal String.length) in E.
    rewrite !string_length_app in E. cbn in E. lia. }
  enough (H : (forall k, k <> fetched -> file_at w' k = file_at w k)
              /\ cwd w' = cwd w /\ objects w' = objects w /\ ops w' = ops w).
  { split; [|done]. by apply H. }
  revert Hrun. unfold download_object.
  change (split_head "." (split_last "/" url)) with uid.
  rewrite Hdir. clear Htmp Hlocal Hdir.
  remember (path_join "tmp-objects" [uid ++ ".glb" ++ ".tmp"]) as tmp_local_path.
  remember (path_join "tmp-objects" [uid ++ ".glb"]) as local_path.
  unfold bind at 1.
  destruct (makedirs "tmp-objects" w) as [[[]|e1] w1] eqn:E1.
  2:{ apply makedirs_raises in E1 as [-> _]. by intros [= <- <-]. }
  apply makedirs_makes in E1 as (Hd1 & Hf1 & Hc1 & Ho1 & Hops1).
  unfold bind at 1. destruct (urlretrieve_fault host url w1).
  { intros [= <- <-]. unfold file_at. by rewrite Hf1. }
  destruct (write_file _ _ w1) as [[[]|e2] w2] eqn:E2.
  2:{ apply write_file_raises in E2 as [-> _]. intros [= <- <-].
      unfold file_at. by rewrite Hf1. }
  apply write_file_returns in E2 as (-> & _ & _).
  rewrite Hc1, Hks in *.
  assert (Hw2 : forall k, k <> fetched ->
            file_at (with_files ((fetched, Download url) :: files w1) w1) k
            = file_at w k).
  { intros k Hk. unfold file_at. cbn [files with_files assoc].
    rewrite decide_False by done. by rewrite Hf1. }
  unfold bind at 1, rename.
  cbn [cwd with_files]. rewrite Hc1, Hks, Hkd.
  unfold file_at at 1. cbn [files with_files assoc]. rewrite decide_True by done.
  destruct (is_dir _ place); [by intros [= <- <-]|].
  destruct (is_dir _ (parent_dir place)); [|by intros [= <- <-]].
  by rewrite abspath_returns.
Qed.

(** X14.  When the run on a remote asset returns from the body of the
    [try], the asset it had downloaded is no longer on disk, and the
    last line printed is the "Finished" line with the local path. *)
Theorem remote_run_cleans_up (w : World rng) w' :
  startswith "http" (object_path args) = true ->
  attempt host args w = (Ok tt, w') ->
  exists p w1 seconds,
    download_object host (object_path args) w = (Ok p, w1)
    /\ file_at w' (locate (cwd w') p) = None
    /\ last (stdout w')
       = Some (String.concat " " ["Finished"; p; "in"; seconds; "seconds"]).
Proof.
  intros Hhttp. unfold attempt. rewrite Hhttp.
  unfold bind at 1.
  destruct (download_object host (object_path args) w) as [[p|e] w1]; [|done].
  unfold bind at 1.
  destruct (save_images host args p true w1) as [[[]|e] w2]; [|done].
  unfold bind at 1, gets at 1. unfold bind at 1, print, modify at 1.
  unfold remove. cbn [cwd printed].
  destruct (is_file _ _); [|done]. intros [= <-].
  exists p, w1, (elapsed host w2). split; [done|]. split.
  - unfold file_at. cbn [files with_files cwd printed]. apply assoc_filter_gone.
  - cbn [stdout with_files printed]. by rewrite last_snoc.
Qed.

End DownloadFacts.

Section DownloadRuns.
Import Py Capturer.

Lemma demo_fetched_returns :
  download_object demo_host "https://host/models/chair.glb" demo_world
  = (Ok "/work/tmp-objects/chair.glb", demo_fetched.2).
Proof. vm_compute. reflexivity. Qed.

Lemma download_object_publishes_witness :
  "/work/tmp-objects/chair.glb"
  = path_of (cwd demo_world
             ++ ["tmp-objects";
                 (object_uid_of "https://host/models/chair.glb" ++ ".glb")%string])%list.
Proof.
  exact (proj1 (download_object_publishes demo_host
                  "https://host/models/chair.glb" demo_world
                  "/work/tmp-objects/chair.glb" demo_fetched.2
                  demo_fetched_returns)).
Defined.

Lemma offline_download_raises :
  download_object offline_host "https://host/models/chair.glb" demo_world
  = (Raise (Exn OSError "<urlopen error [Errno -2] Name or service not known>"),
     (download_object offline_host "https://host/models/chair.glb" demo_world).2).
Proof. vm_compute. reflexivity. Qed.

Lemma failed_download_publishes_nothing_witness :
  file_at (download_object offline_host "https://host/models/chair.glb" demo_world).2
    (cwd demo_world
     ++ ["tmp-objects";
         (object_uid_of "https://host/models/chair.glb" ++ ".glb")%string])%list
  = file_at demo_world
      (cwd demo_world
       ++ ["tmp-objects";
           (object_uid_of "https://host/models/chair.glb" ++ ".glb")%string])%list.
Proof.
  exact (proj1 (failed_download_publishes_nothing offline_host
                  "https://host/models/chair.glb" demo_world
                  (Exn OSError "<urlopen error [Errno -2] Name or service not known>")
                  (download_object offline_host "https://host/models/chair.glb"
                     demo_world).2
                  offline_download_raises)).
Defined.

Lemma remote_attempt_returns :
  attempt demo_host remote_args demo_world
  = (Ok tt, (attempt demo_host remote_args demo_world).2).
Proof. vm_compute. reflexivity. Qed.

Lemma remote_run_cleans_up_witness :
  exists p w1 seconds,
    download_object demo_host (object_path remote_args) demo_world = (Ok p, w1)
    /\ file_at (attempt demo_host remote_args demo_world).2
         (locate (cwd (attempt demo_host remote_args demo_world).2) p) = None
    /\ last (stdout (attempt demo_host remote_args demo_world).2)
       = Some (String.concat " " ["Finished"; p; "in"; seconds; "seconds"]).
Proof.
  exact (remote_run_cleans_up demo_host remote_args demo_world
           (attempt demo_host remote_args demo_world).2
           eq_refl remote_attempt_returns).
Defined.

End DownloadRuns.

(** ** Manifests *)

Section ManifestFacts.
Import Py Capturer.
Context {rng : Type} (host : Host (rng := rng)) (args : Args).

Lemma bind_returns {A B} (m : M (rng := rng) A) (k : A -> M (rng := rng) B) w b w' :
  bind m k w = (Ok b, w') ->
  exists a w1, m w = (Ok a, w1) /\ k a w1 = (Ok b, w').
Proof.
  unfold bind. destruct (m w) as [[a|e] w1]; [|done]. intros H. by exists a, w1.
Qed.

Lemma string_app_slash_nonempty (a b : string) : (a ++ "/" ++ b)%string <> "".
Proof.
  intros E. apply (f_equal String.length) in E.
  rewrite !string_length_app in E. cbn in E. lia.
Qed.

(** The manifest of a split lies in the directory of the asset. *)
Lemma locate_manifest cwd_ (uid mode : string) :
  mode ∈ ["train"; "val"; "test"] ->
  locate cwd_ (output_dir args ++ "/" ++ uid ++ "/transforms_" ++ mode ++ ".json")
  = (locate cwd_ (output_dir args ++ "/" ++ uid)
     ++ [("transforms_" ++ mode ++ ".json")%string])%list.
Proof.
  intros Hmode.
  assert (has_char "/" ("transforms_" ++ mode ++ ".json") = false
          /\ (2 < String.length ("transforms_" ++ mode ++ ".json"))%nat) as [Hs Hl].
  { repeat (apply elem_of_cons in Hmode as [-> | Hmode]);
      [split; [by vm_compute|vm_compute; lia]..|].
    by apply elem_of_nil in Hmode. }
  replace (output_dir args ++ "/" ++ uid ++ "/transforms_" ++ mode ++ ".json")
    with ((output_dir args ++ "/" ++ uid) ++ "/" ++ ("transforms_" ++ mode ++ ".json")).
  - rewrite locate_snoc by (done || apply string_app_slash_nonempty).
    by apply step_into_long.
  - by rewrite !string_app_assoc.
Qed.

(** Where [save_images] looks for the manifest of the training split is
    where it writes it, when the output directory is not the empty
    path. *)
Lemma locate_train_manifest_written cwd_ object_file :
  output_dir args <> "" ->
  locate cwd_ (train_manifest args object_file)
  = locate cwd_ (output_dir args ++ "/" ++ object_uid_of object_file
                 ++ "/transforms_" ++ "train" ++ ".json").
Proof.
  intros Hout. destruct (object_uid_plain object_file) as [Hslash _].
  rewrite locate_manifest by (by left).
  unfold train_manifest, path_join. cbn [foldl].
  rewrite locate_join2 by done. rewrite locate_join2 by done.
  rewrite locate_snoc by done.
  by rewrite (step_into_long _ "transforms_train.json") by (cbn; lia).
Qed.

Lemma save_poses_unfold uid angle width_ height_ fr (w : World rng) :
  save_poses args uid angle width_ height_ fr w
  = (write_file (output_dir args ++ "/" ++ uid ++ "/transforms_" ++ "train" ++ ".json")
       (Json {| camera_angle_x := angle; width := width_; height := height_;
                frames := fr !!! "train" |}) ;;
     write_file (output_dir args ++ "/" ++ uid ++ "/transforms_" ++ "val" ++ ".json")
       (Json {| camera_angle_x := angle; width := width_; height := height_;
                frames := fr !!! "val" |}) ;;
     write_file (output_dir args ++ "/" ++ uid ++ "/transforms_" ++ "test" ++ ".json")
       (Json {| camera_angle_x := angle; width := width_; height := height_;
                frames := fr !!! "test" |}) ;;
     ret tt) w.
Proof.
  unfold save_poses. cbn [for_each]. unfold bind.
  repeat (destruct (write_file _ _ _) as [[[]|?] ?]; [|done]). done.
Qed.

(** X15.  A call of [save_images] that returns leaves the manifest of
    the training split on disk, where the next call looks for it: with
    an output directory that is not the empty path, the next call on
    the same asset finds the asset rendered. *)
Theorem returned_run_is_resumable object_file save_mesh (w : World rng) w' :
  output_dir args <> "" ->
  save_images host args object_file save_mesh w = (Ok tt, w') ->
  path_exists (train_manifest args object_file) w' = (Ok true, w').
Proof.
  intros Hout. unfold save_images.
  intros (_ & w1 & _ & H)%bind_returns.
  apply bind_returns in H as (rendered & w1' & Hfound & H).
  unfold path_exists, gets in Hfound. injection Hfound as <- <-.
  destruct (is_file w1 _ || is_dir w1 _) eqn:Hrendered.
  { injection H as <-. unfold path_exists, gets. by rewrite Hrendered. }
  do 9 (apply bind_returns in H as (? & ? & _ & H)).
  apply bind_returns in H as (frames_ & w5 & _ & H).
  apply bind_returns in H as ([] & w6 & Hposes & Htail).
  assert (Hkeep : keeps_files w6 w').
  { destruct save_mesh.
    - by eapply steady_export_mesh.
    - injection Htail as <-. apply keeps_files_refl. }
  destruct Hkeep as (Hcwd & Hfiles & _).
  rewrite save_poses_unfold in Hposes.
  apply bind_returns in Hposes as ([] & w5' & Hwrite & Hrest).
  assert (Hkeep' : keeps_files w5' w6).
  { revert Hrest. repeat (apply steady_bind; [apply steady_write_file|intros _]).
    apply steady_ret. }
  destruct Hkeep' as (Hcwd' & Hfiles' & _).
  apply write_file_returns in Hwrite as (-> & _ & _).
  cbn [cwd with_files] in Hcwd'.
  unfold path_exists, gets. f_equal.
  rewrite locate_train_manifest_written by done.
  rewrite Hcwd, Hcwd'.
  unfold is_file. rewrite bool_decide_eq_true_2; [done|].
  apply Hfiles, Hfiles'. unfold file_at. cbn [files with_files assoc].
  rewrite decide_True by done. by eexists.
Qed.

(** X16.  An asset whose name ends neither in [.glb] nor in [.fbx] is
    never imported nor rendered: [save_images] ends without having
    written a file or called an operator of the host, either because
    the asset counts as rendered, or with the [OSError] of [makedirs],
    or with the [ValueError] of [load_object]. *)
Theorem unsupported_asset_renders_nothing object_file save_mesh (w : World rng) r w' :
  endswith ".glb" object_file = false ->
  endswith ".fbx" object_file = false ->
  save_images host args object_file save_mesh w = (r, w') ->
  files w' = files w /\ ops w' = ops w
  /\ (r = Ok tt /\ path_exists (train_manifest args object_file) w' = (Ok true, w')
      \/ exists e, r = Raise e
           /\ (exn_cls e = OSError
               \/ e = Exn ValueError ("Unsupported file type: " ++ object_file))).
Proof.
  intros Hglb Hfbx. unfold save_images. unfold bind at 1.
  destruct (makedirs (output_dir args) w) as [[[]|e] w1] eqn:E1.
  2:{ apply makedirs_raises in E1 as [-> ?]. intros [= <- <-].
      repeat split; try done. right. exists e. by split; [|left]. }
  apply makedirs_makes in E1 as (_ & Hf1 & Hc1 & Ho1 & Hops1).
  unfold bind at 1, path_exists at 1, gets at 1.
  destruct (is_file w1 _ || is_dir w1 _) eqn:Hrendered.
  { intros [= <- <-]. repeat split; try done. left. split; [done|].
    unfold path_exists, gets. by rewrite Hrendered. }
  unfold bind at 1, reset_scene, modify at 1.
  unfold bind at 1, load_object. rewrite Hglb, Hfbx. unfold raise.
  intros [= <- <-]. cbn [files ops with_objects]. repeat split; try done.
  right. eexists. split; [done|]. by right.
Qed.

End ManifestFacts.


Section PosesFacts.
Import Py Capturer.
Context {rng : Type} (host : Host (rng := rng)) (args : Args).

(** X17.  The three manifests are written into the directory of the
    asset, in the order train, val, test, each with the camera angle,
    the width and the height given and with the frames of its own
    split; nothing else is touched.  When that directory does not exist
    the first write fails and nothing is written. *)
Theorem save_poses_writes_three uid angle width_ height_ fr (w : World rng) :
  let d := locate (cwd w) (output_dir args ++ "/" ++ uid) in
  let manifest mode := (d ++ [("transforms_" ++ mode ++ ".json")%string])%list in
  let doc mode :=
    Json {| camera_angle_x := angle; width := width_; height := height_;
            frames := fr !!! mode |} in
  (is_dir w d = false ->
   exists e, save_poses args uid angle width_ height_ fr w = (Raise e, w)
             /\ exn_cls e = OSError)
  /\ (is_dir w d = true ->
      Forall (fun mode => is_dir w (manifest mode) = false) ["train"; "val"; "test"] ->
      exists w',
        save_poses args uid angle width_ height_ fr w = (Ok tt, w')
        /\ files w'
           = ([(manifest "test", doc "test"); (manifest "val", doc "val");
               (manifest "train", doc "train")] ++ files w)%list
        /\ Forall (fun mode => file_at w' (manifest mode) = Some (doc mode))
                  ["train"; "val"; "test"]
        /\ dirs w' = dirs w /\ cwd w' = cwd w
        /\ objects w' = objects w /\ ops w' = ops w).
Proof.
  intros d manifest doc.
  assert (Hloc : forall mode, mode ∈ ["train"; "val"; "test"] ->
            locate (cwd w) (output_dir args ++ "/" ++ uid ++ "/transforms_" ++ mode ++ ".json")
            = manifest mode).
  { intros mode Hmode. by rewrite locate_manifest. }
  assert (Hparent : forall mode, parent_dir (manifest mode) = d).
  { intros mode. unfold parent_dir, manifest. apply removelast_last. }
  rewrite save_poses_unfold. split.
  - intros Hd. unfold bind at 1, write_file at 1.
    rewrite (Hloc "train") by (by left).
    rewrite Hparent, Hd.
    destruct (is_dir w (manifest "train")); eexists; by split.
  - intros Hd Hfree.
    apply Forall_cons in Hfree as [Htrain Hfree].
    apply Forall_cons in Hfree as [Hval Hfree].
    apply Forall_cons in Hfree as [Htest _].
    assert (Hwrite : forall mode (w0 : World rng), mode ∈ ["train"; "val"; "test"] ->
              cwd w0 = cwd w -> dirs w0 = dirs w ->
              write_file (output_dir args ++ "/" ++ uid ++ "/transforms_" ++ mode ++ ".json")
                (doc mode) w0
              = (Ok tt, with_files ((manifest mode, doc mode) :: files w0) w0)).
    { intros mode w0 Hmode Hc Hdirs. unfold write_file. rewrite Hc, (Hloc mode Hmode).
      unfold is_dir. rewrite Hdirs. fold (is_dir w (manifest mode)).
      assert (is_dir w (manifest mode) = false) as ->.
      { repeat (apply elem_of_cons in Hmode as [-> | Hmode]); try done.
        by apply elem_of_nil in Hmode. }
      rewrite Hparent. fold (is_dir w d). by rewrite Hd. }
    unfold bind at 1. rewrite (Hwrite "train") by (done || by left).
    unfold bind at 1. rewrite (Hwrite "val") by (done || by right; left).
    unfold bind at 1. rewrite (Hwrite "test") by (done || by right; right; left).
    unfold ret. eexists. split; [done|].
    cbn [files dirs cwd objects ops with_files]. split; [done|].
    split; [|done].
    assert (Hne : forall a b : string, a <> b ->
              (d ++ [a])%list <> (d ++ [b])%list).
    { intros a b Hab E%app_inv_head. by injection E. }
    unfold file_at. cbn [files with_files assoc].
    repeat constructor.
    + rewrite decide_False by (by apply Hne).
      rewrite decide_False by (by apply Hne). by rewrite decide_True.
    + rewrite decide_False by (by apply Hne). by rewrite decide_True.
    + by rewrite decide_True.
Qed.

End PosesFacts.

(** ** The command line *)

Section ArgumentFacts.
Import Py Capturer.

Lemma after_dashes_missing sys_argv :
  "--" ∉ sys_argv ->
  after_dashes sys_argv = Raise (Exn ValueError "'--' is not in list").
Proof.
  induction sys_argv as [|a rest IH]; [done|]. intros Hnot.
  apply not_elem_of_cons in Hnot as [Ha Hrest]. cbn [after_dashes].
  destruct (String.eqb a "--") eqn:E; [by apply String.eqb_eq in E|by apply IH].
Qed.

Lemma after_dashes_first before after :
  "--" ∉ before -> after_dashes (before ++ "--" :: after) = Ok after.
Proof.
  induction before as [|a rest IH]; [done|]. intros Hnot.
  apply not_elem_of_cons in Hnot as [Ha Hrest]. cbn [after_dashes app].
  destruct (String.eqb a "--") eqn:E; [by apply String.eqb_eq in E|by apply IH].
Qed.

(** X18.  The script reads its own arguments after the first [--] of
    the command line and ignores what stands before it; on a command
    line without [--] it stops with the [ValueError] of [list.index]
    before it has parsed or done anything. *)
Theorem script_reads_after_dashes {rng} (host : Host (rng := rng)) (w : World rng) :
  (forall sys_argv, "--" ∉ sys_argv ->
     script host sys_argv w = (Raise (Exn ValueError "'--' is not in list"), w))
  /\ (forall before after, "--" ∉ before ->
        script host (before ++ "--" :: after) w = script host ("--" :: after) w).
Proof.
  split.
  - intros sys_argv Hnot. unfold script. by rewrite after_dashes_missing.
  - intros before after Hnot. unfold script. by rewrite after_dashes_first.
Qed.







End ArgumentFacts.

(** ** The render loop and the import *)

Section LoopFacts.
Import Py Capturer.
Context {rng : Type} (host : Host (rng := rng)) (args : Args).

Lemma mode_of_mod i :
  (mode_of i = "train" <-> i mod 3 = 0)
  /\ (mode_of i = "val" <-> i mod 3 = 1)
  /\ (mode_of i = "test" <-> i mod 3 = 2).
Proof.
  unfold mode_of. pose proof (Z.mod_pos_bound i 3 ltac:(lia)).
  destruct (i mod 3 =? 2) eqn:E2; [|destruct (i mod 3 =? 1) eqn:E1];
    repeat split; try done; lia.
Qed.

Lemma count_zip {A B} (P : A -> Prop) `{forall x, Decision (P x)} (l : list A) :
  forall poses : list B, length poses = length l ->
    length (filter (fun ip => P ip.1) (zip l poses)) = length (filter P l).
Proof.
  induction l as [|x l IH]; intros [|p poses] Hlen; try done.
  cbn [zip zip_with]. rewrite !filter_cons. cbn [fst].
  injection Hlen as Hlen. case_decide; cbn [length]; by rewrite IH.
Qed.

(** Of the first [k] indices, those that leave [r] when divided by 3. *)
Lemma count_residue (r : Z) (k : nat) :
  0 <= r < 3 ->
  length (filter (fun i => i mod 3 = r) (map Z.of_nat (seq 0 k)))
  = Z.to_nat ((Z.of_nat k + 2 - r) / 3).
Proof.
  intros Hr. induction k as [|k IH].
  - cbn [seq map filter length]. symmetry.
    assert ((Z.of_nat 0 + 2 - r) / 3 = 0) as ->; [|done].
    apply Z.div_small. lia.
  - rewrite seq_S, map_app, filter_app, length_app, IH. cbn [map Nat.add].
    rewrite filter_cons, filter_nil.
    pose proof (Z.div_mod (Z.of_nat k + 2 - r) 3 ltac:(lia)).
    pose proof (Z.mod_pos_bound (Z.of_nat k + 2 - r) 3 ltac:(lia)).
    pose proof (Z.div_mod (Z.of_nat (S k) + 2 - r) 3 ltac:(lia)).
    pose proof (Z.mod_pos_bound (Z.of_nat (S k) + 2 - r) 3 ltac:(lia)).
    pose proof (Z.div_mod (Z.of_nat k) 3 ltac:(lia)).
    pose proof (Z.mod_pos_bound (Z.of_nat k) 3 ltac:(lia)).
    case_decide; cbn [length]; lia.
Qed.

(** X20.  When the render loop returns, the three splits share the
    frames as evenly as round-robin allows: train holds the frames 0, 3,
    6, ..., val the frames 1, 4, 7, ..., test the frames 2, 5, 8, ...,
    so of [num_images] frames train gets the third rounded up and test
    the third rounded down. *)
Theorem split_sizes uid cam (w : World rng) fr' w' :
  for_each (range (num_images args)) (render_frame host args uid cam) no_frames w
    = (Ok fr', w') ->
  length (fr' !!! "train") = Z.to_nat ((num_images args + 2) / 3)
  /\ length (fr' !!! "val") = Z.to_nat ((num_images args + 1) / 3)
  /\ length (fr' !!! "test") = Z.to_nat (num_images args / 3).
Proof.
  intros Hloop.
  destruct (render_loop_ok host args uid cam _ _ _ _ _ Hloop)
    as (poses & Hlen & Hfr & _).
  assert (Hcount : forall mode r, mode ∈ ["train"; "val"; "test"] -> 0 <= r < 3 ->
            (forall i, mode_of i = mode <-> i mod 3 = r) ->
            length (fr' !!! mode) = Z.to_nat ((num_images args + 2 - r) / 3)).
  { intros mode r Hmode Hr Hiff.
    rewrite lookup_total_alt, Hfr, (no_frames_lookup mode Hmode).
    cbn [fmap option_fmap option_map default app].
    unfold id. rewrite length_map.
    etrans; [exact (count_zip (fun i => mode_of i = mode) _ poses Hlen)|].
    rewrite (filter_ext_in _ (fun i => i mod 3 = r)) by (intros; apply Hiff).
    unfold range. rewrite count_residue by done.
    destruct (decide (0 <= num_images args)) as [Hn|Hn].
    - by rewrite Z2Nat.id.
    - replace (Z.to_nat (num_images args)) with 0%nat by lia.
      pose proof (Z.div_mod (num_images args + 2 - r) 3 ltac:(lia)).
      pose proof (Z.mod_pos_bound (num_images args + 2 - r) 3 ltac:(lia)).
      assert ((Z.of_nat 0 + 2 - r) / 3 = 0) as -> by (apply Z.div_small; lia).
      lia. }
  split; [|split].
  - rewrite (Hcount "train" 0); [by rewrite Z.sub_0_r| by left | lia |].
    intros i. apply mode_of_mod.
  - rewrite (Hcount "val" 1); [f_equal; f_equal; lia | by right; left | lia |].
    intros i. apply mode_of_mod.
  - rewrite (Hcount "test" 2); [f_equal; f_equal; lia | by right; right; left | lia |].
    intros i. apply mode_of_mod.
Qed.

(** X21.  After [reset_scene] and [load_object] the meshes of the scene
    are those the importer made of this asset and no other: what was
    there before is gone but for cameras and lights, the importer
    chosen by the ending of the name was called once, and the objects
    it created are linked to the scene. *)
Theorem import_replaces_scene object_file (w : World rng) w' :
  (reset_scene ;; load_object host object_file) w = (Ok tt, w') ->
  exists o objs,
    (o = ImportGltf object_file /\ endswith ".glb" object_file = true
     \/ o = ImportFbx object_file /\ endswith ".glb" object_file = false
        /\ endswith ".fbx" object_file = true)
    /\ objects w'
       = (filter (fun x => type x = CAMERA \/ type x = LIGHT) (objects w)
          ++ map (set_linked true) objs)%list
    /\ scene_meshes w'
       = filter (fun x => type x = MESH) (map (set_linked true) objs)
    /\ ops w' = (ops w ++ [o])%list.
Proof.
  unfold bind, reset_scene, modify, load_object.
  set (w0 := with_objects _ w).
  assert (Himport : forall o, import_scene host o w0 = (Ok tt, w') ->
            exists objs,
              objects w'
              = (filter (fun x => type x = CAMERA \/ type x = LIGHT) (objects w)
                 ++ map (set_linked true) objs)%list
              /\ scene_meshes w'
                 = filter (fun x => type x = MESH) (map (set_linked true) objs)
              /\ ops w' = (ops w ++ [o])%list).
  { intros o. unfold import_scene.
    destruct (imported host o w0) as [objs|e]; [|done]. intros [= <-].
    exists objs. split; [done|]. split; [|done].
    unfold scene_meshes, scene_objects. cbn [objects logged with_objects w0].
    rewrite !filter_app. rewrite list_filter_filter.
    rewrite (filter_none _ (filter _ (objects w))).
    2:{ intros x [Hx _]%list_elem_of_filter [Hmesh _]. destruct Hx; congruence. }
    cbn [app]. f_equal.
    induction objs as [|x objs IH]; [done|].
    cbn [map]. rewrite !filter_cons. cbn [linked set_linked].
    rewrite decide_True by done. by rewrite IH. }
  destruct (endswith ".glb" object_file) eqn:Hglb.
  - intros (objs & H1 & H2 & H3)%Himport. exists (ImportGltf object_file), objs.
    split; [by left|done].
  - destruct (endswith ".fbx" object_file) eqn:Hfbx; [|done].
    intros (objs & H1 & H2 & H3)%Himport. exists (ImportFbx object_file), objs.
    split; [by right|done].
Qed.

End LoopFacts.

(** ** Labels *)

Section NumeralFacts.
Import Py.

Abbreviation la := list_ascii_of_string.

Lemma la_app (a b : string) : la (a ++ b) = (la a ++ la b)%list.
Proof.
  induction a as [|c a IH]; [by rewrite string_app_nil_l|].
  rewrite string_app_cons. cbn [list_ascii_of_string app]. by rewrite IH.
Qed.

Lemma la_inj (a b : string) : la a = la b -> a = b.
Proof.
  intros H. apply (f_equal string_of_list_ascii) in H.
  by rewrite !string_of_list_ascii_of_string in H.
Qed.

Lemma string_app_inv_tail (a b c : string) :
  (a ++ c = b ++ c)%string -> a = b.
Proof.
  intros H. apply la_inj. apply (f_equal la) in H. rewrite !la_app in H.
  by apply app_inv_tail in H.
Qed.

Lemma has_char_la c (s : string) : has_char c s = true <-> c ∈ la s.
Proof.
  induction s as [|d s IH]; cbn [has_char list_ascii_of_string].
  - split; [done|]. by intros ?%elem_of_nil.
  - rewrite orb_true_iff, IH, elem_of_cons, Ascii.eqb_eq.
    split; (intros [H | H]; [by left|by right]).
Qed.

(** A digit is no white space, no sign and no slash. *)
Lemma digit_plain c v :
  digit c = Some v ->
  0 <= v < 10 /\ is_space c = false
  /\ Ascii.eqb c "-" = false /\ Ascii.eqb c "+" = false /\ c <> "/"%char.
Proof.
  unfold digit, is_space.
  destruct ((48 <=? nat_of_ascii c)%nat && (nat_of_ascii c <=? 57)%nat) eqn:E; [|done].
  apply andb_true_iff in E as [E1%Nat.leb_le E2%Nat.leb_le]. intros [= <-].
  split; [lia|]. split.
  { apply orb_false_iff. split.
    - apply andb_false_iff. right. apply Nat.leb_gt. lia.
    - apply Nat.eqb_neq. lia. }
  repeat split.
  - apply Ascii.eqb_neq. intros ->. vm_compute in E1. lia.
  - apply Ascii.eqb_neq. intros ->. vm_compute in E1. lia.
  - intros ->. vm_compute in E1. lia.
Qed.

Lemma digit_pretty_N_char (d : N) :
  (d < 10)%N -> digit (pretty_N_char d) = Some (Z.of_N d).
Proof.
  intros H.
  assert (d = 0 \/ d = 1 \/ d = 2 \/ d = 3 \/ d = 4 \/ d = 5 \/ d = 6 \/ d = 7
          \/ d = 8 \/ d = 9)%N as Hd by lia.
  repeat (destruct Hd as [-> | Hd]; [done|]). by subst.
Qed.

Lemma number_app ds ds' acc : number (ds ++ ds') acc = number ds' (number ds acc).
Proof. unfold number. by rewrite foldl_app. Qed.

Lemma number_zeros n : number (repeat "0"%char n) 0 = 0.
Proof. induction n as [|n IH]; [done|]. cbn [repeat]. by rewrite <- IH at 2. Qed.

(** [digits] reads a run of digits as [number] does. *)
Lemma digits_number ds : forall rest after_digit acc,
  Forall (fun c => is_Some (digit c)) ds -> ds <> [] ->
  digits (ds ++ rest) after_digit acc = digits rest true (number ds acc).
Proof.
  induction ds as [|c ds IH]; intros rest b acc Hds Hne; [done|].
  apply Forall_cons in Hds as [[v Hv] Hds].
  cbn [app digits]. rewrite Hv.
  destruct ds as [|c' ds'].
  - cbn. by rewrite Hv.
  - rewrite IH by done. unfold number. cbn [foldl]. by rewrite Hv.
Qed.

(** The digits [pretty] prints for a positive number. *)
Lemma pretty_N_go_digits (x : N) :
  (0 < x)%N ->
  exists ds,
    (forall s, la (pretty_N_go x s) = (ds ++ la s)%list)
    /\ Forall (fun c => is_Some (digit c)) ds /\ ds <> []
    /\ number ds 0 = Z.of_N x.
Proof.
  induction (N.lt_wf_0 x) as [x _ IH]. intros Hx.
  assert (Hd : digit (pretty_N_char (x `mod` 10)) = Some (Z.of_N (x `mod` 10))).
  { apply digit_pretty_N_char. by apply N.mod_lt. }
  destruct (decide (x `div` 10 = 0)%N) as [Hsmall|Hbig].
  - exists [pretty_N_char (x `mod` 10)]. split; [|split; [|split]].
    + intros s. by rewrite pretty_N_go_step, Hsmall, pretty_N_go_0.
    + constructor; [by eexists|constructor].
    + done.
    + unfold number. cbn [foldl]. rewrite Hd. cbn [default].
      unfold id. pose proof (N.div_mod' x 10). lia.
  - destruct (IH (x `div` 10)%N) as (ds & Hla & Hds & Hne & Hnum).
    { apply N.div_lt; lia. }
    { by apply N.neq_0_lt_0. }
    exists (ds ++ [pretty_N_char (x `mod` 10)])%list. split; [|split; [|split]].
    + intros s. rewrite pretty_N_go_step, Hla by done.
      cbn [list_ascii_of_string]. by rewrite <- app_assoc.
    + apply Forall_app. split; [done|]. constructor; [by eexists|constructor].
    + by destruct ds.
    + rewrite number_app, Hnum. unfold number. cbn [foldl]. rewrite Hd.
      cbn [default]. unfold id. pose proof (N.div_mod' x 10). lia.
Qed.

(** What [str] prints: a minus sign for a negative number, then the
    digits of its absolute value. *)
Lemma str_digits (i : Z) :
  exists ds,
    Forall (fun c => is_Some (digit c)) ds /\ ds <> []
    /\ number ds 0 = Z.abs i
    /\ la (str i) = ((if i <? 0 then ["-"%char] else []) ++ ds)%list.
Proof.
  assert (Hpos : forall p, exists ds,
            Forall (fun c => is_Some (digit c)) ds /\ ds <> []
            /\ number ds 0 = Z.pos p
            /\ la (pretty (N.pos p)) = ds).
  { intros p. destruct (pretty_N_go_digits (N.pos p)) as (ds & Hla & ? & ? & ?); [lia|].
    exists ds. repeat split; try done.
    unfold pretty, pretty_N. rewrite decide_False by done.
    rewrite Hla. apply app_nil_r. }
  destruct i as [|p|p].
  - exists ["0"%char]. repeat split; try done. constructor; [by eexists|constructor].
  - destruct (Hpos p) as (ds & ? & ? & ? & ?). by exists ds.
  - destruct (Hpos p) as (ds & ? & ? & ? & Hla). exists ds.
    repeat split; try done.
    unfold str, pretty, pretty_Z.
    change ("-" +:+ pretty p) with (String "-" (pretty (N.pos p))).
    cbn [list_ascii_of_string]. by rewrite Hla.
Qed.

(** [zfill] puts zeros between the sign and the digits. *)
Lemma zfill_str_digits width (i : Z) :
  exists ds,
    Forall (fun c => is_Some (digit c)) ds /\ ds <> []
    /\ number ds 0 = Z.abs i
    /\ la (zfill width (str i)) = ((if i <? 0 then ["-"%char] else []) ++ ds)%list.
Proof.
  destruct (str_digits i) as (ds & Hds & Hne & Hnum & Hla).
  set (n := (width - String.length (str i))%nat).
  exists (repeat "0"%char n ++ ds)%list.
  assert (Hzeros : Forall (fun c => is_Some (digit c)) (repeat "0"%char n)).
  { apply Forall_forall. intros c ->%list_elem_of_In%repeat_spec. by eexists. }
  split; [by apply Forall_app|]. split; [by destruct (repeat "0"%char n), ds|].
  split; [by rewrite number_app, number_zeros|].
  unfold zfill. fold n.
  destruct (str i) as [|c s] eqn:Hstr.
  { destruct (i <? 0); by destruct ds. }
  cbn [list_ascii_of_string] in Hla.
  destruct (i <? 0) eqn:Hneg.
  - injection Hla as -> Hla. cbn [Ascii.eqb orb Bool.eqb].
    change (Ascii.eqb "-" "-" || Ascii.eqb "-" "+") with true. cbv iota.
    cbn [list_ascii_of_string app]. f_equal.
    by rewrite la_app, list_ascii_of_string_of_list_ascii, Hla.
  - destruct ds as [|c' ds']; [done|]. injection Hla as -> Hla.
    apply Forall_cons in Hds as [[v Hv] _].
    destruct (digit_plain _ _ Hv) as (_ & _ & -> & -> & _). cbn [orb].
    rewrite la_app, list_ascii_of_string_of_list_ascii.
    cbn [list_ascii_of_string app]. by rewrite Hla.
Qed.

Lemma strip_plain (l : list ascii) :
  Forall (fun c => is_space c = false) l -> strip l = l.
Proof.
  intros Hl. unfold strip.
  assert (Hdrop : forall l0, Forall (fun c => is_space c = false) l0 ->
            (fix go (l : list ascii) : list ascii :=
               match l with
               | [] => []
               | c :: l' => if is_space c then go l' else l
               end) l0 = l0).
  { intros [|c l0] H0; [done|]. apply Forall_cons in H0 as [-> _]. done. }
  rewrite (Hdrop l Hl), Hdrop, rev_involutive; [done|].
  apply Forall_forall. intros c Hc%list_elem_of_In%in_rev%list_elem_of_In.
  rewrite Forall_forall in Hl. by apply Hl.
Qed.

(** The label of a frame reads back as its index. *)
Lemma int_zfill_str width (i : Z) : int (zfill width (str i)) = Some i.
Proof.
  destruct (zfill_str_digits width i) as (ds & Hds & Hne & Hnum & Hla).
  unfold int. rewrite Hla.
  assert (Hread : digits ds false 0 = Some (Z.abs i)).
  { rewrite <- (app_nil_r ds), digits_number by done. cbn. by rewrite Hnum. }
  rewrite strip_plain.
  2:{ apply Forall_app. split.
      - destruct (i <? 0); by repeat constructor.
      - eapply Forall_impl; [exact Hds|]. intros c [v Hv].
        by destruct (digit_plain _ _ Hv) as (_ & ? & _). }
  destruct (i <? 0) eqn:Hneg; cbn [app].
  - change (Ascii.eqb "-" "-") with true. cbv iota. rewrite Hread.
    cbn. f_equal. lia.
  - destruct ds as [|c ds']; [done|].
    apply Forall_cons in Hds as [[v Hv] Hds'].
    destruct (digit_plain _ _ Hv) as (_ & _ & -> & -> & _).
    rewrite Hread. f_equal. lia.
Qed.

Lemma zfill_str_no_slash width (i : Z) :
  has_char "/" (zfill width (str i)) = false.
Proof.
  destruct (zfill_str_digits width i) as (ds & Hds & _ & _ & Hla).
  apply not_true_is_false. rewrite has_char_la, Hla.
  intros [Hin | Hin]%elem_of_app.
  - destruct (i <? 0); [|by apply elem_of_nil in Hin].
    by apply list_elem_of_singleton in Hin.
  - rewrite Forall_forall in Hds. destruct (Hds _ Hin) as [v Hv].
    by destruct (digit_plain _ _ Hv) as (_ & _ & _ & _ & ?).
Qed.

Lemma basename_join2 (a b : string) :
  has_char "/" b = false -> basename (join2 a b) = b.
Proof.
  intros Hb. unfold basename, join2. rewrite (startswith_slash_no _ Hb).
  destruct (String.eqb a "") eqn:Ea.
  - apply String.eqb_eq in Ea as ->. cbn [orb]. rewrite string_app_nil_l.
    unfold split_last. by rewrite (split_no_sep _ _ Hb).
  - cbn [orb]. destruct (endswith "/" a) eqn:Es.
    + apply endswith_slash in Es as [a' ->].
      rewrite string_app_assoc. by apply split_last_snoc.
    + by apply split_last_snoc.
Qed.

End NumeralFacts.

Section LabelFacts.
Import Py Capturer.
Context {rng : Type} (host : Host (rng := rng)) (args : Args).

(** X22.  A frame can be told from its label and from its image: the
    digits of a label read back as the index of the frame, so two pose
    records with one label are records of the same frame in the same
    split, and two frames rendered to one path are the same frame.  No
    frame overwrites the image or shares the label of another. *)
Theorem frame_label_identifies_frame :
  (forall i, int (zfill 3 (str i)) = Some i)
  /\ (forall pos rt i mode pos' rt' j mode',
        mode ∈ ["train"; "val"; "test"] -> mode' ∈ ["train"; "val"; "test"] ->
        file_path (get_frame_poses host pos rt i mode)
        = file_path (get_frame_poses host pos' rt' j mode') ->
        i = j /\ mode = mode')
  /\ (forall uid i j, render_path args uid i = render_path args uid j -> i = j).
Proof.
  assert (Hinj : forall i j, zfill 3 (str i) = zfill 3 (str j) -> i = j).
  { intros i j E. apply (f_equal int) in E. rewrite !int_zfill_str in E.
    by injection E. }
  split; [apply int_zfill_str|]. split.
  - intros pos rt i mode pos' rt' j mode' Hm Hm'. cbn [file_path get_frame_poses].
    intros E. pose proof (label_split _ _ _ _ Hm Hm' E) as <-.
    split; [|done]. apply Hinj.
    apply (f_equal list_ascii_of_string) in E. rewrite !la_app in E.
    apply app_inv_head in E. cbn [list_ascii_of_string] in E.
    injection E as E. by apply la_inj.
  - intros uid i j E. apply (f_equal basename) in E.
    unfold render_path, path_join in E. cbn [foldl] in E.
    assert (Hb : forall k, has_char "/" (zfill 3 (str k) ++ ".png") = false).
    { intros k. by rewrite has_char_app, zfill_str_no_slash. }
    rewrite !basename_join2 in E by done.
    by apply string_app_inv_tail, Hinj in E.
Qed.

End LabelFacts.

(** ** More runs *)

Section MoreRuns.
Import Py Capturer.

Lemma normalize_cube_returns :
  normalize_scene (5 # 2) cube_scene
  = (Ok tt, (normalize_scene (5 # 2) cube_scene).2).
Proof. vm_compute. reflexivity. Qed.

Lemma normalize_scene_frame_witness :
  files (normalize_scene (5 # 2) cube_scene).2 = files cube_scene
  /\ dirs (normalize_scene (5 # 2) cube_scene).2 = dirs cube_scene
  /\ cwd (normalize_scene (5 # 2) cube_scene).2 = cwd cube_scene
  /\ active (normalize_scene (5 # 2) cube_scene).2 = active cube_scene
  /\ render (normalize_scene (5 # 2) cube_scene).2 = render cube_scene
  /\ stdout (normalize_scene (5 # 2) cube_scene).2 = stdout cube_scene
  /\ random (normalize_scene (5 # 2) cube_scene).2 = random cube_scene
  /\ ops (normalize_scene (5 # 2) cube_scene).2 = (ops cube_scene ++ [SelectAll])%list
  /\ exists f : Object -> Object,
       objects (normalize_scene (5 # 2) cube_scene).2 = map f (objects cube_scene)
       /\ forall o,
            name (f o) = name o /\ type (f o) = type o
            /\ parent (f o) = parent o /\ linked (f o) = linked o
            /\ bb_min (f o) = bb_min o /\ bb_max (f o) = bb_max o
            /\ (linked o = true -> selected (f o) = false)
            /\ (linked o = false -> f o = o)
            /\ (parent o <> None ->
                location (f o) = location o /\ scale (f o) = scale o).
Proof.
  exact (normalize_scene_frame (5 # 2) cube_scene
           (normalize_scene (5 # 2) cube_scene).2 normalize_cube_returns).
Defined.

Lemma local_run_removes_nothing_witness :
  keeps_files demo_world (main demo_host demo_args demo_world).2.
Proof.
  exact (local_run_removes_nothing demo_host demo_args demo_world
           (main demo_host demo_args demo_world).1
           (main demo_host demo_args demo_world).2
           (steady_ret tt) eq_refl
           (surjective_pairing (main demo_host demo_args demo_world))).
Defined.

Lemma demo_save_returns :
  save_images demo_host demo_args "chair.glb" true demo_world
  = (Ok tt, (save_images demo_host demo_args "chair.glb" true demo_world).2).
Proof. vm_compute. reflexivity. Qed.

Lemma demo_output_dir : output_dir demo_args <> "".
Proof. done. Qed.

Lemma returned_run_is_resumable_witness :
  path_exists (train_manifest demo_args "chair.glb")
    (save_images demo_host demo_args "chair.glb" true demo_world).2
  = (Ok true, (save_images demo_host demo_args "chair.glb" true demo_world).2).
Proof.
  exact (returned_run_is_resumable demo_host demo_args "chair.glb" true demo_world
           (save_images demo_host demo_args "chair.glb" true demo_world).2
           demo_output_dir demo_save_returns).
Defined.

Lemma unsupported_asset_renders_nothing_witness :
  files (save_images demo_host demo_args "chair.obj" true demo_world).2
  = files demo_world
  /\ ops (save_images demo_host demo_args "chair.obj" true demo_world).2
     = ops demo_world
  /\ ((save_images demo_host demo_args "chair.obj" true demo_world).1 = Ok tt
      /\ path_exists (train_manifest demo_args "chair.obj")
           (save_images demo_host demo_args "chair.obj" true demo_world).2
         = (Ok true, (save_images demo_host demo_args "chair.obj" true demo_world).2)
      \/ exists e,
           (save_images demo_host demo_args "chair.obj" true demo_world).1 = Raise e
           /\ (exn_cls e = OSError
               \/ e = Exn ValueError ("Unsupported file type: " ++ "chair.obj"))).
Proof.
  exact (unsupported_asset_renders_nothing demo_host demo_args "chair.obj" true
           demo_world
           (save_images demo_host demo_args "chair.obj" true demo_world).1
           (save_images demo_host demo_args "chair.obj" true demo_world).2
           eq_refl eq_refl
           (surjective_pairing
              (save_images demo_host demo_args "chair.obj" true demo_world))).
Defined.

Lemma split_sizes_witness :
  length (demo_frames !!! "train") = Z.to_nat ((num_images demo_args + 2) / 3)
  /\ length (demo_frames !!! "val") = Z.to_nat ((num_images demo_args + 1) / 3)
  /\ length (demo_frames !!! "test") = Z.to_nat (num_images demo_args / 3).
Proof.
  exact (split_sizes demo_host demo_args "chair" "Camera" demo_world
           demo_frames demo_loop.2 demo_loop_returns).
Defined.

Lemma demo_import_returns :
  (reset_scene ;; load_object demo_host "chair.glb") demo_world
  = (Ok tt, ((reset_scene ;; load_object demo_host "chair.glb") demo_world).2).
Proof. vm_compute. reflexivity. Qed.

Lemma import_replaces_scene_witness :
  exists o objs,
    (o = ImportGltf "chair.glb" /\ endswith ".glb" "chair.glb" = true
     \/ o = ImportFbx "chair.glb" /\ endswith ".glb" "chair.glb" = false
        /\ endswith ".fbx" "chair.glb" = true)
    /\ objects ((reset_scene ;; load_object demo_host "chair.glb") demo_world).2
       = (filter (fun x => type x = CAMERA \/ type x = LIGHT) (objects demo_world)
          ++ map (set_linked true) objs)%list
    /\ scene_meshes ((reset_scene ;; load_object demo_host "chair.glb") demo_world).2
       = filter (fun x => type x = MESH) (map (set_linked true) objs)
    /\ ops ((reset_scene ;; load_object demo_host "chair.glb") demo_world).2
       = (ops demo_world ++ [o])%list.
Proof.
  exact (import_replaces_scene demo_host "chair.glb" demo_world
           ((reset_scene ;; load_object demo_host "chair.glb") demo_world).2
           demo_import_returns).
Defined.

End MoreRuns.

(** ** The mesh export *)

Section ExportFacts.
Import Py Capturer.
Context {rng : Type} (host : Host (rng := rng)) (args : Args).

(** [join_meshes] on a scene with a mesh, in full: what it returns and
    the objects it leaves, [ml] being the last mesh of the scene. *)
Lemma join_meshes_runs (w : World rng) ml :
  last (scene_meshes w) = Some ml ->
  (forall o, o ∈ objects w -> linked o = true) ->
  NoDup (map name (objects w)) ->
  exists mesh w',
    join_meshes host w = (Ok mesh, w')
    /\ name mesh = name ml /\ type mesh = MESH
    /\ filter (fun o => type o = MESH) (objects w') = [mesh]
    /\ filter (fun o => selected o = true) (objects w') = [mesh]
    /\ (forall o, o ∈ objects w' -> name o = name mesh -> o = mesh)
    /\ files w' = files w /\ dirs w' = dirs w /\ cwd w' = cwd w
    /\ ops w' = (ops w ++ [SelectAll; Join])%list.
Proof.
  intros Hlast Hlinked Hnames.
  assert (Hml : ml ∈ scene_meshes w).
  { apply last_Some in Hlast as [l' ->]. apply elem_of_app. right. left. }
  assert (Hml_objs : ml ∈ objects w /\ type ml = MESH /\ linked ml = true).
  { unfold scene_meshes, scene_objects in Hml.
    apply list_elem_of_filter in Hml as [? Hml].
    by apply list_elem_of_filter in Hml as [? ?]. }
  destruct Hml_objs as (Hml_in & Hml_type & Hml_linked).
  unfold join_meshes. unfold bind at 1. unfold select_all_deselect.
  unfold modify at 1. unfold bind at 1. unfold gets at 1. unfold bind at 1.
  rewrite select_loop_ok, scene_meshes_deselected.
  unfold bind, gets, deselect_all.
  set (d := deselected).
  set (names := map name (map d (scene_meshes w))).
  set (s := fun o => if bool_decide (name o ∈ names) then set_selected true o else o).
  assert (Hd : forall o, name (d o) = name o /\ type (d o) = type o
                         /\ linked (d o) = linked o)
    by apply deselected_facts.
  assert (Hdsel : forall o, o ∈ objects w -> selected (d o) = false).
  { intros o Ho. unfold d, deselected. by rewrite (Hlinked o Ho). }
  assert (Hs : forall o, name (s o) = name o /\ type (s o) = type o
                         /\ linked (s o) = linked o
                         /\ (name o ∈ names -> selected (s o) = true)
                         /\ (name o ∉ names -> selected (s o) = selected o)).
  { intros o. unfold s. case_bool_decide; by destruct o. }
  assert (Hnames_in : forall o, o ∈ scene_meshes w -> name o ∈ names).
  { intros o Ho. unfold names. rewrite map_map.
    apply list_elem_of_fmap. exists o. split; [|done].
    symmetry. apply Hd. }
  assert (Hnames_back : forall o, o ∈ objects w -> name o ∈ names ->
            o ∈ scene_meshes w).
  { intros o Ho Hin. unfold names in Hin. rewrite map_map in Hin.
    apply list_elem_of_fmap in Hin as (o' & Hn & Ho').
    destruct (Hd o') as (Hn' & _). rewrite Hn' in Hn.
    assert (o' ∈ objects w).
    { unfold scene_meshes, scene_objects in Ho'.
      apply list_elem_of_filter in Ho' as [_ Ho'].
      by apply list_elem_of_filter in Ho' as [_ Ho']. }
    by rewrite (name_is_key (objects w) o o'). }
  rewrite fmap_last, Hlast. cbn [fmap option_fmap option_map from_option].
  cbn [objects logged with_objects].
  set (w2 := with_active _ _).
  assert (Hfind : find_object (scene_objects w2) (name (d ml)) = Some (s (d ml))).
  { unfold find_object.
    destruct (find _ (scene_objects w2)) as [act|] eqn:E.
    - apply find_some in E as [Hin He]. apply String.eqb_eq in He.
      apply list_elem_of_In in Hin. unfold scene_objects in Hin.
      apply list_elem_of_filter in Hin as [_ Hin]. cbn in Hin.
      apply list_elem_of_fmap in Hin as (o1 & -> & Hin).
      apply list_elem_of_fmap in Hin as (o0 & -> & Hin).
      f_equal. f_equal. f_equal.
      apply (name_is_key (objects w)); [done..|].
      destruct (Hs (d o0)) as (E1 & _). destruct (Hd o0) as (E2 & _).
      destruct (Hd ml) as (E3 & _). congruence.
    - exfalso.
      assert (Hin : In (s (d ml)) (scene_objects w2)).
      { apply list_elem_of_In. unfold scene_objects.
        apply list_elem_of_filter. split.
        - destruct (Hs (d ml)) as (_ & _ & -> & _).
          destruct (Hd ml) as (_ & _ & ->). done.
        - cbn. apply list_elem_of_fmap. exists (d ml). split; [done|].
          apply list_elem_of_fmap. eauto. }
      apply (find_none _ _ E) in Hin. cbn beta in Hin.
      destruct (Hs (d ml)) as (E1 & _).
      rewrite E1, String.eqb_refl in Hin. discriminate. }
  assert (Hsel : selected (s (d ml)) = true).
  { apply Hs. destruct (Hd ml) as (-> & _). by apply Hnames_in. }
  assert (Htype : type (s (d ml)) = MESH).
  { destruct (Hs (d ml)) as (_ & -> & _). destruct (Hd ml) as (_ & -> & _). done. }
  rewrite (object_join_ok host w2 (name (d ml)) (s (d ml)) eq_refl Hfind Htype Hsel).
  cbn [objects logged with_objects with_active w2].
  set (b := fun o => if String.eqb (name o) (name (s (d ml)))
                     then set_bounds (joined_box host (logged Join w2)) o else o).
  assert (Hb : forall o, name (b o) = name o /\ type (b o) = type o
                         /\ linked (b o) = linked o /\ selected (b o) = selected o).
  { intros o. unfold b. by destruct (String.eqb _ _). }
  set (keep := fun o => name o = name (s (d ml))
                        \/ ~ (type o = MESH /\ selected o = true /\ linked o = true)).
  assert (Hname_ml : name (s (d ml)) = name ml).
  { destruct (Hs (d ml)) as (-> & _). apply Hd. }
  assert (Hfacts : forall o, o ∈ objects w ->
            (type (b (s (d o))) = MESH /\ keep (s (d o)) <-> name o = name ml)
            /\ (selected (b (s (d o))) = true /\ keep (s (d o)) <-> name o = name ml)).
  { intros o Ho. unfold keep.
    destruct (Hb (s (d o))) as (_ & Tb & _ & Sb).
    destruct (Hs (d o)) as (Hn1 & Ts & Hl1 & Hsel1 & Hsel0).
    destruct (Hd o) as (Hn2 & Td & Hl2).
    rewrite Tb, Sb, !Ts, !Td, !Hn1, !Hn2, Hname_ml, !Hl1, !Hl2.
    rewrite Hn2 in Hsel1, Hsel0.
    assert (Hmesh_in : type o = MESH -> name o ∈ names).
    { intros Ht. apply Hnames_in. unfold scene_meshes, scene_objects.
      apply list_elem_of_filter. split; [done|].
      apply list_elem_of_filter. split; [by apply Hlinked|done]. }
    assert (Hin_mesh : name o ∈ names -> type o = MESH).
    { intros Hin. apply Hnames_back in Hin; [|done].
      unfold scene_meshes in Hin. by apply list_elem_of_filter in Hin as [? _]. }
    assert (Hml_eq : name o = name ml -> o = ml)
      by (by apply (name_is_key (objects w))).
    split; split.
    - intros [Ht [Hn|Hno]]; [done|].
      exfalso. apply Hno. split; [done|]. split; [|by apply Hlinked].
      by apply Hsel1, Hmesh_in.
    - intros Hn. split; [|by left]. by rewrite (Hml_eq Hn).
    - intros [Hselected [Hn|Hno]]; [done|].
      destruct (decide (name o ∈ names)) as [Hin|Hnin].
      + exfalso. apply Hno. split; [by apply Hin_mesh|].
        split; [done|by apply Hlinked].
      + rewrite (Hsel0 Hnin), (Hdsel o Ho) in Hselected. done.
    - intros Hn. split; [|by left]. apply Hsel1, Hmesh_in.
      by rewrite (Hml_eq Hn). }
  assert (Hleft : forall (P : Object -> Prop) (HP : forall o, Decision (P o)),
            (forall o, o ∈ objects w ->
               P (b (s (d o))) /\ keep (s (d o)) <-> name o = name ml) ->
            filter P (map b (filter keep (map s (map d (objects w)))))
            = [b (s (d ml))]).
  { intros P HP HPiff.
    rewrite map_map, !filter_map_commute, map_map, list_filter_filter.
    rewrite (filter_ext_in _ (fun o => name o = name ml)) by done.
    by rewrite filter_by_name. }
  exists (b (s (d ml))). eexists.
  split; [|split; [|split; [|split; [|split; [|split]]]]].
  - rewrite (Hleft (fun o => type o = MESH) _); [reflexivity|].
    intros o Ho. apply (Hfacts o Ho).
  - destruct (Hb (s (d ml))) as (-> & _). done.
  - destruct (Hb (s (d ml))) as (_ & -> & _). done.
  - cbn [objects with_objects logged]. apply Hleft. intros o Ho. apply (Hfacts o Ho).
  - cbn [objects with_objects logged]. apply Hleft. intros o Ho. apply (Hfacts o Ho).
  - cbn [objects with_objects logged]. intros o Ho Hn.
    apply list_elem_of_fmap in Ho as (o1 & -> & Ho).
    apply list_elem_of_filter in Ho as [_ Ho].
    apply list_elem_of_fmap in Ho as (o2 & -> & Ho).
    apply list_elem_of_fmap in Ho as (o0 & -> & Ho).
    do 3 f_equal. apply (name_is_key (objects w)); [done..|].
    destruct (Hb (s (d o0))) as (Hn1 & _). destruct (Hs (d o0)) as (Hn2 & _).
    destruct (Hd o0) as (Hn3 & _). destruct (Hb (s (d ml))) as (Hn4 & _).
    congruence.
  - cbn [files dirs cwd ops with_objects logged with_active w2].
    repeat split; try done. by rewrite <- app_assoc.
Qed.


Lemma set_selected_same (o : Object) :
  selected o = true -> set_selected true o = o.
Proof. destruct o. cbn. by intros ->. Qed.

(** X24.  What the mesh export leaves behind when it returns, on a host
    whose importers give distinct names to the objects they create: one
    mesh, the joined one, which is also the one object selected when
    the exporter is called with [export_selected_objects]; the file
    [mesh.obj] of the asset; and a log of one import, the two
    [select_all] of [normalize_scene] and [join_meshes], one join and
    one export, in this order. *)
Theorem export_selects_joined_mesh object_file uid (w : World rng) w' :
  (forall o w0 objs, imported host o w0 = Ok objs -> NoDup (map name objs)) ->
  export_mesh host args object_file uid w = (Ok tt, w') ->
  exists mesh text o,
    filter (fun x => type x = MESH) (objects w') = [mesh]
    /\ filter (fun x => selected x = true) (objects w') = [mesh]
    /\ file_at w' (locate (cwd w) (path_join (output_dir args) [uid; "mesh.obj"]))
       = Some (Wavefront text)
    /\ (o = ImportGltf object_file \/ o = ImportFbx object_file)
    /\ ops w'
       = (ops w ++ [o; SelectAll; SelectAll; Join;
                    ObjExport (path_join (output_dir args) [uid; "mesh.obj"])])%list.
Proof.
  intros Hhost Hrun. unfold export_mesh in Hrun.
  apply bind_returns in Hrun as ([] & w0 & Hclear & Hrun).
  apply bind_returns in Hrun as ([] & w1 & Hload & Hrun).
  apply bind_returns in Hrun as ([] & w2 & Hnorm & Hrun).
  apply bind_returns in Hrun as (mesh & w3 & Hjoin & Hrun).
  apply bind_returns in Hrun as ([] & w4 & Hselect & Hexport).
  (* the scene that is joined *)
  assert (Hreach : (modify (fun w => with_active None (with_objects [] w)) ;;
                    load_object host object_file ;;
                    normalize_scene (5 # 2)) w = (Ok tt, w2)).
  { unfold bind at 1. rewrite Hclear. unfold bind at 1. by rewrite Hload. }
  apply export_mesh_reaches_join in Hreach as [Hlinked Hmesh].
  injection Hclear as <-.
  assert (Himport : exists o objs,
            (o = ImportGltf object_file \/ o = ImportFbx object_file)
            /\ imported host o (with_active None (with_objects [] w)) = Ok objs
            /\ w1 = logged o (with_objects (map (set_linked true) objs)
                                (with_active None (with_objects [] w)))).
  { revert Hload. unfold load_object, import_scene, raise.
    repeat case_match; try done; intros [= <-]; eexists _, _;
      (split; [|split; [eassumption|reflexivity]]); auto. }
  destruct Himport as (o & objs & Ho & Hobjs & ->).
  destruct (normalize_scene_keeps _ _ _ Hnorm) as (f & Hf_objs & Hf).
  apply normalize_scene_shape in Hnorm as (k & c & Hw2).
  assert (Hnames : NoDup (map name (objects w2))).
  { rewrite Hf_objs, map_map. cbn [objects logged with_objects].
    rewrite map_map.
    erewrite map_ext; [by eapply Hhost|].
    intros x. cbn beta. by destruct (Hf (set_linked true x)) as (-> & _). }
  destruct (last (scene_meshes w2)) as [ml|] eqn:Hlast;
    [|by apply last_None in Hlast].
  destruct (join_meshes_runs w2 ml Hlast Hlinked Hnames)
    as (mesh' & w3' & Hjoin' & _ & _ & Hone & Hsel & Huniq & Hf3 & Hd3 & Hc3 & Hops3).
  rewrite Hjoin' in Hjoin. injection Hjoin as -> ->.
  unfold select_set, modify in Hselect. injection Hselect as <-.
  assert (Hsame : objects (update_object (name mesh) (set_selected true) w3)
                  = objects w3).
  { unfold update_object. cbn [objects with_objects].
    rewrite <- (map_id (objects w3)) at 2. apply map_ext_in.
    intros x Hx%list_elem_of_In.
    destruct (String.eqb (name x) (name mesh)) eqn:E; [|done].
    apply String.eqb_eq in E. rewrite (Huniq x Hx E).
    apply set_selected_same.
    assert (Hin : mesh ∈ filter (fun o => selected o = true) (objects w3))
      by (rewrite Hsel; by left).
    by apply list_elem_of_filter in Hin as [? _]. }
  revert Hexport. unfold obj_export.
  destruct (export_result host _) as [text|e]; [|done].
  intros (-> & _ & _)%write_file_returns.
  exists mesh, text, o.
  cbn [objects with_files logged].
  rewrite Hsame. split; [done|]. split; [done|].
  split; [|split; [done|]].
  - unfold file_at. cbn [files cwd with_files logged update_object with_objects].
    rewrite Hc3, Hw2. cbn [cwd deselect_all shift_roots refresh scale_roots
                            logged with_objects with_active].
    cbn [assoc]. by rewrite decide_True.
  - cbn [ops with_files logged update_object with_objects].
    rewrite Hops3, Hw2.
    cbn [ops deselect_all shift_roots refresh scale_roots
           logged with_objects with_active].
    by rewrite <- !app_assoc.
Qed.

End ExportFacts.

Section ExportRuns.
Import Py Capturer.

Lemma demo_import_names (o : op) (w0 : World unit) objs :
  imported demo_host o w0 = Ok objs -> NoDup (map name objs).
Proof.
  intros [= <-].
  assert (Hpair : NoDup ["Left"; "Right"]).
  { apply NoDup_cons. split; [|apply NoDup_singleton].
    intros H%list_elem_of_singleton. discriminate. }
  destruct o as [path|path| | | |]; cbn [demo_import];
    try destruct (endswith "pair.glb" path); cbn [map name cube];
    first [exact Hpair | apply NoDup_singleton | apply NoDup_nil_2].
Qed.

Lemma pair_export_returns :
  export_mesh demo_host demo_args "pair.glb" "pair" pair_ready
  = (Ok tt, (export_mesh demo_host demo_args "pair.glb" "pair" pair_ready).2).
Proof. vm_compute. reflexivity. Qed.

Lemma export_selects_joined_mesh_witness :
  exists mesh text o,
    filter (fun x => type x = MESH)
      (objects (export_mesh demo_host demo_args "pair.glb" "pair" pair_ready).2)
    = [mesh]
    /\ filter (fun x => selected x = true)
         (objects (export_mesh demo_host demo_args "pair.glb" "pair" pair_ready).2)
       = [mesh]
    /\ file_at (export_mesh demo_host demo_args "pair.glb" "pair" pair_ready).2
         (locate (cwd pair_ready) (path_join (output_dir demo_args) ["pair"; "mesh.obj"]))
       = Some (Wavefront text)
    /\ (o = ImportGltf "pair.glb" \/ o = ImportFbx "pair.glb")
    /\ ops (export_mesh demo_host demo_args "pair.glb" "pair" pair_ready).2
       = (ops pair_ready
          ++ [o; SelectAll; SelectAll; Join;
              ObjExport (path_join (output_dir demo_args) ["pair"; "mesh.obj"])])%list.
Proof.
  exact (export_selects_joined_mesh demo_host demo_args "pair.glb" "pair" pair_ready
           (export_mesh demo_host demo_args "pair.glb" "pair" pair_ready).2
           demo_import_names pair_export_returns).
Defined.

(** The two cubes of [pair.glb] are exported as one mesh, the one
    selected last. *)
Example pair_export :
  map name (objects (export_mesh demo_host demo_args "pair.glb" "pair" pair_ready).2)
  = ["Right"]
  /\ file_at (export_mesh demo_host demo_args "pair.glb" "pair" pair_ready).2
       ["work"; "objaverse_synthetic"; "pair"; "mesh.obj"]
     = Some (Wavefront "o mesh").
Proof. vm_compute. done. Qed.

(** The manifests of an asset without frames, written into the
    directory made for it. *)
Example save_poses_demo :
  let r := save_poses demo_args "pair" (6 # 7) 800 800 no_frames pair_ready in
  r.1 = Ok tt
  /\ map fst (files r.2)
     = [["work"; "objaverse_synthetic"; "pair"; "transforms_test.json"];
        ["work"; "objaverse_synthetic"; "pair"; "transforms_val.json"];
        ["work"; "objaverse_synthetic"; "pair"; "transforms_train.json"]]
  /\ (save_poses demo_args "pair" (6 # 7) 800 800 no_frames demo_world).1
     = Raise (Exn OSError
         "No such file or directory: objaverse_synthetic/pair/transforms_train.json").
Proof. vm_compute. done. Qed.

End ExportRuns.
